(** * Review analysis service: cache-aside orchestration

    A shallow embedding of [django/app/services/review_analysis_service.py]
    (class [ReviewAnalysisService]) together with the parts of the Python
    runtime it calls: [str.encode], [hashlib.md5], [json.dumps] and
    [json.loads].  The cache client [redis_client] lives outside the
    embedded file and is modelled from the specification. *)

From Stdlib Require Import ZArith NArith Lia Ascii String.
From stdpp Require Import base option list gmap fin_maps.

Local Open Scope N_scope.
#[local] Set Warnings "-register-all,-clear-no-such-hyp".

(** ** Python strings and bytes *)

(** A Python [str] is a sequence of code points; [bytes] is a sequence of
    octets.  Both are kept as [N] so that UTF-8 and MD5 can be written with
    the bit operations the algorithms use. *)
Abbreviation pystr := (list N).
Abbreviation pybytes := (list N).

(** ASCII literals of the source, as code points. *)
Definition lit (s : string) : pystr :=
  List.map N_of_ascii (list_ascii_of_string s).

(** Code points a [str] may hold, and the ones UTF-8 can encode. *)
Definition is_codepoint (c : N) : bool := c <=? 0x10FFFF.
Definition is_surrogate (c : N) : bool := (0xD800 <=? c) && (c <=? 0xDFFF).
Definition is_scalar (c : N) : bool := is_codepoint c && negb (is_surrogate c).

(** ** Exceptions and results *)

(** Instances of [Exception]: everything an [except Exception] clause
    catches.  Interpreter signals outside that hierarchy (task
    cancellation, keyboard interrupt) are not failures of a stage and are
    not modelled. *)
Inductive exn : Type :=
| UnicodeEncodeError
| JSONDecodeError
| TypeError
| ConnectionError
| ProcessingError (msg : string).

Inductive result (A : Type) : Type :=
| Ok (a : A)
| Raise (e : exn).
Arguments Ok {A} a.
Arguments Raise {A} e.

Definition is_ok {A} (r : result A) : bool :=
  match r with Ok _ => true | Raise _ => false end.

Definition rbind {A B} (r : result A) (k : A -> result B) : result B :=
  match r with Ok a => k a | Raise e => Raise e end.

(** ** [str.encode()]: strict UTF-8 *)

Module Utf8.

(** One code point.  Surrogates are refused ("surrogates not allowed"),
    as CPython's strict error handler does. *)
Definition encode_char (c : N) : option pybytes :=
  if c <? 0x80 then Some [c]
  else if c <? 0x800 then
    Some [N.lor 0xC0 (N.shiftr c 6); N.lor 0x80 (N.land c 0x3F)]
  else if c <? 0x10000 then
    if is_surrogate c then None
    else Some [N.lor 0xE0 (N.shiftr c 12);
               N.lor 0x80 (N.land (N.shiftr c 6) 0x3F);
               N.lor 0x80 (N.land c 0x3F)]
  else if c <? 0x110000 then
    Some [N.lor 0xF0 (N.shiftr c 18);
          N.lor 0x80 (N.land (N.shiftr c 12) 0x3F);
          N.lor 0x80 (N.land (N.shiftr c 6) 0x3F);
          N.lor 0x80 (N.land c 0x3F)]
  else None.

Fixpoint encode (s : pystr) : result pybytes :=
  match s with
  | [] => Ok []
  | c :: s' =>
      match encode_char c with
      | None => Raise UnicodeEncodeError
      | Some bs => rbind (encode s') (fun rest => Ok (bs ++ rest))
      end
  end.

End Utf8.

(** ** [hashlib.md5(...).hexdigest()] *)

Module MD5.

Definition mask32 : N := 0xFFFFFFFF.
Definition add32 (x y : N) : N := N.land (x + y) mask32.
Definition not32 (x : N) : N := N.lxor x mask32.
Definition rotl32 (x n : N) : N :=
  N.land (N.lor (N.shiftl x n) (N.shiftr x (32 - n))) mask32.

Definition shifts : list N :=
  [7; 12; 17; 22; 7; 12; 17; 22; 7; 12; 17; 22; 7; 12; 17; 22;
   5; 9; 14; 20; 5; 9; 14; 20; 5; 9; 14; 20; 5; 9; 14; 20;
   4; 11; 16; 23; 4; 11; 16; 23; 4; 11; 16; 23; 4; 11; 16; 23;
   6; 10; 15; 21; 6; 10; 15; 21; 6; 10; 15; 21; 6; 10; 15; 21].

Definition sines : list N :=
  [0xd76aa478; 0xe8c7b756; 0x242070db; 0xc1bdceee;
   0xf57c0faf; 0x4787c62a; 0xa8304613; 0xfd469501;
   0x698098d8; 0x8b44f7af; 0xffff5bb1; 0x895cd7be;
   0x6b901122; 0xfd987193; 0xa679438e; 0x49b40821;
   0xf61e2562; 0xc040b340; 0x265e5a51; 0xe9b6c7aa;
   0xd62f105d; 0x02441453; 0xd8a1e681; 0xe7d3fbc8;
   0x21e1cde6; 0xc33707d6; 0xf4d50d87; 0x455a14ed;
   0xa9e3e905; 0xfcefa3f8; 0x676f02d9; 0x8d2a4c8a;
   0xfffa3942; 0x8771f681; 0x6d9d6122; 0xfde5380c;
   0xa4beea44; 0x4bdecfa9; 0xf6bb4b60; 0xbebfbc70;
   0x289b7ec6; 0xeaa127fa; 0xd4ef3085; 0x04881d05;
   0xd9d4d039; 0xe6db99e5; 0x1fa27cf8; 0xc4ac5665;
   0xf4292244; 0x432aff97; 0xab9423a7; 0xfc93a039;
   0x655b59c3; 0x8f0ccc92; 0xffeff47d; 0x85845dd1;
   0x6fa87e4f; 0xfe2ce6e0; 0xa3014314; 0x4e0811a1;
   0xf7537e82; 0xbd3af235; 0x2ad7d2bb; 0xeb86d391].

Record state := { sa : N; sb : N; sc : N; sd : N }.

Definition init : state :=
  {| sa := 0x67452301; sb := 0xefcdab89; sc := 0x98badcfe; sd := 0x10325476 |}.

(** Little-endian words and bytes. *)
Definition word_of_bytes (b0 b1 b2 b3 : N) : N :=
  N.lor b0 (N.lor (N.shiftl b1 8) (N.lor (N.shiftl b2 16) (N.shiftl b3 24))).

Fixpoint words_of_bytes (bs : pybytes) : list N :=
  match bs with
  | b0 :: b1 :: b2 :: b3 :: rest => word_of_bytes b0 b1 b2 b3 :: words_of_bytes rest
  | _ => []
  end.

Definition bytes_of_word (w : N) : pybytes :=
  [N.land w 0xFF; N.land (N.shiftr w 8) 0xFF;
   N.land (N.shiftr w 16) 0xFF; N.land (N.shiftr w 24) 0xFF].

Fixpoint bytes_le (n : nat) (w : N) : pybytes :=
  match n with
  | O => []
  | S n' => N.land w 0xFF :: bytes_le n' (N.shiftr w 8)
  end.

(** Padding: a one bit, zeros up to 56 mod 64, the bit length on 64 bits. *)
Definition pad (msg : pybytes) : pybytes :=
  let len := N.of_nat (length msg) in
  let zeros := (55 + 64 - len mod 64) mod 64 in
  msg ++ [0x80] ++ repeat 0 (N.to_nat zeros)
      ++ bytes_le 8 (N.land (8 * len) 0xFFFFFFFFFFFFFFFF).

Definition round_fg (i : N) (b c d : N) : N * N :=
  if i <? 16 then (N.lor (N.land b c) (N.land (not32 b) d), i)
  else if i <? 32 then (N.lor (N.land d b) (N.land (not32 d) c), (5 * i + 1) mod 16)
  else if i <? 48 then (N.lxor b (N.lxor c d), (3 * i + 5) mod 16)
  else (N.lxor c (N.lor b (not32 d)), (7 * i) mod 16).

Definition step (m : list N) (st : state) (i : N) : state :=
  let '(f, g) := round_fg i (sb st) (sc st) (sd st) in
  let x := add32 (add32 (add32 f (sa st)) (nth (N.to_nat i) sines 0))
                 (nth (N.to_nat g) m 0) in
  {| sa := sd st;
     sb := add32 (sb st) (rotl32 x (nth (N.to_nat i) shifts 0));
     sc := sb st;
     sd := sc st |}.

Definition rounds : list N := List.map N.of_nat (seq 0 64).

Definition compress (st : state) (block : pybytes) : state :=
  let st' := fold_left (step (words_of_bytes block)) rounds st in
  {| sa := add32 (sa st) (sa st'); sb := add32 (sb st) (sb st');
     sc := add32 (sc st) (sc st'); sd := add32 (sd st) (sd st') |}.

Fixpoint blocks (n : nat) (bs : pybytes) : list pybytes :=
  match n with
  | O => []
  | S n' => take 64 bs :: blocks n' (drop 64 bs)
  end.

Definition digest (msg : pybytes) : pybytes :=
  let p := pad msg in
  let st := fold_left compress (blocks (length p / 64) p) init in
  bytes_of_word (sa st) ++ bytes_of_word (sb st)
    ++ bytes_of_word (sc st) ++ bytes_of_word (sd st).

Definition hex_digit (n : N) : N :=
  if n <? 10 then 48 + n else 87 + n.

Definition hex_byte (b : N) : pystr :=
  [hex_digit (N.shiftr b 4); hex_digit (N.land b 0xF)].

Definition hexdigest (msg : pybytes) : pystr :=
  concat (List.map hex_byte (digest msg)).

End MD5.

(** ** Decimal numerals *)

Module Decimal.

Definition digit (n : N) : N := 48 + n.

Fixpoint digits_fuel (fuel : nat) (n : N) (acc : pystr) : pystr :=
  match fuel with
  | O => acc
  | S f =>
      if n <? 10 then digit n :: acc
      else digits_fuel f (n / 10) (digit (n mod 10) :: acc)
  end.

(** [str(n)] for a natural number. *)
Definition of_N (n : N) : pystr := digits_fuel (S (N.to_nat (N.size n))) n [].

(** [str(z)] for an integer. *)
Definition of_Z (z : Z) : pystr :=
  match z with
  | Zneg p => 45 :: of_N (Npos p)
  | _ => of_N (Z.to_N z)
  end.

Definition is_digit (c : N) : bool := (48 <=? c) && (c <=? 57).

(** Value of a digit string, most significant digit first. *)
Definition to_N (ds : pystr) : N :=
  fold_left (fun acc c => 10 * acc + (c - 48)) ds 0.

End Decimal.

(** ** Python [float]: IEEE-754 binary64 *)

Module PyFloat.

(** A finite non-zero value is [(-1)^neg * m * 2^e]; the canonical
    binary64 form has [m < 2^53] and [-1074 <= e <= 971], with
    [2^52 <= m] unless [e = -1074]. *)
Inductive t : Type :=
| Zero (neg : bool)
| Inf (neg : bool)
| NaN
| Finite (neg : bool) (m : positive) (e : Z).

Definition eqb (x y : t) : bool :=
  match x, y with
  | Zero a, Zero b | Inf a, Inf b => Bool.eqb a b
  | NaN, NaN => true
  | Finite a m e, Finite b m' e' => Bool.eqb a b && (m =? m')%positive && (e =? e')%Z
  | _, _ => false
  end.

Definition is_zero (f : t) : bool :=
  match f with Zero _ => true | _ => false end.

(** Round the exact value [m * 2^e] to binary64, ties to even. *)
Definition round_even (neg : bool) (m : N) (e : Z) : t :=
  if m =? 0 then Zero neg else
  let e' := Z.max (e + Z.of_N (N.size m) - 53) (-1074) in
  let k := (e' - e)%Z in
  let q :=
    if (k <=? 0)%Z then N.shiftl m (Z.to_N (- k))
    else
      let q0 := N.shiftr m (Z.to_N k) in
      let rem := N.land m (N.ones (Z.to_N k)) in
      let half := N.shiftl 1 (Z.to_N (k - 1)) in
      if (half <? rem) || ((rem =? half) && N.odd q0) then q0 + 1 else q0 in
  let '(q, e') := if q =? 2 ^ 53 then (2 ^ 52, (e' + 1)%Z) else (q, e') in
  match q with
  | N0 => Zero neg
  | Npos p => if (971 <? e')%Z then Inf neg else Finite neg p e'
  end.

(** [float] of the decimal [d * 10^x], correctly rounded.  For a
    negative exponent the quotient is computed on 64 bits or more and
    the remainder is kept as a sticky bit. *)
Definition of_decimal (neg : bool) (d : N) (x : Z) : t :=
  if d =? 0 then Zero neg
  else if (0 <=? x)%Z then
    if (400 <? x)%Z then Inf neg else round_even neg (d * 10 ^ Z.to_N x) 0
  else if (Z.of_N (N.size d) + x <? -400)%Z then Zero neg
  else
    let den := 10 ^ Z.to_N (- x) in
    let s := Z.to_N (Z.max 0 (64 + Z.of_N (N.size den) - Z.of_N (N.size d))) in
    let n := N.shiftl d s in
    let sticky := if n mod den =? 0 then 0 else 1 in
    round_even neg (2 * (n / den) + sticky) (- Z.of_N s - 1).

(** The value [m * 2^e] as a fraction. *)
Definition ratio (m : positive) (e : Z) : N * N :=
  if (0 <=? e)%Z then (Npos m * 2 ^ Z.to_N e, 1) else (Npos m, 2 ^ Z.to_N (- e)).

(** [10^k <= num / den]. *)
Definition pow10_le (k : Z) (num den : N) : bool :=
  if (0 <=? k)%Z then 10 ^ Z.to_N k * den <=? num
  else den <=? num * 10 ^ Z.to_N (- k).

Fixpoint raise_exponent (fuel : nat) (k : Z) (num den : N) : Z :=
  match fuel with
  | O => k
  | S f => if pow10_le (k + 1) num den then raise_exponent f (k + 1)%Z num den else k
  end.

(** The [k] with [10^k <= num/den < 10^(k+1)]. *)
Definition decimal_exponent (num den : N) : Z :=
  let l := (Z.of_N (N.size num) - Z.of_N (N.size den))%Z in
  raise_exponent 6 ((l - 1) * 30103 / 100000 - 1)%Z num den.

(** [floor (num/den / 10^sc)]. *)
Definition scaled_floor (num den : N) (sc : Z) : N :=
  if (0 <=? sc)%Z then num / (den * 10 ^ Z.to_N sc)
  else (num * 10 ^ Z.to_N (- sc)) / den.

(** [num/den] against the midpoint [(lo + 1/2) * 10^sc] of the two
    candidates [lo] and [lo+1]. *)
Definition compare_to_midpoint (num den lo : N) (sc : Z) : comparison :=
  if (0 <=? sc)%Z then 2 * num ?= (2 * lo + 1) * 10 ^ Z.to_N sc * den
  else 2 * num * 10 ^ Z.to_N (- sc) ?= (2 * lo + 1) * den.

(** [lo] is the candidate to print: it is nearer than [lo+1], or as near
    and even (round-half-even on the last digit). *)
Definition nearer_low (num den lo : N) (sc : Z) : bool :=
  match compare_to_midpoint num den lo sc with
  | Lt => true
  | Eq => N.even lo
  | Gt => false
  end.

(** Shortest digits that read back as the same float; of two candidates
    of the same length the nearer one, at a tie the even one. *)
Fixpoint shortest (fuel : nat) (p : Z) (neg : bool) (m : positive) (e : Z)
    (num den : N) (k : Z) : N * Z :=
  let sc := (k - p + 1)%Z in
  let lo := scaled_floor num den sc in
  match fuel with
  | O => (lo, sc)
  | S f =>
      let ok_lo := eqb (of_decimal neg lo sc) (Finite neg m e) in
      let ok_hi := eqb (of_decimal neg (lo + 1) sc) (Finite neg m e) in
      if ok_lo && ok_hi then
        (if nearer_low num den lo sc then lo else lo + 1, sc)
      else if ok_lo then (lo, sc)
      else if ok_hi then (lo + 1, sc)
      else shortest f (p + 1) neg m e num den k
  end.

Fixpoint strip_zeros (fuel : nat) (d : N) (sc : Z) : N * Z :=
  match fuel with
  | O => (d, sc)
  | S f => if (d mod 10 =? 0) && negb (d =? 0) then strip_zeros f (d / 10) (sc + 1)%Z
           else (d, sc)
  end.

Definition zeros (n : Z) : pystr := repeat 48 (Z.to_nat n).

(** [float.__repr__]. *)
Definition repr (f : t) : pystr :=
  match f with
  | Zero neg => (if neg then [45] else []) ++ lit "0.0"
  | Inf neg => (if neg then [45] else []) ++ lit "inf"
  | NaN => lit "nan"
  | Finite neg m e =>
      let '(num, den) := ratio m e in
      let k := decimal_exponent num den in
      let '(d0, sc0) := shortest 17 1 neg m e num den k in
      let '(d, sc) := strip_zeros 20 d0 sc0 in
      let ds := Decimal.of_N d in
      let n := Z.of_nat (length ds) in
      let decpt := (sc + n)%Z in
      let body :=
        if (-4 <? decpt)%Z && (decpt <=? 16)%Z then
          if (decpt <=? 0)%Z then lit "0." ++ zeros (- decpt) ++ ds
          else if (n <=? decpt)%Z then ds ++ zeros (decpt - n) ++ lit ".0"
          else take (Z.to_nat decpt) ds ++ [46] ++ drop (Z.to_nat decpt) ds
        else
          let x := (decpt - 1)%Z in
          let xs := Decimal.of_N (Z.to_N (Z.abs x)) in
          take 1 ds ++ (if (1 <? n)%Z then [46] ++ drop 1 ds else [])
            ++ [101] ++ (if (x <? 0)%Z then [45] else [43])
            ++ (if (length xs <? 2)%nat then [48] else []) ++ xs
      in (if neg then [45] else []) ++ body
  end.

End PyFloat.

(** ** Python values *)

(** The values the service handles: JSON-like data, tuples, and opaque
    objects (a data frame, the ad-hoc empty table of the default response)
    given by their class name and attributes.  Dictionaries keep insertion
    order and have [str] keys, as [Dict[str, Any]] in the source. *)
Inductive pyval : Type :=
| PNone
| PBool (b : bool)
| PInt (z : Z)
| PFloat (f : PyFloat.t)
| PStr (s : pystr)
| PList (l : list pyval)
| PTuple (l : list pyval)
| PDict (d : list (pystr * pyval))
| PObject (cls : pystr) (attrs : list (pystr * pyval)).

(** Truth value of an object in an [if]. *)
Definition truthy (v : pyval) : bool :=
  match v with
  | PNone => false
  | PBool b => b
  | PInt z => negb (z =? 0)%Z
  | PFloat f => negb (PyFloat.is_zero f)
  | PStr s => negb (bool_decide (s = []))
  | PList l | PTuple l => match l with [] => false | _ => true end
  | PDict d => match d with [] => false | _ => true end
  | PObject _ _ => true
  end.

(** [isinstance(value, (dict, list))]. *)
Definition is_dict_or_list (v : pyval) : bool :=
  match v with PDict _ | PList _ => true | _ => false end.

(** The scalar values: [None], [bool], [int], [float] and [str]. *)
Definition is_scalar_value (v : pyval) : bool :=
  match v with
  | PNone | PBool _ | PInt _ | PFloat _ | PStr _ => true
  | _ => false
  end.

(** [str(value)] for a scalar: a [str] is its own text.  (CPython
    refuses to write an [int] of more digits than its conversion limit;
    the limit is not modelled, see [Json].) *)
Definition scalar_text (v : pyval) : option pystr :=
  match v with
  | PNone => Some (lit "None")
  | PBool true => Some (lit "True")
  | PBool false => Some (lit "False")
  | PInt z => Some (Decimal.of_Z z)
  | PFloat f => Some (PyFloat.repr f)
  | PStr s => Some s
  | _ => None
  end.

(** [d[key]] lookup and [d[key] = v] update on an ordered dictionary. *)
Fixpoint dict_get (key : pystr) (d : list (pystr * pyval)) : option pyval :=
  match d with
  | [] => None
  | (k, v) :: d' => if bool_decide (k = key) then Some v else dict_get key d'
  end.

Fixpoint dict_set (key : pystr) (v : pyval) (d : list (pystr * pyval))
    : list (pystr * pyval) :=
  match d with
  | [] => [(key, v)]
  | (k, w) :: d' =>
      if bool_decide (k = key) then (k, v) :: d' else (k, w) :: dict_set key v d'
  end.

Definition dict_of_pairs (pairs : list (pystr * pyval)) : list (pystr * pyval) :=
  fold_left (fun d kv => dict_set kv.1 kv.2 d) pairs [].

(** ** [json.dumps] and [json.loads] *)

(** The encoder and the decoder as they behave within the interpreter's
    limits.  CPython also raises [RecursionError] on nesting deeper than
    its recursion limit and [ValueError] on an [int] of more digits than
    its conversion limit; neither limit is modelled, so a statement that
    needs the outcome of [json.dumps] or [json.loads] on a value takes
    that outcome as a hypothesis. *)

Module Json.

Definition hex4 (n : N) : pystr :=
  [MD5.hex_digit (N.land (N.shiftr n 12) 0xF); MD5.hex_digit (N.land (N.shiftr n 8) 0xF);
   MD5.hex_digit (N.land (N.shiftr n 4) 0xF); MD5.hex_digit (N.land n 0xF)].

(** Backslash, [u], four hex digits. *)
Definition u_escape (n : N) : pystr := [92; 117] ++ hex4 n.

(** One character of a string literal.  Quote, backslash and control
    characters are always escaped; everything outside printable ASCII
    only when [ensure_ascii] is set. *)
Definition escape_char (ensure_ascii : bool) (c : N) : pystr :=
  if c =? 34 then [92; 34]
  else if c =? 92 then [92; 92]
  else if c =? 10 then [92; 110]
  else if c =? 13 then [92; 114]
  else if c =? 9 then [92; 116]
  else if c =? 8 then [92; 98]
  else if c =? 12 then [92; 102]
  else if c <? 32 then u_escape c
  else if ensure_ascii && (126 <? c) then
    if c <? 0x10000 then u_escape c
    else
      let n := c - 0x10000 in
      u_escape (N.lor 0xD800 (N.land (N.shiftr n 10) 0x3FF))
        ++ u_escape (N.lor 0xDC00 (N.land n 0x3FF))
  else [c].

Definition encode_string (ensure_ascii : bool) (s : pystr) : pystr :=
  [34] ++ concat (List.map (escape_char ensure_ascii) s) ++ [34].

Definition float_str (f : PyFloat.t) : pystr :=
  match f with
  | PyFloat.NaN => lit "NaN"
  | PyFloat.Inf false => lit "Infinity"
  | PyFloat.Inf true => lit "-Infinity"
  | _ => PyFloat.repr f
  end.

(** The encoder, with its [ensure_ascii] flag and its two separators.
    Tuples are written as arrays; an object of any other class is
    "not JSON serializable". *)
Fixpoint encode (ensure_ascii : bool) (item_sep key_sep : pystr) (v : pyval)
    : result pystr :=
  match v with
  | PNone => Ok (lit "null")
  | PBool true => Ok (lit "true")
  | PBool false => Ok (lit "false")
  | PInt z => Ok (Decimal.of_Z z)
  | PFloat f => Ok (float_str f)
  | PStr s => Ok (encode_string ensure_ascii s)
  | PList l | PTuple l =>
      rbind
        ((fix items (first : bool) (l : list pyval) : result pystr :=
            match l with
            | [] => Ok []
            | x :: l' =>
                rbind (encode ensure_ascii item_sep key_sep x) (fun sx =>
                rbind (items false l') (fun rest =>
                Ok ((if first then [] else item_sep) ++ sx ++ rest)))
            end) true l)
        (fun body => Ok ([91] ++ body ++ [93]))
  | PDict d =>
      rbind
        ((fix members (first : bool) (d : list (pystr * pyval)) : result pystr :=
            match d with
            | [] => Ok []
            | (k, x) :: d' =>
                rbind (encode ensure_ascii item_sep key_sep x) (fun sx =>
                rbind (members false d') (fun rest =>
                Ok ((if first then [] else item_sep)
                      ++ encode_string ensure_ascii k ++ key_sep ++ sx ++ rest)))
            end) true d)
        (fun body => Ok ([123] ++ body ++ [125]))
  | PObject _ _ => Raise TypeError
  end.

(** [json.dumps(obj, ensure_ascii=...)]: with no [indent] and no
    [separators] the encoder uses [", "] and [": "]. *)
Definition dumps (obj : pyval) (ensure_ascii : bool) : result pystr :=
  encode ensure_ascii (lit ", ") (lit ": ") obj.

(** *** Decoder *)

Inductive parsed (A : Type) : Type :=
| Parsed (a : A) (rest : pystr)
| Invalid
| OutOfFuel.
Arguments Parsed {A} a rest.
Arguments Invalid {A}.
Arguments OutOfFuel {A}.

Definition is_ws (c : N) : bool :=
  (c =? 32) || (c =? 9) || (c =? 10) || (c =? 13).

Fixpoint skip_ws (s : pystr) : pystr :=
  match s with
  | c :: s' => if is_ws c then skip_ws s' else s
  | [] => []
  end.

Fixpoint strip_prefix (p s : pystr) : option pystr :=
  match p, s with
  | [], _ => Some s
  | a :: p', b :: s' => if a =? b then strip_prefix p' s' else None
  | _ :: _, [] => None
  end.

Definition hex_value (c : N) : option N :=
  if Decimal.is_digit c then Some (c - 48)
  else if (97 <=? c) && (c <=? 102) then Some (c - 87)
  else if (65 <=? c) && (c <=? 70) then Some (c - 55)
  else None.

(** Four hex digits of a [\uXXXX] escape. *)
Definition decode_hex4 (s : pystr) : option (N * pystr) :=
  match s with
  | a :: b :: c :: d :: rest =>
      match hex_value a, hex_value b, hex_value c, hex_value d with
      | Some x, Some y, Some z, Some w => Some (4096 * x + 256 * y + 16 * z + w, rest)
      | _, _, _, _ => None
      end
  | _ => None
  end.

Definition unescape (c : N) : option N :=
  if c =? 34 then Some 34
  else if c =? 92 then Some 92
  else if c =? 47 then Some 47
  else if c =? 98 then Some 8
  else if c =? 102 then Some 12
  else if c =? 110 then Some 10
  else if c =? 114 then Some 13
  else if c =? 116 then Some 9
  else None.

(** The body of a string literal, after its opening quote (strict mode:
    a raw control character is an error). *)
Fixpoint scanstring (fuel : nat) (acc : pystr) (s : pystr) : parsed pystr :=
  match fuel with
  | O => OutOfFuel
  | S f =>
      match s with
      | [] => Invalid
      | c :: r =>
          if c =? 34 then Parsed (rev acc) r
          else if c =? 92 then
            match r with
            | [] => Invalid
            | esc :: r1 =>
                if esc =? 117 then
                  match decode_hex4 r1 with
                  | None => Invalid
                  | Some (uni, r2) =>
                      if (0xD800 <=? uni) && (uni <=? 0xDBFF) then
                        match strip_prefix [92; 117] r2 with
                        | None => scanstring f (uni :: acc) r2
                        | Some r3 =>
                            match decode_hex4 r3 with
                            | None => Invalid
                            | Some (uni2, r4) =>
                                if (0xDC00 <=? uni2) && (uni2 <=? 0xDFFF) then
                                  scanstring f
                                    (0x10000 + N.lor (N.shiftl (uni - 0xD800) 10) (uni2 - 0xDC00)
                                       :: acc) r4
                                else scanstring f (uni :: acc) r2
                            end
                        end
                      else scanstring f (uni :: acc) r2
                  end
                else
                  match unescape esc with
                  | Some ch => scanstring f (ch :: acc) r1
                  | None => Invalid
                  end
            end
          else if c <? 32 then Invalid
          else scanstring f (c :: acc) r
      end
  end.

Fixpoint span_digits (s : pystr) : pystr * pystr :=
  match s with
  | c :: s' =>
      if Decimal.is_digit c then let '(ds, r) := span_digits s' in (c :: ds, r)
      else ([], s)
  | [] => ([], [])
  end.

(** Integer part: a single [0], or a non-zero digit and more digits. *)
Definition scan_int (s : pystr) : option (pystr * pystr) :=
  match s with
  | c :: s' =>
      if c =? 48 then Some ([48], s')
      else if Decimal.is_digit c then let '(ds, r) := span_digits s' in Some (c :: ds, r)
      else None
  | [] => None
  end.

(** Fraction: a dot and at least one digit. *)
Definition scan_frac (s : pystr) : option (pystr * pystr) :=
  match s with
  | c :: s' =>
      if c =? 46 then
        match span_digits s' with
        | ([], _) => None
        | (ds, r) => Some (ds, r)
        end
      else None
  | [] => None
  end.

(** Exponent: [e] or [E], an optional sign, at least one digit. *)
Definition scan_exp (s : pystr) : option (Z * pystr) :=
  match s with
  | c :: s' =>
      if (c =? 101) || (c =? 69) then
        let '(neg, s'') :=
          match s' with
          | sg :: r => if sg =? 45 then (true, r) else if sg =? 43 then (false, r) else (false, s')
          | [] => (false, s')
          end in
        match span_digits s'' with
        | ([], _) => None
        | (ds, r) =>
            let x := Z.of_N (Decimal.to_N ds) in
            Some (if neg then (- x)%Z else x, r)
        end
      else None
  | [] => None
  end.

(** A number after its sign: an [int] without fraction and exponent,
    else a [float]. *)
Definition scan_unsigned (neg : bool) (s : pystr) : option (pyval * pystr) :=
  match scan_int s with
  | None => None
  | Some (ip, s1) =>
      let '(frac, s2) :=
        match scan_frac s1 with Some (fd, r) => (Some fd, r) | None => (None, s1) end in
      let '(ex, s3) :=
        match scan_exp s2 with Some (x, r) => (Some x, r) | None => (None, s2) end in
      match frac, ex with
      | None, None =>
          let n := Z.of_N (Decimal.to_N ip) in
          Some (PInt (if neg then (- n)%Z else n), s3)
      | _, _ =>
          let fd := default [] frac in
          let x := default 0%Z ex in
          Some (PFloat (PyFloat.of_decimal neg (Decimal.to_N (ip ++ fd))
                          (x - Z.of_nat (length fd))), s3)
      end
  end.

Definition scan_number (s : pystr) : option (pyval * pystr) :=
  match s with
  | c :: r => if c =? 45 then scan_unsigned true r else scan_unsigned false s
  | [] => None
  end.

Definition scan_constant (s : pystr) : parsed pyval :=
  match strip_prefix (lit "null") s with
  | Some r => Parsed PNone r
  | None =>
  match strip_prefix (lit "true") s with
  | Some r => Parsed (PBool true) r
  | None =>
  match strip_prefix (lit "false") s with
  | Some r => Parsed (PBool false) r
  | None =>
  match scan_number s with
  | Some (v, r) => Parsed v r
  | None =>
  match strip_prefix (lit "NaN") s with
  | Some r => Parsed (PFloat PyFloat.NaN) r
  | None =>
  match strip_prefix (lit "Infinity") s with
  | Some r => Parsed (PFloat (PyFloat.Inf false)) r
  | None =>
  match strip_prefix (lit "-Infinity") s with
  | Some r => Parsed (PFloat (PyFloat.Inf true)) r
  | None => Invalid
  end end end end end end end.

(** The members of an object after the opening quote of the first key,
    with the scanner for the values ([JSONObject] of the decoder). *)
Definition scan_object (scan_value : pystr -> parsed pyval)
    : nat -> list (pystr * pyval) -> pystr -> parsed pyval :=
  fix members (n : nat) (acc : list (pystr * pyval)) (s : pystr) {struct n}
      : parsed pyval :=
    match n with
    | O => OutOfFuel
    | S n' =>
        match scanstring (S (length s)) [] s with
        | Invalid => Invalid
        | OutOfFuel => OutOfFuel
        | Parsed key s2 =>
            match skip_ws s2 with
            | [] => Invalid
            | c3 :: s3 =>
                if c3 =? 58 then
                  match scan_value (skip_ws s3) with
                  | Invalid => Invalid
                  | OutOfFuel => OutOfFuel
                  | Parsed v s4 =>
                      match skip_ws s4 with
                      | [] => Invalid
                      | c5 :: s5 =>
                          if c5 =? 125 then
                            Parsed (PDict (dict_of_pairs (rev ((key, v) :: acc)))) s5
                          else if c5 =? 44 then
                            match skip_ws s5 with
                            | [] => Invalid
                            | c6 :: s6 =>
                                if c6 =? 34 then members n' ((key, v) :: acc) s6
                                else Invalid
                            end
                          else Invalid
                      end
                  end
                else Invalid
            end
        end
    end.

(** The items of an array from its first value on ([JSONArray]). *)
Definition scan_array (scan_value : pystr -> parsed pyval)
    : nat -> list pyval -> pystr -> parsed pyval :=
  fix items (n : nat) (acc : list pyval) (s : pystr) {struct n} : parsed pyval :=
    match n with
    | O => OutOfFuel
    | S n' =>
        match scan_value s with
        | Invalid => Invalid
        | OutOfFuel => OutOfFuel
        | Parsed v s2 =>
            match skip_ws s2 with
            | [] => Invalid
            | c3 :: s3 =>
                if c3 =? 93 then Parsed (PList (rev (v :: acc))) s3
                else if c3 =? 44 then items n' (v :: acc) (skip_ws s3)
                else Invalid
            end
        end
    end.

(** One JSON value starting at the head of [s]. *)
Fixpoint scan_once (fuel : nat) (s : pystr) {struct fuel} : parsed pyval :=
  match fuel with
  | O => OutOfFuel
  | S f =>
      match s with
      | [] => Invalid
      | c :: rest =>
          if c =? 34 then
            match scanstring (S (length rest)) [] rest with
            | Parsed str r => Parsed (PStr str) r
            | Invalid => Invalid
            | OutOfFuel => OutOfFuel
            end
          else if c =? 123 then
            match skip_ws rest with
            | [] => Invalid
            | c1 :: s1 =>
                if c1 =? 125 then Parsed (PDict []) s1
                else if c1 =? 34 then scan_object (scan_once f) (S (length s1)) [] s1
                else Invalid
            end
          else if c =? 91 then
            match skip_ws rest with
            | [] => Invalid
            | c1 :: s1 =>
                if c1 =? 93 then Parsed (PList []) s1
                else scan_array (scan_once f) (S (length s1)) [] (c1 :: s1)
            end
          else scan_constant s
      end
  end.

(** [json.loads(s)]: one value, surrounded by white space only. *)
Definition loads (s : pystr) : result pyval :=
  match strip_prefix [0xFEFF] s with
  | Some _ => Raise JSONDecodeError
  | None =>
      match scan_once (S (length s)) (skip_ws s) with
      | Parsed v rest =>
          match skip_ws rest with
          | [] => Ok v
          | _ :: _ => Raise JSONDecodeError
          end
      | Invalid => Raise JSONDecodeError
      | OutOfFuel => Raise (ProcessingError "RecursionError")
      end
  end.

End Json.

(** JSON text written with single quotes standing for double quotes. *)
Definition jlit (s : string) : pystr :=
  List.map (fun c => if c =? 39 then 34 else c) (lit s).

(** ** The cache client [redis_client] *)

Module Redis.

(** The module [database/redis_client.py] is not part of the embedded
    file.  Its client is the spec's Cache Store Adapter, "a standard TTL
    key-value store" with a connectivity flag; the operations below are
    modelled from that description.  Expiry needs a clock and is not
    modelled; an entry records the TTL it was written with. *)

(** Modelled from the spec: the operations of the absent [redis_client]. *)
Inductive op : Type := Get | Setex | Delete | Keys.

(** Modelled from the spec: how the backend of the absent
    [redis_client] treats an operation.  [Healthy] and [Failing] are the
    spec's adapter: the operation works, or fails and returns its
    neutral value.  [Throwing] goes beyond it (the spec's adapter never
    raises): the operation raises, so that the [try]/[except] blocks of
    the service are exercised as well. *)
Inductive mode : Type := Healthy | Failing | Throwing.

Definition mode_eq_dec (a b : mode) : {a = b} + {a <> b}.
Proof. decide equality. Defined.

(** Modelled from the spec: the state of the absent [redis_client], a
    keyed store of texts with their TTL behind a connection handle.
    The spec says what text a scalar is stored as; of a value that is
    not a scalar (a tuple, an object) it says nothing, and [other_text]
    is what the backend makes of one: its text, or [None] when the
    backend rejects it. *)
Record entry : Type := { value : pystr; ttl : Z }.

Record connection : Type := {
  entries : gmap (list N) entry;
  behaviour : op -> mode;
  other_text : pyval -> option pystr
}.

Record client : Type := {
  is_connected : bool;
  _redis : option connection
}.

Definition with_entries (c : client) (conn : connection) (m : gmap (list N) entry)
    : client :=
  {| is_connected := is_connected c;
     _redis := Some {| entries := m; behaviour := behaviour conn;
                       other_text := other_text conn |} |}.

(** Modelled from the spec: the text a value is stored as, "values are
    stored as UTF-8 text; scalar values are stored verbatim". *)
Definition stored_text (conn : connection) (v : pyval) : option pystr :=
  match scalar_text v with
  | Some text => Some text
  | None => other_text conn v
  end.

(** Modelled from the spec: the pattern match of the absent
    [redis_client.keys].  [*] matches any run of characters, [?] one
    character, anything else itself. *)
Fixpoint glob_match (p s : pystr) {struct p} : bool :=
  match p with
  | [] => match s with [] => true | _ :: _ => false end
  | c :: p' =>
      if c =? 42 then
        (fix star (s : pystr) : bool :=
           glob_match p' s
           || match s with [] => false | _ :: s' => star s' end) s
      else
        match s with
        | [] => false
        | d :: s' => ((c =? 63) || (c =? d)) && glob_match p' s'
        end
  end.

(** Modelled from the spec: [get] of the absent [redis_client],
    "returns stored text or absence; absence on any backend error". *)
Definition get (key : pystr) (c : client) : result (option pystr) * client :=
  match _redis c with
  | Some conn =>
      if is_connected c then
        match behaviour conn Get with
        | Healthy => (Ok (value <$> entries conn !! key), c)
        | Failing => (Ok None, c)
        | Throwing => (Raise ConnectionError, c)
        end
      else (Ok None, c)
  | None => (Ok None, c)
  end.

(** Modelled from the spec: [setex] of the absent [redis_client],
    "stores value, returns whether the store reports success; false on
    error or unavailability".  The value is stored as its text; a value
    the backend rejects is an error, reported as [False]. *)
Definition setex (key : pystr) (seconds : Z) (v : pyval) (c : client)
    : result bool * client :=
  match _redis c with
  | Some conn =>
      if is_connected c then
        match behaviour conn Setex with
        | Healthy =>
            match stored_text conn v with
            | Some text =>
                (Ok true,
                 with_entries c conn
                   (<[key := {| value := text; ttl := seconds |}]> (entries conn)))
            | None => (Ok false, c)
            end
        | Failing => (Ok false, c)
        | Throwing => (Raise ConnectionError, c)
        end
      else (Ok false, c)
  | None => (Ok false, c)
  end.

(** Modelled from the spec: the deletion behind the absent
    [redis_client.delete]; the listed keys are removed one by one and
    those that were there are counted. *)
Fixpoint remove_keys (ks : list pystr) (m : gmap (list N) entry)
    : Z * gmap (list N) entry :=
  match ks with
  | [] => (0%Z, m)
  | k :: ks' =>
      match m !! k with
      | Some _ => let '(n, m') := remove_keys ks' (base.delete k m) in ((1 + n)%Z, m')
      | None => remove_keys ks' m
      end
  end.

(** Modelled from the spec: [delete] of the absent [redis_client],
    "number of keys removed". *)
Definition delete (ks : list pystr) (c : client) : result Z * client :=
  match _redis c with
  | Some conn =>
      if is_connected c then
        match behaviour conn Delete with
        | Healthy =>
            let '(n, m) := remove_keys ks (entries conn) in
            (Ok n, with_entries c conn m)
        | Failing => (Ok 0%Z, c)
        | Throwing => (Raise ConnectionError, c)
        end
      else (Ok 0%Z, c)
  | None => (Ok 0%Z, c)
  end.

(** Modelled from the spec: the keys the absent [redis_client.keys]
    enumerates for a pattern. *)
Definition matching (pattern : pystr) (m : gmap (list N) entry) : list pystr :=
  List.filter (glob_match pattern) (map_to_list m).*1.

(** Modelled from the spec: [keys] of the absent [redis_client],
    "enumerates keys matching pattern"; none when the backend fails. *)
Definition keys (pattern : pystr) (c : client) : result (list pystr) * client :=
  match _redis c with
  | Some conn =>
      if is_connected c then
        match behaviour conn Keys with
        | Healthy => (Ok (matching pattern (entries conn)), c)
        | Failing => (Ok [], c)
        | Throwing => (Raise ConnectionError, c)
        end
      else (Ok [], c)
  | None => (Ok [], c)
  end.

End Redis.

(** ** The service *)

(** The pipeline stages run by the service: calls of
    [loop.run_in_executor(None, f, arg)]. *)
Inductive stage : Type := PreprocessReviews | AnalyzeReviewsWithKeywords.

(** Calls that leave the service for the pipeline. *)
Inductive call : Type :=
| GetReviewsByCompany (name : pystr)
| RunInExecutor (f : stage) (arg : pyval).

(** A call together with what came back: the instrumentation of the
    pipeline adapter. *)
Inductive event : Type :=
| Called (c : call) (outcome : result pyval).

(** What a call of the service can read and change: the module-level
    [redis_client] and the calls made to the pipeline so far. *)
Record world : Type := {
  redis_client : Redis.client;
  calls : list event
}.

(** The collaborators the service is built on: the review store
    [company_review_model], the two methods it hands to the executor, and
    the setting it reads. *)
Record collaborators : Type := {
  get_reviews_by_company : pystr -> result pyval;
  preprocess_reviews : pyval -> result pyval;
  analyze_reviews_with_keywords : pyval -> result pyval;
  review_analysis_cache_expire_time : Z
}.

(** Computations of the service: they read and change the world and
    either return or raise. *)
Definition M (A : Type) : Type := world -> result A * world.

Definition ret {A} (a : A) : M A := fun w => (Ok a, w).
Definition raise {A} (e : exn) : M A := fun w => (Raise e, w).
Definition lift {A} (r : result A) : M A := fun w => (r, w).
Definition bind {A B} (m : M A) (k : A -> M B) : M B :=
  fun w => match m w with
           | (Ok a, w') => k a w'
           | (Raise e, w') => (Raise e, w')
           end.

(** [try: body  except Exception as e: handler]. *)
Definition try_except {A} (body : M A) (handler : exn -> M A) : M A :=
  fun w => match body w with
           | (Ok a, w') => (Ok a, w')
           | (Raise e, w') => handler e w'
           end.

Notation "'let*' x ':=' m 'in' k" := (bind m (fun x => k))
  (at level 10, x name, m at level 100, k at level 200).

Definition on_redis {A} (f : Redis.client -> result A * Redis.client) : M A :=
  fun w => let '(r, c) := f (redis_client w) in
           (r, {| redis_client := c; calls := calls w |}).

(** Make a pipeline call, note it with its outcome, and pass the outcome on. *)
Definition perform (c : call) (outcome : result pyval) : M pyval :=
  fun w => (outcome,
            {| redis_client := redis_client w; calls := calls w ++ [Called c outcome] |}).

(** [redis_client.is_connected and redis_client._redis is not None]. *)
Definition redis_ready (w : world) : bool :=
  Redis.is_connected (redis_client w)
  && match Redis._redis (redis_client w) with Some _ => true | None => false end.

Definition _get_cache_key (company_name : pystr) : result pystr :=
  rbind (Utf8.encode company_name) (fun encoded =>
  let company_hash := MD5.hexdigest encoded in
  Ok (lit "review_analysis:" ++ company_hash)).

Definition _get_from_cache (key : pystr) : M pyval :=
  try_except
    (fun w =>
       if redis_ready w then
         (let* value := on_redis (Redis.get key) in
          match value with
          | Some text =>
              match Json.loads text with
              | Ok v => ret v
              | Raise JSONDecodeError => ret (PStr text)
              | Raise e => raise e
              end
          | None => ret PNone
          end) w
       else ret PNone w)
    (fun _ => ret PNone).

(** The value handed to [setex]: JSON text for a dict or a list, else the
    value itself. *)
Definition redis_value_of (value : pyval) : result pyval :=
  if is_dict_or_list value then
    rbind (Json.dumps value false) (fun text => Ok (PStr text))
  else Ok value.

Definition _set_to_cache (key : pystr) (value : pyval) (expire_seconds : Z) : M bool :=
  try_except
    (fun w =>
       if redis_ready w then
         (let* redis_value := lift (redis_value_of value) in
          let* success := on_redis (Redis.setex key expire_seconds redis_value) in
          ret success) w
       else ret false w)
    (fun _ => ret false).

(** The ad-hoc empty table: an instance of a class made on the spot with
    attributes [shape = (0, 0)] and [empty = True]. *)
Definition EmptyDataFrame : pyval :=
  PObject (lit "EmptyDataFrame")
    [(lit "shape", PTuple [PInt 0; PInt 0]); (lit "empty", PBool true)].

Definition empty_section : pyval :=
  PDict [(lit "avg_score", PFloat (PyFloat.Zero false));
         (lit "keywords", PList []);
         (lit "sample_reviews", PList [])].

Definition _get_default_response : pyval :=
  PDict [(lit "scored_df", EmptyDataFrame);
         (lit "pros", empty_section);
         (lit "cons", empty_section)].

Section Service.

Variable self : collaborators.

Definition get_reviews (name : pystr) : M pyval :=
  perform (GetReviewsByCompany name) (get_reviews_by_company self name).

(** [await loop.run_in_executor(None, f, arg)]: the call is handed to
    the default executor and its outcome, value or exception, comes
    back to the caller. *)
Definition run_in_executor (f : stage) (arg : pyval) : M pyval :=
  perform (RunInExecutor f arg)
    match f with
    | PreprocessReviews => preprocess_reviews self arg
    | AnalyzeReviewsWithKeywords => analyze_reviews_with_keywords self arg
    end.

Definition _perform_analysis (name : pystr) : M pyval :=
  let* reviews := get_reviews name in
  let* df := run_in_executor PreprocessReviews reviews in
  run_in_executor AnalyzeReviewsWithKeywords df.

Definition analysis_review (name : pystr) : M pyval :=
  let* cache_key := lift (_get_cache_key name) in
  let* cached_result := _get_from_cache cache_key in
  if truthy cached_result then ret cached_result
  else
    try_except
      (let* analysis_result := _perform_analysis name in
       let cache_expire_time := review_analysis_cache_expire_time self in
       let* _ := _set_to_cache cache_key analysis_result cache_expire_time in
       ret analysis_result)
      (fun _ => ret _get_default_response).

(** [if company_name:] on an [Optional[str]]: [None] and the empty
    string both take the [else] branch. *)
Definition clear_analysis_cache (company_name : option pystr) : M Z :=
  let delete_one (name : pystr) : M Z :=
    let* cache_key := lift (_get_cache_key name) in
    fun w =>
      if redis_ready w then on_redis (Redis.delete [cache_key]) w
      else ret 0%Z w in
  let delete_all : M Z :=
    let pattern := lit "review_analysis:*" in
    fun w =>
      if redis_ready w then
        (let* keys := on_redis (Redis.keys pattern) in
         if truthy (PList (PStr <$> keys)) then on_redis (Redis.delete keys)
         else ret 0%Z) w
      else ret 0%Z w in
  try_except
    (match company_name with
     | Some name => if truthy (PStr name) then delete_one name else delete_all
     | None => delete_all
     end)
    (fun _ => ret 0%Z).

End Service.

(** ** Vocabulary of the statements *)

(** The pipeline as one function: fetch the records, preprocess them,
    score them. *)
Definition pipeline (self : collaborators) (name : pystr) : result pyval :=
  rbind (get_reviews_by_company self name) (fun reviews =>
  rbind (preprocess_reviews self reviews) (fun df =>
  analyze_reviews_with_keywords self df)).

(** The calls one run of the pipeline makes: the fetch, then each
    transform stage on the executor as long as the stage before returned. *)
Definition pipeline_calls (self : collaborators) (name : pystr) : list event :=
  let fetched := get_reviews_by_company self name in
  Called (GetReviewsByCompany name) fetched ::
  match fetched with
  | Raise _ => []
  | Ok reviews =>
      let table := preprocess_reviews self reviews in
      Called (RunInExecutor PreprocessReviews reviews) table ::
      match table with
      | Raise _ => []
      | Ok df =>
          [Called (RunInExecutor AnalyzeReviewsWithKeywords df)
             (analyze_reviews_with_keywords self df)]
      end
  end.

(** What [analysis_review] answers once it has run the pipeline. *)
Definition pipeline_or_default (self : collaborators) (name : pystr) : pyval :=
  match pipeline self name with
  | Ok analysis_result => analysis_result
  | Raise _ => _get_default_response
  end.

Definition after_calls (w : world) (evs : list event) : world :=
  {| redis_client := redis_client w; calls := calls w ++ evs |}.

(** The value [_get_from_cache] hands back for a key. *)
Definition cached (key : pystr) (w : world) : pyval :=
  match (_get_from_cache key w).1 with
  | Ok v => v
  | Raise _ => PNone
  end.

(** The spec's Default Result: [pros] and [cons] with score 0.0 and no
    keywords or samples, and a table that says of itself that it is empty. *)
Definition is_empty_section (v : pyval) : bool :=
  match v with
  | PDict d =>
      match dict_get (lit "avg_score") d, dict_get (lit "keywords") d,
            dict_get (lit "sample_reviews") d with
      | Some (PFloat (PyFloat.Zero false)), Some (PList []), Some (PList []) => true
      | _, _, _ => false
      end
  | _ => false
  end.

Definition is_empty_table (v : pyval) : bool :=
  match v with
  | PObject _ attrs =>
      match dict_get (lit "empty") attrs, dict_get (lit "shape") attrs with
      | Some (PBool true), Some (PTuple [PInt 0; PInt 0]) => true
      | _, _ => false
      end
  | _ => false
  end.

Definition is_default_result (v : pyval) : bool :=
  match v with
  | PDict d =>
      match dict_get (lit "pros") d, dict_get (lit "cons") d,
            dict_get (lit "scored_df") d with
      | Some pros_section, Some cons_section, Some table =>
          is_empty_section pros_section && is_empty_section cons_section
          && is_empty_table table
      | _, _, _ => false
      end
  | _ => false
  end.

(** The entries of the cache, empty when the client has no handle. *)
Definition store (w : world) : gmap (list N) Redis.entry :=
  match Redis._redis (redis_client w) with
  | Some conn => Redis.entries conn
  | None => ∅
  end.

(** How the backend treats an operation; a client without handle or
    connection is never asked. *)
Definition backend_mode (w : world) (o : Redis.op) : Redis.mode :=
  match Redis._redis (redis_client w) with
  | Some conn => Redis.behaviour conn o
  | None => Redis.Failing
  end.

(** The text the backend stores for a value. *)
Definition stored_as (w : world) (v : pyval) : option pystr :=
  match Redis._redis (redis_client w) with
  | Some conn => Redis.stored_text conn v
  | None => None
  end.

(** The shape of an AnalysisResult: a mapping with [pros] and [cons],
    each a mapping with a float score, a keyword list and a sample list. *)
Definition is_section (v : pyval) : bool :=
  match v with
  | PDict d =>
      match dict_get (lit "avg_score") d, dict_get (lit "keywords") d,
            dict_get (lit "sample_reviews") d with
      | Some (PFloat _), Some (PList _), Some (PList _) => true
      | _, _, _ => false
      end
  | _ => false
  end.

Definition well_shaped (v : pyval) : bool :=
  match v with
  | PDict d =>
      match dict_get (lit "pros") d, dict_get (lit "cons") d with
      | Some pros_section, Some cons_section =>
          is_section pros_section && is_section cons_section
      | _, _ => false
      end
  | _ => false
  end.

(** [s.startswith(p)]. *)
Fixpoint starts_with (p s : pystr) : bool :=
  match p, s with
  | [], _ => true
  | a :: p', b :: s' => (a =? b) && starts_with p' s'
  | _ :: _, [] => false
  end.

(** Keys under the [review_analysis] namespace, and those of them a
    world's cache holds. *)
Definition in_namespace (k : pystr) : bool := starts_with (lit "review_analysis:") k.

Definition namespace_keys (w : world) : list pystr :=
  List.filter in_namespace (map_to_list (store w)).*1.

(** The outcome of a scan of [s] that did not run out of fuel; a parsed
    value leaves a strictly shorter rest. *)
Definition consumes {A} (s : pystr) (p : Json.parsed A) : Prop :=
  match p with
  | Json.Parsed _ r => (length r < length s)%nat
  | Json.Invalid => True
  | Json.OutOfFuel => False
  end.

(** The spec's wording of the wire format, "compact JSON text": no white
    space between tokens, that is the separators [","] and [":"]. *)
Definition compact_json (v : pyval) : result pystr :=
  Json.encode false (lit ",") (lit ":") v.

(** A mapping or sequence with a member that [json.dumps] refuses. *)
Definition has_unserializable_member (v : pyval) : Prop :=
  match v with
  | PDict d => exists k x, In (k, x) d /\ is_ok (Json.dumps x false) = false
  | PList l => exists x, In x l /\ is_ok (Json.dumps x false) = false
  | _ => False
  end.

Definition is_hex_digit (c : N) : bool :=
  ((48 <=? c) && (c <=? 57)) || ((97 <=? c) && (c <=? 102)).

(** The world after [n] successive calls of [analysis_review]. *)
Fixpoint after_reviews (self : collaborators) (name : pystr) (n : nat) (w : world)
    : world :=
  match n with
  | O => w
  | S n' => after_reviews self name n' (analysis_review self name w).2
  end.

(** ** Vocabulary of the JSON round trip *)

(** Values whose JSON text is read back without loss of content: no
    object, no finite non-zero float, and dicts with distinct keys. *)
Fixpoint is_plain (v : pyval) : bool :=
  match v with
  | PNone | PBool _ | PInt _ | PStr _ => true
  | PFloat f => match f with PyFloat.Finite _ _ _ => false | _ => true end
  | PList l | PTuple l => forallb is_plain l
  | PDict d => bool_decide (NoDup d.*1) && forallb (fun kv => is_plain kv.2) d
  | PObject _ _ => false
  end.

(** What is left of a value after a trip through JSON: a tuple has become
    a list. *)
Fixpoint json_image (v : pyval) : pyval :=
  match v with
  | PList l | PTuple l => PList (List.map json_image l)
  | PDict d => PDict (List.map (fun kv => (kv.1, json_image kv.2)) d)
  | _ => v
  end.

Fixpoint tuple_free (v : pyval) : bool :=
  match v with
  | PTuple _ => false
  | PList l => forallb tuple_free l
  | PDict d => forallb (fun kv => tuple_free kv.2) d
  | _ => true
  end.

(** What may follow a value inside JSON text: the end, a comma, or a
    closing bracket or brace. *)
Definition at_boundary (rest : pystr) : bool :=
  match rest with
  | [] => true
  | c :: _ => (c =? 44) || (c =? 93) || (c =? 125)
  end.

(** The items of an array and the members of an object as the encoder
    joins them. *)
Fixpoint join_items (enc : pyval -> result pystr) (item_sep : pystr) (first : bool)
    (l : list pyval) : result pystr :=
  match l with
  | [] => Ok []
  | x :: l' =>
      rbind (enc x) (fun sx =>
      rbind (join_items enc item_sep false l') (fun rest =>
      Ok ((if first then [] else item_sep) ++ sx ++ rest)))
  end.

Fixpoint join_members (enc : pyval -> result pystr) (item_sep key_sep : pystr)
    (first : bool) (d : list (pystr * pyval)) : result pystr :=
  match d with
  | [] => Ok []
  | (k, x) :: d' =>
      rbind (enc x) (fun sx =>
      rbind (join_members enc item_sep key_sep false d') (fun rest =>
      Ok ((if first then [] else item_sep)
            ++ Json.encode_string false k ++ key_sep ++ sx ++ rest)))
  end.

(** The first character of a value's text: not white space, not a
    closing bracket or brace, and ASCII. *)
Definition head_ok (c : N) : bool :=
  negb (Json.is_ws c) && negb (c =? 93) && negb (c =? 125) && (c <? 128).

(** What the round trip says of one value, for every fuel and rest. *)
Definition reads_back (x : pyval) : Prop :=
  is_plain x = true ->
  forall text fuel rest,
    Json.dumps x false = Ok text ->
    (length text + length rest < fuel)%nat ->
    at_boundary rest = true ->
    Json.scan_once fuel (text ++ rest) = Json.Parsed (json_image x) rest.

(** ** Sample collaborators and worlds *)

Module Sample.

Definition acme : pystr := lit "Acme".
Definition globex : pystr := lit "Globex".

(** Hangul company name, U+C0BC U+C131. *)
Definition samsung : pystr := [0xC0BC; 0xC131].

Definition review (text : string) (rating : Z) : pyval :=
  PDict [(lit "content", PStr (lit text)); (lit "rating", PInt rating)].

Definition reviews_of (name : pystr) : result pyval :=
  if bool_decide (name = acme) then
    Ok (PList [review "great team" 5; review "long hours" 2])
  else if bool_decide (name = globex) then Raise (ProcessingError "store unreachable")
  else Ok (PList []).

Definition data_frame (rows : list pyval) : pyval :=
  PObject (lit "DataFrame") [(lit "rows", PList rows)].

Definition preprocess (reviews : pyval) : result pyval :=
  match reviews with
  | PList rows => Ok (data_frame rows)
  | _ => Raise (ProcessingError "not a list of reviews")
  end.

Definition section (score : PyFloat.t) (keyword sample : string) : pyval :=
  PDict [(lit "avg_score", PFloat score);
         (lit "keywords", PList [PStr (lit keyword)]);
         (lit "sample_reviews", PList [PStr (lit sample)])].

Definition scores : list (pystr * pyval) :=
  [(lit "pros", section (PyFloat.of_decimal false 45 (-1)) "team" "great team");
   (lit "cons", section (PyFloat.of_decimal false 2 0) "hours" "long hours")].

(** An analyzer whose result is plain data. *)
Definition analyze_plain (df : pyval) : result pyval :=
  match df with
  | PObject _ _ => Ok (PDict scores)
  | _ => Raise (ProcessingError "not a data frame")
  end.

(** An analyzer that attaches the scored table to its result. *)
Definition analyze_with_frame (df : pyval) : result pyval :=
  match df with
  | PObject _ _ => Ok (PDict ((lit "scored_df", df) :: scores))
  | _ => Raise (ProcessingError "not a data frame")
  end.

Definition plain_service : collaborators :=
  {| get_reviews_by_company := reviews_of;
     preprocess_reviews := preprocess;
     analyze_reviews_with_keywords := analyze_plain;
     review_analysis_cache_expire_time := 3600 |}.

Definition frame_service : collaborators :=
  {| get_reviews_by_company := reviews_of;
     preprocess_reviews := preprocess;
     analyze_reviews_with_keywords := analyze_with_frame;
     review_analysis_cache_expire_time := 3600 |}.

(** A pipeline whose analysis is legitimately empty. *)
Definition empty_service : collaborators :=
  {| get_reviews_by_company := fun _ => Ok (PList []);
     preprocess_reviews := preprocess;
     analyze_reviews_with_keywords := fun _ => Ok (PDict []);
     review_analysis_cache_expire_time := 3600 |}.

(** An analysis that ranks keywords as (word, count) pairs. *)
Definition ranked : list (pystr * pyval) :=
  [(lit "pros", PList [PTuple [PStr (lit "team"); PInt 12]]);
   (lit "cons", PList [PTuple [PStr (lit "hours"); PInt 7]])].

(** The same analysis with lists for the pairs. *)
Definition ranked_as_lists : list (pystr * pyval) :=
  [(lit "pros", PList [PList [PStr (lit "team"); PInt 12]]);
   (lit "cons", PList [PList [PStr (lit "hours"); PInt 7]])].

Definition analyze_ranked (df : pyval) : result pyval :=
  match df with
  | PObject _ _ => Ok (PDict ranked)
  | _ => Raise (ProcessingError "not a data frame")
  end.

Definition ranked_service : collaborators :=
  {| get_reviews_by_company := reviews_of;
     preprocess_reviews := preprocess;
     analyze_reviews_with_keywords := analyze_ranked;
     review_analysis_cache_expire_time := 3600 |}.

Definition healthy : Redis.op -> Redis.mode := fun _ => Redis.Healthy.

Definition connected (m : gmap (list N) Redis.entry) (b : Redis.op -> Redis.mode)
    : world :=
  {| redis_client :=
       {| Redis.is_connected := true;
          Redis._redis := Some {| Redis.entries := m; Redis.behaviour := b;
                                  Redis.other_text := fun _ => None |} |};
     calls := [] |}.

Definition disconnected (m : gmap (list N) Redis.entry) : world :=
  {| redis_client :=
       {| Redis.is_connected := false;
          Redis._redis := Some {| Redis.entries := m; Redis.behaviour := healthy;
                                  Redis.other_text := fun _ => None |} |};
     calls := [] |}.

(** A backend whose writes raise. *)
Definition write_raises : Redis.op -> Redis.mode :=
  fun o => match o with Redis.Setex => Redis.Throwing | _ => Redis.Healthy end.

Definition key_of (name : pystr) : pystr :=
  match _get_cache_key name with Ok key => key | Raise _ => [] end.

Definition text_entry (text : pystr) : Redis.entry :=
  {| Redis.value := text; Redis.ttl := 3600 |}.

Definition empty_cache : world := connected ∅ healthy.

(** A cache in which some other writer left a text that is not JSON. *)
Definition plain_text_cache : world :=
  connected {[ key_of acme := text_entry (lit "hello") ]} healthy.

(** A cache holding an empty mapping for Acme. *)
Definition empty_mapping_cache : world :=
  connected {[ key_of acme := text_entry (jlit "{}") ]} healthy.

(** A cache holding entries for two companies. *)
Definition two_entries : world :=
  connected (<[ key_of acme := text_entry (jlit "{'pros': 1}") ]>
             {[ key_of samsung := text_entry (jlit "{'cons': 2}") ]}) healthy.

End Sample.

(** * Properties *)

(** ** The runtime: reference values *)

Example md5_empty :
  MD5.hexdigest [] = lit "d41d8cd98f00b204e9800998ecf8427e".
Proof. vm_compute. reflexivity. Qed.

Example md5_abc :
  MD5.hexdigest (lit "abc") = lit "900150983cd24fb0d6963f7d28e17f72".
Proof. vm_compute. reflexivity. Qed.

Example md5_two_blocks :
  MD5.hexdigest
    (lit "12345678901234567890123456789012345678901234567890123456789012345678901234567890")
  = lit "57edf4a22be3c955ac49da2e2107b67a".
Proof. vm_compute. reflexivity. Qed.

Example md5_acme :
  _get_cache_key Sample.acme = Ok (lit "review_analysis:79d894520f4f94c267986a819e110bec").
Proof. vm_compute. reflexivity. Qed.

Example md5_hangul :
  _get_cache_key Sample.samsung
  = Ok (lit "review_analysis:9ca55c910a982d9afcb7d81404dff8ce").
Proof. vm_compute. reflexivity. Qed.

Example float_repr_samples :
  List.map (fun '(d, x) => PyFloat.repr (PyFloat.of_decimal false d x))
    [(1, (-1)%Z); (45, (-1)%Z); (1, 22%Z); (1, (-5)%Z); (5, (-324)%Z);
     (29999999999999997, (-16)%Z)]
  = [lit "0.1"; lit "4.5"; lit "1e+22"; lit "1e-05"; lit "5e-324"; lit "2.9999999999999996"].
Proof. vm_compute. reflexivity. Qed.

(** An exact tie between the two shortest candidates: the even digit. *)
Example float_repr_tie :
  PyFloat.repr (PyFloat.Finite false 4503599627370502 (-3)) = lit "562949953421312.8"
  /\ PyFloat.repr (PyFloat.Finite false 4503599627370498 (-3)) = lit "562949953421312.2".
Proof. vm_compute. split; reflexivity. Qed.

Example dumps_sample :
  Json.dumps (PDict [(lit "a", PInt 1); (lit "b", PList [PNone; PBool true; PStr [0xC0BC]])]) false
  = Ok (jlit "{'a': 1, 'b': [null, true, '" ++ [0xC0BC] ++ jlit "']}").
Proof. vm_compute. reflexivity. Qed.

Example dumps_escaped :
  Json.dumps (PStr [0xC0BC; 0x1F600]) true = Ok ([34] ++ [92] ++ lit "uc0bc" ++ [92]
                                               ++ lit "ud83d" ++ [92] ++ lit "ude00" ++ [34]).
Proof. vm_compute. reflexivity. Qed.

Example loads_samples :
  Json.loads (jlit " {'a': [1, 2.5, null], 'a': {}} ") = Ok (PDict [(lit "a", PDict [])])
  /\ Json.loads (jlit "[1,]") = Raise JSONDecodeError
  /\ Json.loads (jlit "hello") = Raise JSONDecodeError
  /\ Json.loads (jlit "01") = Raise JSONDecodeError
  /\ Json.loads (jlit "'hello'") = Ok (PStr (lit "hello")).
Proof. vm_compute. repeat split; reflexivity. Qed.

Example loads_dumps_scores :
  rbind (Json.dumps (PDict Sample.scores) false) Json.loads = Ok (PDict Sample.scores).
Proof. vm_compute. reflexivity. Qed.

(** ** The decoder never runs out of fuel *)

Lemma skip_ws_length (s : pystr) : (length (Json.skip_ws s) <= length s)%nat.
Proof.
  induction s as [|c s IH]; simpl; [lia|].
  destruct (Json.is_ws c); simpl; lia.
Qed.

Lemma strip_prefix_length (p s r : pystr) :
  Json.strip_prefix p s = Some r -> length s = (length p + length r)%nat.
Proof.
  revert s. induction p as [|a p IH]; intros s; simpl.
  - intros [= ->]. reflexivity.
  - destruct s as [|b s]; [discriminate|].
    destruct (a =? b); [|discriminate]. intros H. simpl. rewrite (IH _ H). reflexivity.
Qed.

Lemma decode_hex4_length (s r : pystr) (n : N) :
  Json.decode_hex4 s = Some (n, r) -> length s = (4 + length r)%nat.
Proof.
  unfold Json.decode_hex4.
  destruct s as [|a [|b [|c [|d rest]]]]; try discriminate.
  destruct (Json.hex_value a), (Json.hex_value b), (Json.hex_value c), (Json.hex_value d);
    try discriminate.
  intros [= _ <-]. reflexivity.
Qed.

Lemma consumes_shorter {A} (s s' : pystr) (p : Json.parsed A) :
  consumes s' p -> (length s' <= length s)%nat -> consumes s p.
Proof. destruct p; simpl; intros; [lia | trivial | trivial]. Qed.

Lemma scanstring_consumes (fuel : nat) (acc s : pystr) :
  (length s < fuel)%nat -> consumes s (Json.scanstring fuel acc s).
Proof.
  revert acc s. induction fuel as [|f IH]; intros acc s Hf; [lia|].
  cbn [Json.scanstring].
  destruct s as [|c r]; [exact I|]. simpl in Hf.
  destruct (c =? 34); [simpl; lia|].
  destruct (c =? 92).
  - destruct r as [|esc r1]; [exact I|]. simpl in Hf.
    destruct (esc =? 117).
    + destruct (Json.decode_hex4 r1) as [[uni r2]|] eqn:E1; [|exact I].
      apply decode_hex4_length in E1.
      assert (Hr2 : consumes (c :: esc :: r1) (Json.scanstring f (uni :: acc) r2)).
      { eapply consumes_shorter; [apply IH; lia | simpl; lia]. }
      destruct ((55296 <=? uni) && (uni <=? 56319)); [|exact Hr2].
      destruct (Json.strip_prefix [92; 117] r2) as [r3|] eqn:E2; [|exact Hr2].
      apply strip_prefix_length in E2. simpl in E2.
      destruct (Json.decode_hex4 r3) as [[uni2 r4]|] eqn:E3; [|exact I].
      apply decode_hex4_length in E3.
      destruct ((56320 <=? uni2) && (uni2 <=? 57343)); [|exact Hr2].
      eapply consumes_shorter; [apply IH; lia | simpl; lia].
    + destruct (Json.unescape esc); [|exact I].
      eapply consumes_shorter; [apply IH; lia | simpl; lia].
  - destruct (c <? 32); [exact I|].
    eapply consumes_shorter; [apply IH; lia | simpl; lia].
Qed.

Lemma span_digits_length (s : pystr) :
  (length (Json.span_digits s).2 <= length s)%nat.
Proof.
  induction s as [|c s IH]; simpl; [lia|].
  destruct (Decimal.is_digit c); simpl; [|lia].
  destruct (Json.span_digits s); simpl in *. lia.
Qed.

Lemma scan_int_length (s ds r : pystr) :
  Json.scan_int s = Some (ds, r) -> (length r < length s)%nat.
Proof.
  unfold Json.scan_int. destruct s as [|c s]; [discriminate|].
  destruct (c =? 48); [intros [= _ <-]; simpl; lia|].
  destruct (Decimal.is_digit c); [|discriminate].
  pose proof (span_digits_length s) as H.
  destruct (Json.span_digits s). intros [= _ <-]. simpl in *. lia.
Qed.

Lemma scan_frac_length (s ds r : pystr) :
  Json.scan_frac s = Some (ds, r) -> (length r <= length s)%nat.
Proof.
  unfold Json.scan_frac. destruct s as [|c s]; [discriminate|].
  destruct (c =? 46); [|discriminate].
  pose proof (span_digits_length s) as H.
  destruct (Json.span_digits s) as [[|d ds'] r']; [discriminate|].
  intros [= _ <-]. simpl in *. lia.
Qed.

Lemma scan_exp_length (s r : pystr) (x : Z) :
  Json.scan_exp s = Some (x, r) -> (length r <= length s)%nat.
Proof.
  unfold Json.scan_exp. destruct s as [|c s]; [discriminate|].
  destruct ((c =? 101) || (c =? 69)); [|discriminate].
  destruct s as [|sg s']; [discriminate|].
  destruct (sg =? 45); [|destruct (sg =? 43)];
    match goal with
    | |- context [Json.span_digits ?t] =>
        pose proof (span_digits_length t) as Hl;
        destruct (Json.span_digits t) as [[|d ds] r0]; [discriminate|];
        intros [= _ <-]; simpl in *; lia
    end.
Qed.

Lemma scan_unsigned_length (neg : bool) (s r : pystr) (v : pyval) :
  Json.scan_unsigned neg s = Some (v, r) -> (length r < length s)%nat.
Proof.
  unfold Json.scan_unsigned.
  destruct (Json.scan_int s) as [[ip s1]|] eqn:Ei; [|discriminate].
  apply scan_int_length in Ei.
  destruct (Json.scan_frac s1) as [[fd s2]|] eqn:Ef;
    [apply scan_frac_length in Ef|];
    match goal with
    | |- context [Json.scan_exp ?t] =>
        destruct (Json.scan_exp t) as [[x s3]|] eqn:Ee; [apply scan_exp_length in Ee|]
    end;
    intros [= _ <-]; lia.
Qed.

Lemma scan_number_length (s r : pystr) (v : pyval) :
  Json.scan_number s = Some (v, r) -> (length r < length s)%nat.
Proof.
  unfold Json.scan_number. destruct s as [|c s']; [discriminate|].
  destruct (c =? 45); intros H; apply scan_unsigned_length in H; simpl in *; lia.
Qed.

Lemma scan_constant_consumes (s : pystr) : consumes s (Json.scan_constant s).
Proof.
  unfold Json.scan_constant.
  repeat match goal with
         | |- consumes _ match Json.strip_prefix ?p s with _ => _ end =>
             let E := fresh "E" in
             destruct (Json.strip_prefix p s) eqn:E;
               [apply strip_prefix_length in E; simpl in E |- *; lia|]
         | |- consumes _ match Json.scan_number s with _ => _ end =>
             let E := fresh "E" in
             destruct (Json.scan_number s) as [[? ?]|] eqn:E;
               [apply scan_number_length in E; exact E|]
         end.
  exact I.
Qed.

Lemma scan_object_consumes (scan_value : pystr -> Json.parsed pyval) (bound : nat) :
  (forall s, (length s < bound)%nat -> consumes s (scan_value s)) ->
  forall n acc s,
    (length s < n)%nat -> (length s < bound)%nat ->
    consumes s (Json.scan_object scan_value n acc s).
Proof.
  intros Hscan. induction n as [|n IHn]; intros acc s Hn Hb; [lia|].
  cbn [Json.scan_object].
  pose proof (scanstring_consumes (S (length s)) [] s ltac:(lia)) as Hk.
  destruct (Json.scanstring (S (length s)) [] s) as [key s2| |]; simpl in Hk;
    [|exact I|contradiction].
  pose proof (skip_ws_length s2) as Hw2.
  destruct (Json.skip_ws s2) as [|c3 s3]; [exact I|]. simpl in Hw2.
  destruct (c3 =? 58); [|exact I].
  pose proof (skip_ws_length s3) as Hw3.
  pose proof (Hscan (Json.skip_ws s3) ltac:(lia)) as Hv.
  destruct (scan_value (Json.skip_ws s3)) as [v s4| |]; simpl in Hv;
    [|exact I|contradiction].
  pose proof (skip_ws_length s4) as Hw4.
  destruct (Json.skip_ws s4) as [|c5 s5]; [exact I|]. simpl in Hw4.
  destruct (c5 =? 125); [simpl; lia|].
  destruct (c5 =? 44); [|exact I].
  pose proof (skip_ws_length s5) as Hw5.
  destruct (Json.skip_ws s5) as [|c6 s6]; [exact I|]. simpl in Hw5.
  destruct (c6 =? 34); [|exact I].
  eapply consumes_shorter; [apply IHn; lia | lia].
Qed.

Lemma scan_array_consumes (scan_value : pystr -> Json.parsed pyval) (bound : nat) :
  (forall s, (length s < bound)%nat -> consumes s (scan_value s)) ->
  forall n acc s,
    (length s <= n)%nat -> (0 < n)%nat -> (length s < bound)%nat ->
    consumes s (Json.scan_array scan_value n acc s).
Proof.
  intros Hscan. induction n as [|n IHn]; intros acc s Hn Hpos Hb; [lia|].
  cbn [Json.scan_array].
  pose proof (Hscan s Hb) as Hv.
  destruct (scan_value s) as [v s2| |]; simpl in Hv; [|exact I|contradiction].
  pose proof (skip_ws_length s2) as Hw2.
  destruct (Json.skip_ws s2) as [|c3 s3]; [exact I|]. simpl in Hw2.
  destruct (c3 =? 93); [simpl; lia|].
  destruct (c3 =? 44); [|exact I].
  pose proof (skip_ws_length s3) as Hw3.
  eapply consumes_shorter; [apply IHn; lia | lia].
Qed.

Lemma scan_once_consumes (fuel : nat) (s : pystr) :
  (length s < fuel)%nat -> consumes s (Json.scan_once fuel s).
Proof.
  revert s. induction fuel as [|f IH]; intros s Hf; [lia|].
  cbn [Json.scan_once].
  destruct s as [|c rest]; [exact I|]. simpl in Hf.
  destruct (c =? 34).
  { pose proof (scanstring_consumes (S (length rest)) [] rest ltac:(lia)) as H.
    destruct (Json.scanstring (S (length rest)) [] rest); simpl in *;
      [lia | trivial | trivial]. }
  pose proof (skip_ws_length rest) as Hws.
  destruct (c =? 123).
  { destruct (Json.skip_ws rest) as [|c1 s1]; [exact I|]. simpl in Hws.
    destruct (c1 =? 125); [simpl; lia|].
    destruct (c1 =? 34); [|exact I].
    eapply consumes_shorter;
      [apply (scan_object_consumes _ f IH); lia | simpl; lia]. }
  destruct (c =? 91); [|apply scan_constant_consumes].
  destruct (Json.skip_ws rest) as [|c1 s1]; [exact I|]. simpl in Hws.
  destruct (c1 =? 93); [simpl; lia|].
  eapply consumes_shorter;
    [apply (scan_array_consumes _ f IH); simpl; lia | simpl; lia].
Qed.

(** The fuel of the decoder is never used up: the [json.loads] of the
    model returns a value or raises [JSONDecodeError]. *)
Lemma loads_total (s : pystr) :
  (exists v, Json.loads s = Ok v) \/ Json.loads s = Raise JSONDecodeError.
Proof.
  unfold Json.loads.
  destruct (Json.strip_prefix [65279] s); [auto|].
  pose proof (skip_ws_length s) as Hw.
  pose proof (scan_once_consumes (S (length s)) (Json.skip_ws s) ltac:(lia)) as Hc.
  destruct (Json.scan_once (S (length s)) (Json.skip_ws s)) as [v rest| |];
    [|auto|contradiction].
  destruct (Json.skip_ws rest); eauto.
Qed.

(** ** UTF-8 and MD5 *)

Lemma encode_char_scalar (c : N) :
  is_scalar c = true -> exists bs, Utf8.encode_char c = Some bs.
Proof.
  unfold is_scalar, is_codepoint, Utf8.encode_char. intros H.
  apply andb_true_iff in H as [Hmax Hsur].
  apply N.leb_le in Hmax. apply negb_true_iff in Hsur. rewrite Hsur.
  destruct (c <? 128); [eauto|].
  destruct (c <? 2048); [eauto|].
  destruct (c <? 65536); [eauto|].
  destruct (N.ltb_spec c 1114112); [eauto|exfalso; lia].
Qed.

Lemma encode_char_some_scalar (c : N) (bs : pybytes) :
  Utf8.encode_char c = Some bs -> is_scalar c = true.
Proof.
  unfold Utf8.encode_char, is_scalar, is_codepoint, is_surrogate.
  destruct (N.ltb_spec c 128), (N.ltb_spec c 2048), (N.ltb_spec c 65536),
    (N.ltb_spec c 1114112), (N.leb_spec 55296 c), (N.leb_spec c 57343),
    (N.leb_spec c 1114111); simpl; intros; try discriminate; try reflexivity; exfalso; lia.
Qed.

Lemma encode_scalars (s : pystr) :
  forallb is_scalar s = true -> exists bs, Utf8.encode s = Ok bs.
Proof.
  induction s as [|c s IH]; simpl; intros H; [eauto|].
  apply andb_true_iff in H as [Hc Hs].
  destruct (encode_char_scalar c Hc) as [bs ->].
  destruct (IH Hs) as [rest ->]. simpl. eauto.
Qed.

Lemma encode_ok_scalars (s : pystr) (bs : pybytes) :
  Utf8.encode s = Ok bs -> forallb is_scalar s = true.
Proof.
  revert bs. induction s as [|c s IH]; simpl; intros bs H; [reflexivity|].
  destruct (Utf8.encode_char c) as [b|] eqn:Ec; [|discriminate].
  destruct (Utf8.encode s) as [rest|] eqn:Es; [|discriminate].
  rewrite (encode_char_some_scalar _ _ Ec), (IH _ eq_refl). reflexivity.
Qed.

Lemma land_byte_lt (w : N) : N.land w 0xFF < 256.
Proof.
  change 0xFF with (N.ones 8). rewrite N.land_ones.
  apply N.mod_lt. discriminate.
Qed.

Lemma hex_digit_ok (n : N) : n < 16 -> is_hex_digit (MD5.hex_digit n) = true.
Proof.
  intros H. unfold is_hex_digit, MD5.hex_digit.
  destruct (N.ltb_spec n 10).
  - replace (48 <=? 48 + n) with true by (symmetry; apply N.leb_le; lia).
    replace (48 + n <=? 57) with true by (symmetry; apply N.leb_le; lia).
    reflexivity.
  - replace (97 <=? 87 + n) with true by (symmetry; apply N.leb_le; lia).
    replace (87 + n <=? 102) with true by (symmetry; apply N.leb_le; lia).
    apply orb_true_r.
Qed.

Lemma hex_byte_ok (b : N) :
  b < 256 -> Forall (fun c => is_hex_digit c = true) (MD5.hex_byte b).
Proof.
  intros H. unfold MD5.hex_byte.
  repeat constructor; apply hex_digit_ok.
  - rewrite N.shiftr_div_pow2. change (2 ^ 4) with 16.
    apply N.Div0.div_lt_upper_bound. lia.
  - change 0xF with (N.ones 4). rewrite N.land_ones. apply N.mod_lt. discriminate.
Qed.

Lemma digest_bytes (msg : pybytes) :
  length (MD5.digest msg) = 16%nat /\ Forall (fun b => b < 256) (MD5.digest msg).
Proof.
  unfold MD5.digest.
  set (st := fold_left _ _ _). clearbody st. split.
  - reflexivity.
  - unfold MD5.bytes_of_word. simpl. repeat constructor; apply land_byte_lt.
Qed.

Lemma hexdigest_shape (msg : pybytes) :
  length (MD5.hexdigest msg) = 32%nat
  /\ Forall (fun c => is_hex_digit c = true) (MD5.hexdigest msg).
Proof.
  destruct (digest_bytes msg) as [Hlen Hall]. unfold MD5.hexdigest.
  remember (MD5.digest msg) as d eqn:Hd. clear Hd. split.
  - do 17 (destruct d as [|? d]; try discriminate). reflexivity.
  - clear Hlen. induction Hall as [|b d Hb _ IH]; [constructor|].
    change (Forall (fun c => is_hex_digit c = true)
              (MD5.hex_byte b ++ concat (List.map MD5.hex_byte d))).
    apply Forall_app. split; [apply hex_byte_ok, Hb | exact IH].
Qed.

(** ** The service: how its parts behave *)

Lemma world_eta (w : world) :
  {| redis_client := redis_client w; calls := calls w |} = w.
Proof. destruct w; reflexivity. Qed.

(** The cache read changes nothing and never raises. *)
Lemma get_from_cache_reads_only (key : pystr) (w : world) :
  exists v, _get_from_cache key w = (Ok v, w).
Proof.
  destruct w as [[ic [conn|]] evs];
    unfold _get_from_cache, try_except, redis_ready, bind, on_redis, Redis.get, ret, raise;
    simpl; destruct ic; simpl; eauto.
  destruct (Redis.behaviour conn Redis.Get); simpl; eauto.
  destruct (Redis.entries conn !! key) as [en|]; simpl; eauto.
  destruct (Json.loads (Redis.value en)) as [v|[]]; simpl; eauto.
Qed.

Lemma get_from_cache_cached (key : pystr) (w : world) :
  _get_from_cache key w = (Ok (cached key w), w).
Proof.
  unfold cached. destruct (get_from_cache_reads_only key w) as [v ->]. reflexivity.
Qed.

(** What the read finds, in terms of the store. *)
Lemma cached_store (key : pystr) (w : world) :
  cached key w =
    if redis_ready w then
      match backend_mode w Redis.Get with
      | Redis.Healthy =>
          match store w !! key with
          | Some en =>
              match Json.loads (Redis.value en) with
              | Ok v => v
              | Raise JSONDecodeError => PStr (Redis.value en)
              | Raise _ => PNone
              end
          | None => PNone
          end
      | _ => PNone
      end
    else PNone.
Proof.
  destruct w as [[ic [conn|]] evs];
    unfold cached, _get_from_cache, try_except, redis_ready, backend_mode, store,
      bind, on_redis, Redis.get, ret, raise;
    simpl; destruct ic; simpl; try reflexivity.
  destruct (Redis.behaviour conn Redis.Get); simpl; try reflexivity.
  destruct (Redis.entries conn !! key) as [en|]; simpl; try reflexivity.
  destruct (Json.loads (Redis.value en)) as [v|[]]; reflexivity.
Qed.

(** The cache write never raises and makes no pipeline call. *)
Lemma set_to_cache_total (key : pystr) (v : pyval) (seconds : Z) (w : world) :
  exists b w', _set_to_cache key v seconds w = (Ok b, w') /\ calls w' = calls w.
Proof.
  destruct w as [[ic [conn|]] evs];
    unfold _set_to_cache, try_except, redis_ready, bind, lift, on_redis, Redis.setex, ret;
    simpl; destruct ic; simpl; eauto.
  destruct (redis_value_of v) as [rv|]; simpl; eauto.
  destruct (Redis.behaviour conn Redis.Setex); simpl; eauto.
  destruct (Redis.stored_text conn rv); simpl; eauto.
Qed.

Lemma perform_analysis_spec (self : collaborators) (name : pystr) (w : world) :
  _perform_analysis self name w
  = (pipeline self name, after_calls w (pipeline_calls self name)).
Proof.
  unfold _perform_analysis, get_reviews, run_in_executor, perform, bind, pipeline,
    pipeline_calls, after_calls.
  destruct (get_reviews_by_company self name) as [reviews|]; simpl; [|reflexivity].
  destruct (preprocess_reviews self reviews) as [df|]; simpl;
    rewrite <- ?app_assoc; reflexivity.
Qed.

(** When the pipeline returns, every call it made returned. *)
Lemma pipeline_ok_calls (self : collaborators) (name : pystr) (r : pyval) (c : call)
    (e : exn) :
  pipeline self name = Ok r -> ~ In (Called c (Raise e)) (pipeline_calls self name).
Proof.
  unfold pipeline, pipeline_calls.
  destruct (get_reviews_by_company self name) as [reviews|]; simpl; [|discriminate].
  destruct (preprocess_reviews self reviews) as [df|]; simpl; [|discriminate].
  intros -> [H|[H|[H|[]]]]; discriminate.
Qed.

(** [analysis_review], path by path. *)
Lemma analysis_review_spec (self : collaborators) (name : pystr) (w : world) :
  analysis_review self name w =
    match _get_cache_key name with
    | Raise e => (Raise e, w)
    | Ok key =>
        if truthy (cached key w) then (Ok (cached key w), w)
        else
          let ran := after_calls w (pipeline_calls self name) in
          match pipeline self name with
          | Ok r =>
              (Ok r, (_set_to_cache key r (review_analysis_cache_expire_time self) ran).2)
          | Raise _ => (Ok _get_default_response, ran)
          end
    end.
Proof.
  unfold analysis_review, bind at 1, lift.
  destruct (_get_cache_key name) as [key|]; [|reflexivity].
  unfold bind at 1. rewrite get_from_cache_cached.
  destruct (truthy (cached key w)); [reflexivity|].
  unfold try_except, bind. rewrite perform_analysis_spec.
  destruct (pipeline self name) as [r|]; [|reflexivity].
  destruct (set_to_cache_total key r (review_analysis_cache_expire_time self)
              (after_calls w (pipeline_calls self name))) as (b & w' & -> & _).
  reflexivity.
Qed.

Lemma default_response_is_default : is_default_result _get_default_response = true.
Proof. reflexivity. Qed.

Lemma default_response_well_shaped : well_shaped _get_default_response = true.
Proof. reflexivity. Qed.

(** A read that returns a text: the client is ready, and the cache value
    is the decoded text, or the text itself when it is not JSON. *)
Lemma cached_of_read (key text : pystr) (w : world) :
  (Redis.get key (redis_client w)).1 = Ok (Some text) ->
  redis_ready w = true
  /\ cached key w = match Json.loads text with
                    | Ok v => v
                    | Raise JSONDecodeError => PStr text
                    | Raise _ => PNone
                    end.
Proof.
  destruct w as [[ic [conn|]] evs];
    unfold cached, _get_from_cache, try_except, redis_ready, bind, on_redis, Redis.get,
      ret, raise;
    simpl; destruct ic; simpl; try discriminate.
  destruct (Redis.behaviour conn Redis.Get); simpl; try discriminate.
  destruct (Redis.entries conn !! key) as [en|]; simpl; try discriminate.
  intros [= <-]. split; [reflexivity|].
  destruct (Json.loads (Redis.value en)) as [v|[]]; reflexivity.
Qed.

(** ** Cache key derivation *)

(** C4, as amended.  For every identifier made of Unicode scalar values
    (any text, ASCII or not, without lone surrogates) [_get_cache_key]
    returns, and the key is ['review_analysis:'] followed by the MD5 hex
    digest of the UTF-8 encoded identifier, 32 characters from [0-9a-f].
    The function reads no state: the key depends on the identifier only. *)
Theorem cache_key_of_text (company_name : pystr) :
  forallb is_scalar company_name = true ->
  exists encoded,
    Utf8.encode company_name = Ok encoded
    /\ _get_cache_key company_name
       = Ok (lit "review_analysis:" ++ MD5.hexdigest encoded)
    /\ length (MD5.hexdigest encoded) = 32%nat
    /\ Forall (fun c => is_hex_digit c = true) (MD5.hexdigest encoded).
Proof.
  intros H. destruct (encode_scalars _ H) as [encoded E].
  exists encoded. unfold _get_cache_key. rewrite E. simpl.
  destruct (hexdigest_shape encoded) as [Hlen Hhex]. auto.
Qed.

Lemma cache_key_of_text_witness :
  exists encoded,
    Utf8.encode Sample.samsung = Ok encoded
    /\ _get_cache_key Sample.samsung
       = Ok (lit "review_analysis:" ++ MD5.hexdigest encoded)
    /\ length (MD5.hexdigest encoded) = 32%nat
    /\ Forall (fun c => is_hex_digit c = true) (MD5.hexdigest encoded).
Proof. apply (cache_key_of_text Sample.samsung). reflexivity. Defined.

(** C4, as stated, fails: a [str] may hold a lone surrogate, which
    [encode()] refuses, and the exception leaves [_get_cache_key]. *)
Lemma cache_key_of_lone_surrogate :
  forallb is_codepoint [0xD800] = true
  /\ _get_cache_key [0xD800] = Raise UnicodeEncodeError.
Proof. split; reflexivity. Qed.

(** The key exists exactly for the identifiers UTF-8 can encode. *)
Lemma cache_key_defined (company_name : pystr) :
  is_ok (_get_cache_key company_name) = forallb is_scalar company_name.
Proof.
  unfold _get_cache_key.
  destruct (Utf8.encode company_name) as [encoded|e] eqn:E; simpl.
  - symmetry. eapply encode_ok_scalars, E.
  - destruct (forallb is_scalar company_name) eqn:F; [|reflexivity].
    destruct (encode_scalars _ F) as [bs Hbs]. congruence.
Qed.

(** ** Cache hit *)

(** C1.  If the cache read for the identifier's key returns a text that
    deserializes to a non-empty mapping, whoever wrote it, then
    [analysis_review] returns that mapping and leaves the world as it
    was: no call to [get_reviews_by_company] and no executor stage is
    added to the record of calls. *)
Theorem cache_hit_skips_pipeline (self : collaborators) (name key text : pystr)
    (d : list (pystr * pyval)) (w : world) :
  _get_cache_key name = Ok key ->
  (Redis.get key (redis_client w)).1 = Ok (Some text) ->
  Json.loads text = Ok (PDict d) ->
  d <> [] ->
  analysis_review self name w = (Ok (PDict d), w)
  /\ calls (analysis_review self name w).2 = calls w.
Proof.
  intros Hkey Hread Hloads Hd.
  destruct (cached_of_read _ _ _ Hread) as [_ Hc]. rewrite Hloads in Hc.
  rewrite analysis_review_spec, Hkey, Hc.
  destruct d; [contradiction|]. simpl. auto.
Qed.

(** A first call computes and stores the analysis; the second call is
    answered from the cache. *)
Lemma cache_hit_skips_pipeline_witness :
  let w1 := (analysis_review Sample.plain_service Sample.acme Sample.empty_cache).2 in
  analysis_review Sample.plain_service Sample.acme w1 = (Ok (PDict Sample.scores), w1)
  /\ calls (analysis_review Sample.plain_service Sample.acme w1).2 = calls w1.
Proof.
  intros w1.
  eapply (cache_hit_skips_pipeline Sample.plain_service Sample.acme).
  - vm_compute. reflexivity.
  - vm_compute. reflexivity.
  - vm_compute. reflexivity.
  - discriminate.
Defined.

(** ** Pipeline failure *)

(** C2.  Whenever a call of [analysis_review] makes a pipeline call that
    raises (the fetch or either stage on the executor), it returns the
    default response, a value and not an exception, and leaves the cache
    client as it was.  The default response has [pros] and [cons] with
    score 0.0, no keywords, no samples, and a table flagged empty. *)
Theorem pipeline_failure_yields_default (self : collaborators) (name : pystr)
    (w w' : world) (res : result pyval) (evs : list event) (c : call) (e : exn) :
  analysis_review self name w = (res, w') ->
  calls w' = calls w ++ evs ->
  In (Called c (Raise e)) evs ->
  res = Ok _get_default_response
  /\ redis_client w' = redis_client w
  /\ is_default_result _get_default_response = true.
Proof.
  rewrite analysis_review_spec. intros Hrun Hcalls Hin.
  assert (Hnil : forall l : list event, calls w = calls w ++ l -> l = []).
  { intros l Hl. apply (app_inv_head (calls w)). rewrite app_nil_r. congruence. }
  destruct (_get_cache_key name) as [key|].
  - destruct (truthy (cached key w)).
    + injection Hrun as <- <-. rewrite (Hnil _ Hcalls) in Hin. destruct Hin.
    + cbv zeta in Hrun. destruct (pipeline self name) as [r|] eqn:Hp.
      * exfalso.
        destruct (set_to_cache_total key r (review_analysis_cache_expire_time self)
                    (after_calls w (pipeline_calls self name))) as (b & w2 & E & Hc).
        rewrite E in Hrun. injection Hrun as <- <-. simpl in Hcalls.
        rewrite Hc in Hcalls. simpl in Hcalls. apply app_inv_head in Hcalls.
        subst evs. exact (pipeline_ok_calls _ _ _ _ _ Hp Hin).
      * injection Hrun as <- <-. auto.
  - injection Hrun as <- <-. rewrite (Hnil _ Hcalls) in Hin. destruct Hin.
Qed.

Lemma pipeline_failure_yields_default_witness :
  (analysis_review Sample.plain_service Sample.globex Sample.empty_cache).1
    = Ok _get_default_response
  /\ redis_client (analysis_review Sample.plain_service Sample.globex Sample.empty_cache).2
     = redis_client Sample.empty_cache
  /\ is_default_result _get_default_response = true.
Proof.
  eapply (pipeline_failure_yields_default Sample.plain_service Sample.globex
            Sample.empty_cache _ _
            [Called (GetReviewsByCompany Sample.globex)
               (Raise (ProcessingError "store unreachable"))]).
  - vm_compute. reflexivity.
  - vm_compute. reflexivity.
  - simpl. left. reflexivity.
Defined.

(** ** Shape of the returned value *)

(** C3, as stated, fails: a text in the cache that is not JSON comes
    back from [_get_from_cache] as a plain string, is truthy, and is
    returned to the caller as the result. *)
Lemma cached_plain_string_reaches_caller :
  analysis_review Sample.plain_service Sample.acme Sample.plain_text_cache
    = (Ok (PStr (lit "hello")), Sample.plain_text_cache)
  /\ well_shaped (PStr (lit "hello")) = false.
Proof. split; vm_compute; reflexivity. Qed.

(** A truthy cache value comes from a stored text: it is the decoded
    text, or the text itself when the text is not JSON. *)
Lemma cached_truthy (key : pystr) (w : world) :
  truthy (cached key w) = true ->
  exists text,
    (Redis.get key (redis_client w)).1 = Ok (Some text)
    /\ (Json.loads text = Ok (cached key w)
        \/ (Json.loads text = Raise JSONDecodeError /\ cached key w = PStr text)).
Proof.
  destruct w as [[ic [conn|]] evs];
    unfold cached, _get_from_cache, try_except, redis_ready, bind, on_redis, Redis.get,
      ret, raise;
    simpl; destruct ic; simpl; try discriminate.
  destruct (Redis.behaviour conn Redis.Get); simpl; try discriminate.
  destruct (Redis.entries conn !! key) as [en|]; simpl; try discriminate.
  destruct (Json.loads (Redis.value en)) as [v|[]] eqn:E; simpl; intros H;
    try discriminate H; eauto.
Qed.

(** C3, as amended.  A value returned by [analysis_review] is the truthy
    value found in the cache, returned as found (the decoded text, or
    the stored text itself as a string when it is not JSON), or the
    result of the pipeline, or the default response; the default response
    has the shape of an AnalysisResult. *)
Theorem returned_value_origin (self : collaborators) (name : pystr) (w w' : world)
    (v : pyval) :
  analysis_review self name w = (Ok v, w') ->
  (exists key text,
      _get_cache_key name = Ok key
      /\ (Redis.get key (redis_client w)).1 = Ok (Some text)
      /\ (Json.loads text = Ok v \/ (Json.loads text = Raise JSONDecodeError /\ v = PStr text))
      /\ truthy v = true)
  \/ pipeline self name = Ok v
  \/ (v = _get_default_response /\ well_shaped v = true).
Proof.
  rewrite analysis_review_spec.
  destruct (_get_cache_key name) as [key|]; [|discriminate].
  destruct (truthy (cached key w)) eqn:Ht.
  - intros [= <- _]. left.
    destruct (cached_truthy key w Ht) as (text & Hread & Hloads). eauto 6.
  - cbv zeta. destruct (pipeline self name) as [r|].
    + intros [= <- _]. right. left. reflexivity.
    + intros [= <- _]. right. right. split; reflexivity.
Qed.

Lemma returned_value_origin_witness :
  let v := PStr (lit "hello") in
  (exists key text,
      _get_cache_key Sample.acme = Ok key
      /\ (Redis.get key (redis_client Sample.plain_text_cache)).1 = Ok (Some text)
      /\ (Json.loads text = Ok v \/ (Json.loads text = Raise JSONDecodeError /\ v = PStr text))
      /\ truthy v = true)
  \/ pipeline Sample.plain_service Sample.acme = Ok v
  \/ (v = _get_default_response /\ well_shaped v = true).
Proof.
  intros v.
  apply (returned_value_origin Sample.plain_service Sample.acme
           Sample.plain_text_cache Sample.plain_text_cache).
  vm_compute. reflexivity.
Defined.

(** ** Pipeline success and the cache write *)

(** What makes a write come back [False] with nothing written. *)
Lemma set_to_cache_false (key : pystr) (v : pyval) (seconds : Z) (w : world) :
  redis_ready w = false
  \/ is_ok (redis_value_of v) = false
  \/ backend_mode w Redis.Setex <> Redis.Healthy ->
  _set_to_cache key v seconds w = (Ok false, w).
Proof.
  destruct w as [[ic [conn|]] evs];
    unfold _set_to_cache, try_except, redis_ready, backend_mode, bind, lift, on_redis,
      Redis.setex, ret;
    simpl; destruct ic; simpl; try reflexivity.
  destruct (redis_value_of v) as [rv|]; simpl; [|reflexivity].
  destruct (Redis.behaviour conn Redis.Setex); simpl; try reflexivity.
  intros [H|[H|H]]; [discriminate | discriminate | contradiction].
Qed.

(** C5.  On a cache miss with a pipeline that returns [r],
    [analysis_review] returns [r] whatever the write reports: the write
    ends with some boolean [b], never an exception, and the answer does
    not depend on [b].  A write with the client not ready, with a value
    that cannot be serialized, or with a backend that fails or raises,
    returns [False] and changes nothing. *)
Theorem pipeline_result_survives_write (self : collaborators) (name key : pystr)
    (w : world) (r : pyval) :
  _get_cache_key name = Ok key ->
  truthy (cached key w) = false ->
  pipeline self name = Ok r ->
  (exists b w',
      _set_to_cache key r (review_analysis_cache_expire_time self)
        (after_calls w (pipeline_calls self name)) = (Ok b, w')
      /\ analysis_review self name w = (Ok r, w'))
  /\ (forall k v seconds w0, exists b w1, _set_to_cache k v seconds w0 = (Ok b, w1))
  /\ (forall k v seconds w0,
        redis_ready w0 = false
        \/ is_ok (redis_value_of v) = false
        \/ backend_mode w0 Redis.Setex <> Redis.Healthy ->
        _set_to_cache k v seconds w0 = (Ok false, w0)).
Proof.
  intros Hkey Hmiss Hp. split; [|split].
  - destruct (set_to_cache_total key r (review_analysis_cache_expire_time self)
                (after_calls w (pipeline_calls self name))) as (b & w' & E & _).
    exists b, w'. split; [exact E|].
    rewrite analysis_review_spec, Hkey, Hmiss. cbv zeta. rewrite Hp, E. reflexivity.
  - intros k v seconds w0.
    destruct (set_to_cache_total k v seconds w0) as (b & w1 & E & _). eauto.
  - intros k v seconds w0. apply set_to_cache_false.
Qed.

Lemma pipeline_result_survives_write_witness :
  let self := Sample.plain_service in
  let w := Sample.connected ∅ Sample.write_raises in
  (exists b w',
      _set_to_cache (Sample.key_of Sample.acme) (PDict Sample.scores)
        (review_analysis_cache_expire_time self)
        (after_calls w (pipeline_calls self Sample.acme)) = (Ok b, w')
      /\ analysis_review self Sample.acme w = (Ok (PDict Sample.scores), w'))
  /\ (forall k v seconds w0, exists b w1, _set_to_cache k v seconds w0 = (Ok b, w1))
  /\ (forall k v seconds w0,
        redis_ready w0 = false
        \/ is_ok (redis_value_of v) = false
        \/ backend_mode w0 Redis.Setex <> Redis.Healthy ->
        _set_to_cache k v seconds w0 = (Ok false, w0)).
Proof.
  intros self w.
  apply (pipeline_result_survives_write self Sample.acme (Sample.key_of Sample.acme) w
           (PDict Sample.scores)).
  - vm_compute. reflexivity.
  - vm_compute. reflexivity.
  - vm_compute. reflexivity.
Defined.

(** ** Backend unavailable *)

Lemma get_from_cache_not_ready (key : pystr) (w : world) :
  redis_ready w = false -> _get_from_cache key w = (Ok PNone, w).
Proof.
  intros H. unfold _get_from_cache, try_except. rewrite H. reflexivity.
Qed.

Lemma clear_not_ready (company_name : option pystr) (w : world) :
  redis_ready w = false -> clear_analysis_cache company_name w = (Ok 0%Z, w).
Proof.
  intros H. unfold clear_analysis_cache, try_except.
  destruct company_name as [name|]; [destruct (truthy (PStr name))|];
    unfold bind, lift; try (rewrite H; reflexivity).
  destruct (_get_cache_key name); [rewrite H|]; reflexivity.
Qed.

(** C6.  With the client not ready (not connected, or without handle)
    the cache read returns [None], the write returns [False], the clear
    returns 0, each leaving the world as it was and none raising; and
    [analysis_review], for an identifier that has a cache key, runs the
    pipeline on every call and returns its result (the default response
    if the pipeline raises), the cache client untouched. *)
Theorem unavailable_cache_is_bypassed (self : collaborators) (w : world) :
  redis_ready w = false ->
  (forall key, _get_from_cache key w = (Ok PNone, w))
  /\ (forall key v seconds, _set_to_cache key v seconds w = (Ok false, w))
  /\ (forall company_name, clear_analysis_cache company_name w = (Ok 0%Z, w))
  /\ (forall name key,
        _get_cache_key name = Ok key ->
        analysis_review self name w
        = (Ok (pipeline_or_default self name), after_calls w (pipeline_calls self name))
        /\ redis_client (analysis_review self name w).2 = redis_client w
        /\ (forall r, pipeline self name = Ok r -> pipeline_or_default self name = r)).
Proof.
  intros H. split; [|split; [|split]].
  - intros key. apply get_from_cache_not_ready, H.
  - intros key v seconds. apply set_to_cache_false. auto.
  - intros company_name. apply clear_not_ready, H.
  - intros name key Hkey.
    assert (E : analysis_review self name w
                = (Ok (pipeline_or_default self name),
                   after_calls w (pipeline_calls self name))).
    { rewrite analysis_review_spec, Hkey. unfold cached.
      rewrite get_from_cache_not_ready by exact H. simpl.
      unfold pipeline_or_default. destruct (pipeline self name); [|reflexivity].
      rewrite set_to_cache_false; [reflexivity|]. left. exact H. }
    split; [exact E|]. split; [rewrite E; reflexivity|].
    intros r Hr. unfold pipeline_or_default. rewrite Hr. reflexivity.
Qed.

Lemma unavailable_cache_is_bypassed_witness :
  let self := Sample.plain_service in
  let w := Sample.disconnected {[ Sample.key_of Sample.acme := Sample.text_entry (jlit "{'pros': 1}") ]} in
  (forall key, _get_from_cache key w = (Ok PNone, w))
  /\ (forall key v seconds, _set_to_cache key v seconds w = (Ok false, w))
  /\ (forall company_name, clear_analysis_cache company_name w = (Ok 0%Z, w))
  /\ (forall name key,
        _get_cache_key name = Ok key ->
        analysis_review self name w
        = (Ok (pipeline_or_default self name), after_calls w (pipeline_calls self name))
        /\ redis_client (analysis_review self name w).2 = redis_client w
        /\ (forall r, pipeline self name = Ok r -> pipeline_or_default self name = r)).
Proof.
  intros self w. apply (unavailable_cache_is_bypassed self w). reflexivity.
Defined.

(** ** Invalidation *)

Lemma starts_with_spec (p s : pystr) :
  starts_with p s = true <-> exists rest, s = p ++ rest.
Proof.
  revert s. induction p as [|a p IH]; intros s; simpl.
  - split; [eauto | reflexivity].
  - destruct s as [|b s].
    + split; [discriminate | intros [rest H]; discriminate].
    + rewrite andb_true_iff, N.eqb_eq, IH. split.
      * intros [-> [rest ->]]. eauto.
      * intros [rest [= -> ->]]. eauto.
Qed.

Lemma glob_star (s : pystr) : Redis.glob_match [42] s = true.
Proof. induction s as [|c s IH]; [reflexivity | exact IH]. Qed.

(** A literal followed by a star matches the strings that start with it. *)
Lemma glob_literal_star (p : pystr) :
  forallb (fun c => negb (c =? 42) && negb (c =? 63)) p = true ->
  forall s, Redis.glob_match (p ++ [42]) s = starts_with p s.
Proof.
  induction p as [|c p IH]; intros Hp s.
  - apply glob_star.
  - simpl in Hp. apply andb_true_iff in Hp as [Hc Hp].
    apply andb_true_iff in Hc as [H42 H63].
    apply negb_true_iff in H42, H63.
    change ((c :: p) ++ [42]) with (c :: (p ++ [42])).
    cbn [Redis.glob_match starts_with]. rewrite H42, H63.
    destruct s as [|d s]; [reflexivity|].
    rewrite (IH Hp). reflexivity.
Qed.

Lemma glob_namespace (k : pystr) :
  Redis.glob_match (lit "review_analysis:*") k = in_namespace k.
Proof.
  change (lit "review_analysis:*") with (lit "review_analysis:" ++ [42]).
  apply glob_literal_star. reflexivity.
Qed.

Lemma matching_namespace (w : world) :
  Redis.matching (lit "review_analysis:*") (store w) = namespace_keys w.
Proof.
  unfold Redis.matching, namespace_keys.
  apply List.filter_ext. intros k. apply glob_namespace.
Qed.

(** The namespace keys of a world: each once, and exactly the keys the
    cache holds that start with ['review_analysis:']. *)
Lemma namespace_keys_spec (w : world) :
  NoDup (namespace_keys w)
  /\ forall k, k ∈ namespace_keys w
               <-> is_Some (store w !! k) /\ in_namespace k = true.
Proof.
  unfold namespace_keys. split.
  - apply NoDup_ListNoDup, List.NoDup_filter, NoDup_ListNoDup, NoDup_fst_map_to_list.
  - intros k. rewrite list_elem_of_In, List.filter_In, <- list_elem_of_In,
      list_elem_of_fmap.
    split.
    + intros [[[k' en] [-> Hin]] Hns]. split; [|exact Hns].
      apply elem_of_map_to_list in Hin. simpl. eauto.
    + intros [[en Hen] Hns]. split; [|exact Hns].
      exists (k, en). split; [reflexivity|]. apply elem_of_map_to_list, Hen.
Qed.

Lemma remove_keys_lookup (ks : list pystr) (m : gmap (list N) Redis.entry)
    (k : pystr) :
  (Redis.remove_keys ks m).2 !! k = if decide (k ∈ ks) then None else m !! k.
Proof.
  revert m. induction ks as [|k0 ks IH]; intros m; cbn [Redis.remove_keys].
  - case_decide; [set_solver | reflexivity].
  - destruct (m !! k0) as [en|] eqn:E.
    + destruct (Redis.remove_keys ks (base.delete k0 m)) as [n m'] eqn:R.
      cbn [snd]. specialize (IH (base.delete k0 m)). rewrite R in IH. cbn [snd] in IH.
      rewrite IH. destruct (decide (k = k0)) as [->|Hne].
      * rewrite lookup_delete_eq.
        destruct (decide (k0 ∈ ks)), (decide (k0 ∈ k0 :: ks)); try reflexivity; set_solver.
      * rewrite lookup_delete_ne by congruence.
        destruct (decide (k ∈ ks)), (decide (k ∈ k0 :: ks)); try reflexivity; set_solver.
    + rewrite IH. destruct (decide (k = k0)) as [->|Hne].
      * rewrite E. destruct (decide (k0 ∈ ks)), (decide (k0 ∈ k0 :: ks)); reflexivity.
      * destruct (decide (k ∈ ks)), (decide (k ∈ k0 :: ks)); try reflexivity; set_solver.
Qed.

Lemma remove_keys_count (ks : list pystr) (m : gmap (list N) Redis.entry) :
  NoDup ks -> (forall k, k ∈ ks -> is_Some (m !! k)) ->
  (Redis.remove_keys ks m).1 = Z.of_nat (length ks).
Proof.
  revert m. induction ks as [|k0 ks IH]; intros m Hnd Hall; [reflexivity|].
  apply NoDup_cons in Hnd as [Hnotin Hnd].
  cbn [Redis.remove_keys]. destruct (Hall k0) as [en ->]; [set_solver|].
  specialize (IH (base.delete k0 m) Hnd).
  destruct (Redis.remove_keys ks (base.delete k0 m)) as [n m'] eqn:R.
  simpl in *. rewrite IH; [lia|].
  intros k Hk. rewrite lookup_delete_ne; [apply Hall; set_solver|].
  intros ->. exact (Hnotin Hk).
Qed.

Lemma remove_keys_one (k : pystr) (m : gmap (list N) Redis.entry) :
  (Redis.remove_keys [k] m).1 = match m !! k with Some _ => 1%Z | None => 0%Z end.
Proof. simpl. destruct (m !! k); reflexivity. Qed.

(** A healthy delete removes the listed keys and counts them. *)
Lemma delete_healthy (ks : list pystr) (w : world) :
  redis_ready w = true ->
  backend_mode w Redis.Delete = Redis.Healthy ->
  exists w',
    on_redis (Redis.delete ks) w = (Ok (Redis.remove_keys ks (store w)).1, w')
    /\ store w' = (Redis.remove_keys ks (store w)).2
    /\ calls w' = calls w.
Proof.
  destruct w as [[ic [conn|]] evs];
    unfold redis_ready, backend_mode, on_redis, Redis.delete, store; simpl;
    destruct ic; simpl; try discriminate.
  intros _ ->. destruct (Redis.remove_keys ks (Redis.entries conn)) as [n m].
  simpl. eauto.
Qed.

(** A delete that is not healthy removes nothing: it reports 0 or raises. *)
Lemma delete_unhealthy (ks : list pystr) (w : world) :
  redis_ready w = false \/ backend_mode w Redis.Delete <> Redis.Healthy ->
  exists r, on_redis (Redis.delete ks) w = (r, w)
            /\ (r = Ok 0%Z \/ exists e, r = Raise e).
Proof.
  destruct w as [[ic [conn|]] evs];
    unfold redis_ready, backend_mode, on_redis, Redis.delete; simpl;
    destruct ic; simpl; eauto.
  destruct (Redis.behaviour conn Redis.Delete); simpl; eauto.
  intros [H|H]; [discriminate | contradiction].
Qed.

(** [keys] reads only. *)
Lemma keys_read_only (pattern : pystr) (w : world) :
  exists r, on_redis (Redis.keys pattern) w = (r, w)
            /\ (redis_ready w = true -> backend_mode w Redis.Keys = Redis.Healthy ->
                r = Ok (Redis.matching pattern (store w)))
            /\ (redis_ready w = false \/ backend_mode w Redis.Keys <> Redis.Healthy ->
                r = Ok [] \/ exists e, r = Raise e).
Proof.
  destruct w as [[ic [conn|]] evs];
    unfold redis_ready, backend_mode, on_redis, Redis.keys, store; simpl;
    destruct ic; simpl;
    try (eexists; split; [reflexivity|]; split; [discriminate | eauto]).
  destruct (Redis.behaviour conn Redis.Keys); simpl;
    eexists; (split; [reflexivity|]); split; try discriminate; eauto.
  intros [H|H]; [discriminate | contradiction].
Qed.

(** Clearing one identifier's entry. *)
Lemma clear_one (name : pystr) (w : world) :
  truthy (PStr name) = true ->
  exists n w',
    clear_analysis_cache (Some name) w = (Ok n, w')
    /\ calls w' = calls w
    /\ (n = 0 \/ n = 1)%Z
    /\ (forall k, _get_cache_key name <> Ok k -> store w' !! k = store w !! k)
    /\ (forall key, _get_cache_key name = Ok key ->
          redis_ready w = true -> backend_mode w Redis.Delete = Redis.Healthy ->
          store w' !! key = None
          /\ n = match store w !! key with Some _ => 1%Z | None => 0%Z end)
    /\ (redis_ready w = false \/ backend_mode w Redis.Delete <> Redis.Healthy ->
        n = 0%Z /\ w' = w).
Proof.
  intros Ht. unfold clear_analysis_cache, try_except. rewrite Ht.
  unfold bind at 1, lift.
  destruct (_get_cache_key name) as [key|e].
  2:{ exists 0%Z, w. split; [reflexivity|]. split; [reflexivity|].
      split; [auto|]. split; [reflexivity|]. split; [discriminate|auto]. }
  destruct (redis_ready w) eqn:Hr.
  2:{ exists 0%Z, w. split; [reflexivity|]. split; [reflexivity|].
      split; [auto|]. split; [reflexivity|]. split; [discriminate|auto]. }
  destruct (Redis.mode_eq_dec (backend_mode w Redis.Delete) Redis.Healthy) as [Hm|Hm].
  - destruct (delete_healthy [key] w Hr Hm) as (w' & -> & Hs & Hc).
    exists (Redis.remove_keys [key] (store w)).1, w'.
    rewrite remove_keys_one. split; [reflexivity|]. split; [exact Hc|].
    split; [destruct (store w !! key); auto|]. split; [|split].
    + intros k Hk. rewrite Hs, remove_keys_lookup.
      case_decide as Hin; [|reflexivity].
      apply list_elem_of_singleton in Hin. subst k. congruence.
    + intros key' [= <-] _ _. split; [|reflexivity].
      rewrite Hs, remove_keys_lookup. case_decide as Hin; [reflexivity|].
      exfalso. apply Hin, list_elem_of_singleton. reflexivity.
    + intros [H|H]; [discriminate | contradiction].
  - destruct (delete_unhealthy [key] w (or_intror Hm)) as (r & -> & Hres).
    exists 0%Z, w.
    split; [destruct Hres as [->|[e ->]]; reflexivity|].
    split; [reflexivity|]. split; [auto|]. split; [reflexivity|].
    split; [intros key' _ _ Hh; contradiction | auto].
Qed.

(** Clearing the whole namespace. *)
Lemma clear_all (company_name : option pystr) (w : world) :
  company_name = None \/ company_name = Some [] ->
  exists n w',
    clear_analysis_cache company_name w = (Ok n, w')
    /\ calls w' = calls w
    /\ (redis_ready w = true -> backend_mode w Redis.Keys = Redis.Healthy ->
        backend_mode w Redis.Delete = Redis.Healthy ->
        n = Z.of_nat (length (namespace_keys w))
        /\ forall k, store w' !! k = if in_namespace k then None else store w !! k)
    /\ (redis_ready w = false \/ backend_mode w Redis.Keys <> Redis.Healthy
        \/ backend_mode w Redis.Delete <> Redis.Healthy ->
        n = 0%Z /\ w' = w).
Proof.
  intros Hcn.
  assert (E : clear_analysis_cache company_name w = clear_analysis_cache None w).
  { destruct Hcn as [->| ->]; reflexivity. }
  rewrite E. clear E Hcn company_name.
  unfold clear_analysis_cache, try_except.
  destruct (redis_ready w) eqn:Hr.
  2:{ exists 0%Z, w. split; [reflexivity|]. split; [reflexivity|].
      split; [discriminate | auto]. }
  unfold bind.
  destruct (keys_read_only (lit "review_analysis:*") w) as (r & -> & Hok & Hbad).
  destruct (Redis.mode_eq_dec (backend_mode w Redis.Keys) Redis.Healthy) as [Hk|Hk].
  2:{ exists 0%Z, w.
      assert (Hr' : r = Ok [] \/ exists e, r = Raise e) by auto.
      split; [destruct Hr' as [->|[e ->]]; reflexivity|].
      split; [reflexivity|]. split; [intros _ Hh; contradiction | auto]. }
  rewrite (Hok Hr Hk), matching_namespace.
  destruct (namespace_keys_spec w) as [Hnd Hmem].
  destruct (namespace_keys w) as [|k0 ks] eqn:Hks.
  { exists 0%Z, w. split; [reflexivity|]. split; [reflexivity|].
    split; [|auto]. intros _ _ _. split; [reflexivity|].
    intros k. destruct (in_namespace k) eqn:Hns; [|reflexivity].
    destruct (store w !! k) eqn:Hl; [|reflexivity].
    exfalso. eapply not_elem_of_nil, Hmem. eauto. }
  cbn [fmap list_fmap truthy].
  destruct (Redis.mode_eq_dec (backend_mode w Redis.Delete) Redis.Healthy) as [Hd|Hd].
  - destruct (delete_healthy (k0 :: ks) w Hr Hd) as (w' & -> & Hs & Hc).
    exists (Redis.remove_keys (k0 :: ks) (store w)).1, w'.
    split; [reflexivity|]. split; [exact Hc|]. split.
    + intros _ _ _. split.
      * apply remove_keys_count; [exact Hnd|]. intros k Hk'. apply Hmem, Hk'.
      * intros k. rewrite Hs, remove_keys_lookup.
        destruct (in_namespace k) eqn:Hns; case_decide as Hin; try reflexivity.
        -- destruct (store w !! k) eqn:Hl; [|reflexivity].
           exfalso. apply Hin, Hmem. eauto.
        -- apply Hmem in Hin as [_ Hin]. congruence.
    + intros [H|[H|H]]; [discriminate | contradiction | contradiction].
  - destruct (delete_unhealthy (k0 :: ks) w (or_intror Hd)) as (r' & -> & Hres).
    exists 0%Z, w.
    split; [destruct Hres as [->|[e ->]]; reflexivity|].
    split; [reflexivity|]. split; [intros _ _ Hh; contradiction | auto].
Qed.

(** C7, as amended.  [clear_analysis_cache] always returns a count and
    never raises.  With a non-empty identifier it touches no key but the
    identifier's own and returns 0 or 1: on a healthy ready backend the
    key is gone afterwards and the count says whether it was there; with
    the client not ready or the delete failing or raising, the count is 0
    and nothing changes.  With no identifier, and also with the empty
    string, it clears the namespace: on a healthy ready backend every key
    starting with ['review_analysis:'] is gone, the other keys stay, and
    the count is the number of keys that were in the namespace; otherwise
    the count is 0 and nothing changes. *)
Theorem clear_analysis_cache_behaviour (company_name : option pystr) (w : world) :
  exists n w',
    clear_analysis_cache company_name w = (Ok n, w')
    /\ calls w' = calls w
    /\ match company_name with
       | Some (c :: s) =>
           (n = 0 \/ n = 1)%Z
           /\ (forall k, _get_cache_key (c :: s) <> Ok k -> store w' !! k = store w !! k)
           /\ (forall key, _get_cache_key (c :: s) = Ok key ->
                 redis_ready w = true -> backend_mode w Redis.Delete = Redis.Healthy ->
                 store w' !! key = None
                 /\ n = match store w !! key with Some _ => 1%Z | None => 0%Z end)
           /\ (redis_ready w = false \/ backend_mode w Redis.Delete <> Redis.Healthy ->
               n = 0%Z /\ w' = w)
       | _ =>
           (redis_ready w = true -> backend_mode w Redis.Keys = Redis.Healthy ->
            backend_mode w Redis.Delete = Redis.Healthy ->
            n = Z.of_nat (length (namespace_keys w))
            /\ forall k, store w' !! k = if in_namespace k then None else store w !! k)
           /\ (redis_ready w = false \/ backend_mode w Redis.Keys <> Redis.Healthy
               \/ backend_mode w Redis.Delete <> Redis.Healthy ->
               n = 0%Z /\ w' = w)
       end.
Proof.
  destruct company_name as [[|c s]|].
  - destruct (clear_all (Some []) w) as (n & w' & H); [auto|]. exists n, w'. exact H.
  - destruct (clear_one (c :: s) w) as (n & w' & H); [reflexivity|].
    exists n, w'. tauto.
  - destruct (clear_all None w) as (n & w' & H); [auto|]. exists n, w'. exact H.
Qed.

Lemma clear_analysis_cache_behaviour_witness :
  exists n w',
    clear_analysis_cache (Some Sample.acme) Sample.two_entries = (Ok n, w')
    /\ calls w' = calls Sample.two_entries
    /\ (n = 0 \/ n = 1)%Z
    /\ (forall k, _get_cache_key Sample.acme <> Ok k ->
          store w' !! k = store Sample.two_entries !! k)
    /\ (forall key, _get_cache_key Sample.acme = Ok key ->
          redis_ready Sample.two_entries = true ->
          backend_mode Sample.two_entries Redis.Delete = Redis.Healthy ->
          store w' !! key = None
          /\ n = match store Sample.two_entries !! key with
                 | Some _ => 1%Z
                 | None => 0%Z
                 end)
    /\ (redis_ready Sample.two_entries = false
        \/ backend_mode Sample.two_entries Redis.Delete <> Redis.Healthy ->
        n = 0%Z /\ w' = Sample.two_entries).
Proof. exact (clear_analysis_cache_behaviour (Some Sample.acme) Sample.two_entries). Defined.

(** C7, as stated, fails: the empty string is an identifier (it has a
    cache key of its own), yet clearing it removes the entries of every
    other identifier and returns their number. *)
Lemma clear_empty_identifier_clears_all :
  (clear_analysis_cache (Some []) Sample.two_entries).1 = Ok 2%Z
  /\ store (clear_analysis_cache (Some []) Sample.two_entries).2 = ∅
  /\ is_Some (store Sample.two_entries !! Sample.key_of Sample.acme)
  /\ is_Some (store Sample.two_entries !! Sample.key_of Sample.samsung)
  /\ _get_cache_key [] = Ok (lit "review_analysis:d41d8cd98f00b204e9800998ecf8427e")
  /\ store Sample.two_entries !! lit "review_analysis:d41d8cd98f00b204e9800998ecf8427e"
     = None.
Proof.
  split; [vm_compute; reflexivity|]. split; [vm_compute; reflexivity|].
  split; [vm_compute; eauto|]. split; [vm_compute; eauto|].
  split; vm_compute; reflexivity.
Qed.

(** ** Falsy cached values *)

(** C8.  When the value [_get_from_cache] returns for the identifier's
    key is falsy (absence, an empty mapping, an empty string, zero),
    [analysis_review] runs the pipeline: it calls the review store, then
    hands the preprocessing and the analysis to the executor, each as
    long as the step before returned, and answers with the pipeline's
    result or, if a step raised, with the default response. *)
Theorem falsy_cached_value_is_a_miss (self : collaborators) (name key : pystr)
    (w : world) (v : pyval) :
  _get_cache_key name = Ok key ->
  (_get_from_cache key w).1 = Ok v ->
  truthy v = false ->
  exists w',
    analysis_review self name w = (Ok (pipeline_or_default self name), w')
    /\ calls w' = calls w ++ pipeline_calls self name
    /\ (exists rest,
          pipeline_calls self name
          = Called (GetReviewsByCompany name) (get_reviews_by_company self name) :: rest
          /\ forall reviews, get_reviews_by_company self name = Ok reviews ->
             exists rest',
               rest = Called (RunInExecutor PreprocessReviews reviews)
                        (preprocess_reviews self reviews) :: rest'
               /\ forall df, preprocess_reviews self reviews = Ok df ->
                  rest' = [Called (RunInExecutor AnalyzeReviewsWithKeywords df)
                             (analyze_reviews_with_keywords self df)]).
Proof.
  intros Hkey Hread Hfalsy.
  assert (Hc : cached key w = v) by (unfold cached; rewrite Hread; reflexivity).
  rewrite analysis_review_spec, Hkey, Hc, Hfalsy. cbv zeta.
  unfold pipeline_or_default.
  assert (Hcalls : exists w',
             match pipeline self name with
             | Ok r => (Ok r, (_set_to_cache key r (review_analysis_cache_expire_time self)
                                 (after_calls w (pipeline_calls self name))).2)
             | Raise _ => (Ok _get_default_response,
                           after_calls w (pipeline_calls self name))
             end
             = (Ok match pipeline self name with
                   | Ok r => r
                   | Raise _ => _get_default_response
                   end, w')
             /\ calls w' = calls w ++ pipeline_calls self name).
  { destruct (pipeline self name) as [r|]; [|eauto].
    destruct (set_to_cache_total key r (review_analysis_cache_expire_time self)
                (after_calls w (pipeline_calls self name))) as (b & w' & E & Hcw).
    exists w'. rewrite E. split; [reflexivity | exact Hcw]. }
  destruct Hcalls as (w' & -> & Hcw). exists w'.
  split; [reflexivity|]. split; [exact Hcw|].
  unfold pipeline_calls. eexists. split; [reflexivity|].
  intros reviews ->. eexists. split; [reflexivity|].
  intros df ->. reflexivity.
Qed.

Lemma falsy_cached_value_is_a_miss_witness :
  let self := Sample.plain_service in
  exists w',
    analysis_review self Sample.acme Sample.empty_mapping_cache
    = (Ok (pipeline_or_default self Sample.acme), w')
    /\ calls w' = calls Sample.empty_mapping_cache ++ pipeline_calls self Sample.acme
    /\ (exists rest,
          pipeline_calls self Sample.acme
          = Called (GetReviewsByCompany Sample.acme)
              (get_reviews_by_company self Sample.acme) :: rest
          /\ forall reviews, get_reviews_by_company self Sample.acme = Ok reviews ->
             exists rest',
               rest = Called (RunInExecutor PreprocessReviews reviews)
                        (preprocess_reviews self reviews) :: rest'
               /\ forall df, preprocess_reviews self reviews = Ok df ->
                  rest' = [Called (RunInExecutor AnalyzeReviewsWithKeywords df)
                             (analyze_reviews_with_keywords self df)]).
Proof.
  intros self.
  apply (falsy_cached_value_is_a_miss self Sample.acme (Sample.key_of Sample.acme)
           Sample.empty_mapping_cache (PDict [])).
  - vm_compute. reflexivity.
  - vm_compute. reflexivity.
  - reflexivity.
Defined.

(** ** Wire format *)

(** A scalar is stored as its own text, whatever the backend. *)
Lemma stored_as_scalar (w : world) (v : pyval) (t text : pystr) :
  stored_as w v = Some text -> scalar_text v = Some t -> text = t.
Proof.
  unfold stored_as, Redis.stored_text.
  destruct (Redis._redis (redis_client w)); [|discriminate].
  intros H Ht. rewrite Ht in H. congruence.
Qed.

Lemma stored_as_ready (w : world) (v : pyval) (t : pystr) :
  redis_ready w = true -> scalar_text v = Some t -> stored_as w v = Some t.
Proof.
  unfold redis_ready, stored_as, Redis.stored_text.
  destruct (Redis._redis (redis_client w)); [|rewrite andb_false_r; discriminate].
  intros _ ->. reflexivity.
Qed.

(** A healthy write of a value the backend has a text for stores that
    text under the key. *)
Lemma set_to_cache_writes (key : pystr) (v rv : pyval) (seconds : Z) (w : world)
    (text : pystr) :
  redis_ready w = true ->
  backend_mode w Redis.Setex = Redis.Healthy ->
  redis_value_of v = Ok rv ->
  stored_as w rv = Some text ->
  exists w',
    _set_to_cache key v seconds w = (Ok true, w')
    /\ store w' = <[key := {| Redis.value := text; Redis.ttl := seconds |}]> (store w)
    /\ calls w' = calls w.
Proof.
  destruct w as [[ic [conn|]] evs];
    unfold _set_to_cache, try_except, redis_ready, backend_mode, stored_as, bind, lift,
      on_redis, Redis.setex, ret, store;
    simpl; destruct ic; simpl; try discriminate.
  intros _ -> -> ->. simpl. eauto.
Qed.

(** A healthy write of a text stores that text under the key. *)
Lemma set_to_cache_stores (key : pystr) (v : pyval) (seconds : Z) (w : world)
    (text : pystr) :
  redis_ready w = true ->
  backend_mode w Redis.Setex = Redis.Healthy ->
  redis_value_of v = Ok (PStr text) ->
  exists w',
    _set_to_cache key v seconds w = (Ok true, w')
    /\ store w' = <[key := {| Redis.value := text; Redis.ttl := seconds |}]> (store w)
    /\ calls w' = calls w.
Proof.
  intros Hr Hm Hv.
  apply (set_to_cache_writes key v (PStr text) seconds w text Hr Hm Hv).
  apply stored_as_ready; [exact Hr | reflexivity].
Qed.

Lemma escape_char_plain (c : N) : 127 < c -> Json.escape_char false c = [c].
Proof.
  intros H. unfold Json.escape_char.
  repeat match goal with
         | |- context [?a =? ?b] => destruct (N.eqb_spec a b); [lia|]
         end.
  destruct (N.ltb_spec c 32); [lia | reflexivity].
Qed.

Lemma encode_string_plain (s : pystr) :
  Forall (fun c => 127 < c) s -> Json.encode_string false s = [34] ++ s ++ [34].
Proof.
  intros H. unfold Json.encode_string. do 2 f_equal.
  induction H as [|c s Hc _ IH]; [reflexivity|].
  cbn [List.map concat]. rewrite (escape_char_plain c Hc), IH. reflexivity.
Qed.

(** C9, as amended.  On a ready client with healthy writes: a dict or
    list is stored as the JSON text of the encoder with its default
    separators, a comma and a space between items and a colon and a
    space after a key; any other value is handed to the client as it is,
    and a scalar is stored verbatim: a string as the string itself, any
    other scalar as the text [str] gives it.  In the JSON text a
    character outside ASCII stands for itself, never as an escape. *)
Theorem cache_wire_format (key : pystr) (v : pyval) (seconds : Z) (w : world) :
  redis_ready w = true ->
  backend_mode w Redis.Setex = Redis.Healthy ->
  (is_dict_or_list v = true ->
   forall text, Json.encode false (lit ", ") (lit ": ") v = Ok text ->
   exists w', _set_to_cache key v seconds w = (Ok true, w')
              /\ store w' !! key = Some {| Redis.value := text; Redis.ttl := seconds |})
  /\ (is_dict_or_list v = false ->
      redis_value_of v = Ok v
      /\ forall s, v = PStr s ->
         exists w', _set_to_cache key v seconds w = (Ok true, w')
                    /\ store w' !! key = Some {| Redis.value := s; Redis.ttl := seconds |})
  /\ (is_scalar_value v = true ->
      forall text, scalar_text v = Some text ->
      exists w', _set_to_cache key v seconds w = (Ok true, w')
                 /\ store w' !! key = Some {| Redis.value := text; Redis.ttl := seconds |})
  /\ (forall c, 127 < c -> Json.escape_char false c = [c])
  /\ (forall s, Forall (fun c => 127 < c) s ->
      Json.encode_string false s = [34] ++ s ++ [34]).
Proof.
  intros Hr Hm. split; [|split; [|split; [|split]]].
  - intros Hdl text Htext.
    destruct (set_to_cache_stores key v seconds w text Hr Hm) as (w' & E & Hs & _).
    { unfold redis_value_of, Json.dumps. rewrite Hdl, Htext. reflexivity. }
    exists w'. split; [exact E|]. rewrite Hs. apply lookup_insert_eq.
  - intros Hdl. unfold redis_value_of. rewrite Hdl. split; [reflexivity|].
    intros s ->.
    destruct (set_to_cache_stores key (PStr s) seconds w s Hr Hm) as (w' & E & Hs & _);
      [reflexivity|].
    exists w'. split; [exact E|]. rewrite Hs. apply lookup_insert_eq.
  - intros Hsc text Ht.
    destruct (set_to_cache_writes key v v seconds w text Hr Hm) as (w' & E & Hs & _).
    + unfold redis_value_of. destruct v; try discriminate Hsc; reflexivity.
    + apply stored_as_ready; assumption.
    + exists w'. split; [exact E|]. rewrite Hs. apply lookup_insert_eq.
  - apply escape_char_plain.
  - apply encode_string_plain.
Qed.

Lemma cache_wire_format_witness :
  let v := PDict [(lit "name", PStr Sample.samsung)] in
  let w := Sample.empty_cache in
  (is_dict_or_list v = true ->
   forall text, Json.encode false (lit ", ") (lit ": ") v = Ok text ->
   exists w', _set_to_cache (lit "k") v 60 w = (Ok true, w')
              /\ store w' !! lit "k" = Some {| Redis.value := text; Redis.ttl := 60 |})
  /\ (is_dict_or_list v = false ->
      redis_value_of v = Ok v
      /\ forall s, v = PStr s ->
         exists w', _set_to_cache (lit "k") v 60 w = (Ok true, w')
                    /\ store w' !! lit "k" = Some {| Redis.value := s; Redis.ttl := 60 |})
  /\ (is_scalar_value v = true ->
      forall text, scalar_text v = Some text ->
      exists w', _set_to_cache (lit "k") v 60 w = (Ok true, w')
                 /\ store w' !! lit "k" = Some {| Redis.value := text; Redis.ttl := 60 |})
  /\ (forall c, 127 < c -> Json.escape_char false c = [c])
  /\ (forall s, Forall (fun c => 127 < c) s ->
      Json.encode_string false s = [34] ++ s ++ [34]).
Proof.
  intros v w. apply (cache_wire_format (lit "k") v 60 w); reflexivity.
Defined.

(** Scalars on the wire: the int 2024 is stored as its digits, a float,
    [None] and a bool as [str] writes them. *)
Example scalars_stored_verbatim :
  List.map
    (fun v => store (_set_to_cache (lit "k") v 60 Sample.empty_cache).2 !! lit "k")
    [PInt 2024; PFloat (PyFloat.of_decimal false 45 (-1)); PNone; PBool true;
     PStr (lit "hello")]
  = List.map (fun text => Some {| Redis.value := lit text; Redis.ttl := 60 |})
      ["2024"; "4.5"; "None"; "True"; "hello"]%string.
Proof. vm_compute. reflexivity. Qed.

(** C9, as stated, fails: the stored text of a mapping has a space after
    the colon (and after each comma), so it is not the compact text. *)
Lemma stored_json_is_not_compact :
  let v := PDict [(lit "a", PInt 1); (lit "b", PInt 2)] in
  let w' := (_set_to_cache (lit "k") v 60 Sample.empty_cache).2 in
  store w' !! lit "k"
    = Some {| Redis.value := jlit "{'a': 1, 'b': 2}"; Redis.ttl := 60 |}
  /\ compact_json v = Ok (jlit "{'a':1,'b':2}")
  /\ jlit "{'a': 1, 'b': 2}" <> jlit "{'a':1,'b':2}".
Proof.
  split; [vm_compute; reflexivity|]. split; [vm_compute; reflexivity|].
  vm_compute. discriminate.
Qed.

(** ** Results that cannot be serialized *)

(** The encoder fails on a container as soon as one member fails. *)
Lemma encode_list_member (ea : bool) (isep ksep : pystr) (l : list pyval) (x : pyval) :
  In x l -> is_ok (Json.encode ea isep ksep x) = false ->
  is_ok (Json.encode ea isep ksep (PList l)) = false.
Proof.
  intros Hin Hx. cbn [Json.encode].
  match goal with
  | |- is_ok (rbind (?items true l) _) = false =>
      assert (H : forall first, is_ok (items first l) = false)
  end.
  { induction l as [|y l IH]; [destruct Hin|]. intros first.
    destruct Hin as [->|Hin].
    - destruct (Json.encode ea isep ksep x); [discriminate | reflexivity].
    - destruct (Json.encode ea isep ksep y); [|reflexivity]. cbn [rbind].
      specialize (IH Hin false). cbv beta in IH.
      match goal with
      | |- is_ok (rbind ?r _) = false => destruct r; [discriminate | reflexivity]
      end. }
  specialize (H true). cbv beta in H.
  match goal with
  | |- is_ok (rbind ?r _) = false => destruct r; [discriminate | reflexivity]
  end.
Qed.

Lemma encode_dict_member (ea : bool) (isep ksep : pystr) (d : list (pystr * pyval))
    (k : pystr) (x : pyval) :
  In (k, x) d -> is_ok (Json.encode ea isep ksep x) = false ->
  is_ok (Json.encode ea isep ksep (PDict d)) = false.
Proof.
  intros Hin Hx. cbn [Json.encode].
  match goal with
  | |- is_ok (rbind (?members true d) _) = false =>
      assert (H : forall first, is_ok (members first d) = false)
  end.
  { induction d as [|[k' y] d IH]; [destruct Hin|]. intros first.
    destruct Hin as [[= -> ->]|Hin].
    - destruct (Json.encode ea isep ksep x); [discriminate | reflexivity].
    - destruct (Json.encode ea isep ksep y); [|reflexivity]. cbn [rbind].
      specialize (IH Hin false). cbv beta in IH.
      match goal with
      | |- is_ok (rbind ?r _) = false => destruct r; [discriminate | reflexivity]
      end. }
  specialize (H true). cbv beta in H.
  match goal with
  | |- is_ok (rbind ?r _) = false => destruct r; [discriminate | reflexivity]
  end.
Qed.

Lemma unserializable_member (v : pyval) :
  has_unserializable_member v ->
  is_dict_or_list v = true /\ is_ok (redis_value_of v) = false.
Proof.
  unfold redis_value_of, Json.dumps.
  destruct v; cbn [has_unserializable_member is_dict_or_list]; try contradiction.
  - intros (x & Hin & Hx). split; [reflexivity|].
    pose proof (encode_list_member false (lit ", ") (lit ": ") l x Hin Hx) as H.
    destruct (Json.encode false (lit ", ") (lit ": ") (PList l));
      [discriminate | reflexivity].
  - intros (k & x & Hin & Hx). split; [reflexivity|].
    pose proof (encode_dict_member false (lit ", ") (lit ": ") d k x Hin Hx) as H.
    destruct (Json.encode false (lit ", ") (lit ": ") (PDict d));
      [discriminate | reflexivity].
Qed.

(** The cache read depends on the cache client only. *)
Lemma cached_same_client (key : pystr) (w1 w2 : world) :
  redis_client w1 = redis_client w2 -> cached key w1 = cached key w2.
Proof.
  intros H. rewrite !cached_store. unfold redis_ready, backend_mode, store.
  rewrite H. reflexivity.
Qed.

Lemma miss_with_unserializable_result (self : collaborators) (name key : pystr)
    (w : world) (r : pyval) :
  _get_cache_key name = Ok key ->
  truthy (cached key w) = false ->
  pipeline self name = Ok r ->
  has_unserializable_member r ->
  analysis_review self name w = (Ok r, after_calls w (pipeline_calls self name)).
Proof.
  intros Hkey Hmiss Hp Hr.
  rewrite analysis_review_spec, Hkey, Hmiss. cbv zeta. rewrite Hp.
  rewrite set_to_cache_false; [reflexivity|].
  right. left. apply unserializable_member, Hr.
Qed.

(** C10.  Let the pipeline return a dict or list [r] with a member that
    [json.dumps] refuses, such as the scored table of a real analysis.
    Then [json.dumps r] raises, every write of [r] returns [False] and
    leaves the world as it was, and on a cache miss [analysis_review]
    still returns [r].  So the miss stays a miss: the [n]-th later call
    finds the cache client unchanged, runs the pipeline again and returns
    [r] again, for every [n]. *)
Theorem unserializable_result_never_cached (self : collaborators) (name key : pystr)
    (w : world) (r : pyval) :
  _get_cache_key name = Ok key ->
  truthy (cached key w) = false ->
  pipeline self name = Ok r ->
  has_unserializable_member r ->
  (exists e, Json.dumps r false = Raise e)
  /\ (forall seconds w0, _set_to_cache key r seconds w0 = (Ok false, w0))
  /\ forall n,
       let wn := after_reviews self name n w in
       analysis_review self name wn = (Ok r, after_calls wn (pipeline_calls self name))
       /\ redis_client wn = redis_client w
       /\ calls wn = calls w ++ concat (replicate n (pipeline_calls self name)).
Proof.
  intros Hkey Hmiss Hp Hr.
  destruct (unserializable_member r Hr) as [Hdl Hrv].
  split; [|split].
  - unfold redis_value_of in Hrv. rewrite Hdl in Hrv.
    destruct (Json.dumps r false) as [text|e]; [discriminate | eauto].
  - intros seconds w0. apply set_to_cache_false. auto.
  - intros n. revert w Hmiss. induction n as [|n IH]; intros w Hmiss; cbn [after_reviews].
    + split; [apply (miss_with_unserializable_result self name key); assumption|].
      split; [reflexivity|]. simpl. rewrite app_nil_r. reflexivity.
    + rewrite (miss_with_unserializable_result self name key w r) by assumption.
      cbn [snd].
      destruct (IH (after_calls w (pipeline_calls self name))) as (Hcall & Hc & Hcs).
      { rewrite (cached_same_client key _ w); [exact Hmiss | reflexivity]. }
      split; [exact Hcall|]. split; [exact Hc|].
      rewrite Hcs. cbn [replicate concat after_calls calls].
      rewrite <- app_assoc. reflexivity.
Qed.

Lemma unserializable_result_never_cached_witness :
  let self := Sample.frame_service in
  let w := Sample.empty_cache in
  let r := PDict ((lit "scored_df",
                   Sample.data_frame [Sample.review "great team" 5;
                                      Sample.review "long hours" 2])
                  :: Sample.scores) in
  (exists e, Json.dumps r false = Raise e)
  /\ (forall seconds w0,
        _set_to_cache (Sample.key_of Sample.acme) r seconds w0 = (Ok false, w0))
  /\ forall n,
       let wn := after_reviews self Sample.acme n w in
       analysis_review self Sample.acme wn
       = (Ok r, after_calls wn (pipeline_calls self Sample.acme))
       /\ redis_client wn = redis_client w
       /\ calls wn = calls w ++ concat (replicate n (pipeline_calls self Sample.acme)).
Proof.
  intros self w r.
  apply (unserializable_result_never_cached self Sample.acme (Sample.key_of Sample.acme)
           w r).
  - vm_compute. reflexivity.
  - vm_compute. reflexivity.
  - vm_compute. reflexivity.
  - simpl. eexists _, _. split; [left; reflexivity | reflexivity].
Defined.

(** * Further properties of the service *)

(** ** What a write does to the world *)

(** The write, in full: it ends with a boolean, leaves the pipeline
    record, the readiness and the behaviour of the backend alone, and
    either stores the text under the key (the boolean is [True]) or
    changes nothing (the boolean is [False]). *)
Lemma set_to_cache_effect (key : pystr) (v : pyval) (seconds : Z) (w : world) :
  exists b w',
    _set_to_cache key v seconds w = (Ok b, w')
    /\ calls w' = calls w
    /\ redis_ready w' = redis_ready w
    /\ (forall o, backend_mode w' o = backend_mode w o)
    /\ (forall x, stored_as w' x = stored_as w x)
    /\ if b then
         exists rv text,
           redis_value_of v = Ok rv
           /\ stored_as w rv = Some text
           /\ redis_ready w = true
           /\ backend_mode w Redis.Setex = Redis.Healthy
           /\ store w' = <[key := {| Redis.value := text; Redis.ttl := seconds |}]> (store w)
       else w' = w.
Proof.
  destruct w as [[ic [conn|]] evs];
    unfold _set_to_cache, try_except, redis_ready, backend_mode, stored_as, store, bind,
      lift, on_redis, Redis.setex, ret;
    simpl; destruct ic; simpl;
    try (exists false; eexists; repeat split; reflexivity).
  destruct (redis_value_of v) as [rv|] eqn:Erv; simpl;
    [|exists false; eexists; repeat split; reflexivity].
  destruct (Redis.behaviour conn Redis.Setex) eqn:Em; simpl;
    try (exists false; eexists; repeat split; reflexivity).
  destruct (Redis.stored_text conn rv) as [text|] eqn:Et; simpl;
    [|exists false; eexists; repeat split; reflexivity].
  exists true. eexists. split; [reflexivity|]. split; [reflexivity|].
  split; [reflexivity|]. split; [reflexivity|]. split; [reflexivity|].
  exists rv, text. repeat split; try reflexivity. exact Et.
Qed.

(** X3.  [_set_to_cache] never raises, and its boolean tells what
    happened.  With [True] the cache holds under the key, with the given
    TTL, the text of the value: the JSON text of a dict or list, the
    string itself for a [str], [str(value)] for any other scalar; every
    other entry is as before.  With [False] the world is as it was.  On
    a ready client with healthy writes a scalar that [str] gives a text,
    and a dict or list that [json.dumps] accepts, is written: the boolean
    is [True]. *)
Theorem set_to_cache_reports_the_write (key : pystr) (v : pyval) (seconds : Z)
    (w : world) :
  exists b w',
    _set_to_cache key v seconds w = (Ok b, w')
    /\ (if b then
          exists text,
            store w' !! key = Some {| Redis.value := text; Redis.ttl := seconds |}
            /\ (forall k, k <> key -> store w' !! k = store w !! k)
            /\ (is_dict_or_list v = true -> Json.dumps v false = Ok text)
            /\ (is_scalar_value v = true -> scalar_text v = Some text)
        else w' = w)
    /\ (redis_ready w = true ->
        backend_mode w Redis.Setex = Redis.Healthy ->
        is_Some (scalar_text v)
        \/ (is_dict_or_list v = true /\ is_ok (Json.dumps v false) = true) ->
        b = true).
Proof.
  destruct (set_to_cache_effect key v seconds w) as (b & w' & E & _ & _ & _ & _ & H).
  exists b, w'. split; [exact E|]. split.
  - destruct b; [|exact H].
    destruct H as (rv & text & Hrv & Ht & _ & _ & Hs). exists text.
    rewrite Hs. split; [apply lookup_insert_eq|].
    split; [intros k Hk; apply lookup_insert_ne; congruence|].
    unfold redis_value_of in Hrv. split.
    + intros Hdl. rewrite Hdl in Hrv.
      destruct (Json.dumps v false) as [t|]; [|discriminate].
      injection Hrv as <-. rewrite (stored_as_scalar _ _ _ _ Ht eq_refl).
      reflexivity.
    + intros Hsc. destruct v as [ | [|] | | | | | | | ]; try discriminate Hsc;
        injection Hrv as <-; rewrite (stored_as_scalar _ _ _ _ Ht eq_refl);
        reflexivity.
  - intros Hr Hm Hv.
    assert (Hw : exists rv text, redis_value_of v = Ok rv /\ stored_as w rv = Some text).
    { unfold redis_value_of. destruct Hv as [[t Hsc] | [Hdl Hok]].
      - exists v, t. split; [destruct v; try discriminate Hsc; reflexivity|].
        apply stored_as_ready; assumption.
      - rewrite Hdl. destruct (Json.dumps v false) as [t|]; [|discriminate].
        exists (PStr t), t. split; [reflexivity|].
        apply stored_as_ready; [exact Hr | reflexivity]. }
    destruct Hw as (rv & text & Hrv & Ht).
    destruct (set_to_cache_writes key v rv seconds w text Hr Hm Hrv Ht) as (w2 & E2 & _).
    congruence.
Qed.

(** ** What a call of [analysis_review] does to the cache *)

Lemma analysis_review_frame (self : collaborators) (name : pystr) (w : world)
    (k : pystr) :
  _get_cache_key name <> Ok k ->
  store (analysis_review self name w).2 !! k = store w !! k.
Proof.
  intros Hk. rewrite analysis_review_spec.
  destruct (_get_cache_key name) as [key|]; [|reflexivity].
  destruct (truthy (cached key w)); [reflexivity|]. cbv zeta.
  destruct (pipeline self name) as [r|]; [|reflexivity].
  destruct (set_to_cache_effect key r (review_analysis_cache_expire_time self)
              (after_calls w (pipeline_calls self name)))
    as (b & w' & E & _ & _ & _ & _ & H).
  rewrite E. cbn [snd]. destruct b.
  - destruct H as (rv & text & _ & _ & _ & _ & ->).
    rewrite lookup_insert_ne; [reflexivity | congruence].
  - rewrite H. reflexivity.
Qed.

Lemma analysis_review_keeps (self : collaborators) (name : pystr) (w : world)
    (k : pystr) :
  is_Some (store w !! k) -> is_Some (store (analysis_review self name w).2 !! k).
Proof.
  intros Hk. rewrite analysis_review_spec.
  destruct (_get_cache_key name) as [key|]; [|exact Hk].
  destruct (truthy (cached key w)); [exact Hk|]. cbv zeta.
  destruct (pipeline self name) as [r|]; [|exact Hk].
  destruct (set_to_cache_effect key r (review_analysis_cache_expire_time self)
              (after_calls w (pipeline_calls self name)))
    as (b & w' & E & _ & _ & _ & _ & H).
  rewrite E. cbn [snd]. destruct b.
  - destruct H as (rv & text & _ & _ & _ & _ & ->).
    destruct (decide (key = k)) as [->|Hne].
    + rewrite lookup_insert_eq. eauto.
    + rewrite lookup_insert_ne by exact Hne. exact Hk.
  - rewrite H. exact Hk.
Qed.

(** X2.  A call of [analysis_review], whatever its outcome, touches no
    cache entry but the one under the identifier's own key, and removes
    no entry at all. *)
Theorem analysis_review_touches_own_key_only (self : collaborators) (name : pystr)
    (w : world) :
  (forall k, _get_cache_key name <> Ok k ->
             store (analysis_review self name w).2 !! k = store w !! k)
  /\ (forall k, is_Some (store w !! k) ->
                is_Some (store (analysis_review self name w).2 !! k)).
Proof.
  split; intros k; [apply analysis_review_frame | apply analysis_review_keeps].
Qed.

(** X1.  A miss on a ready client with healthy writes, with a pipeline
    that returns a dict or list [r] that [json.dumps] accepts: the call
    returns [r], makes the pipeline's calls once, and leaves under the
    identifier's key the JSON text of [r] with the configured TTL,
    replacing whatever falsy entry was there. *)
Theorem miss_computes_and_stores (self : collaborators) (name key text : pystr)
    (w : world) (r : pyval) :
  _get_cache_key name = Ok key ->
  truthy (cached key w) = false ->
  pipeline self name = Ok r ->
  is_dict_or_list r = true ->
  Json.dumps r false = Ok text ->
  redis_ready w = true ->
  backend_mode w Redis.Setex = Redis.Healthy ->
  exists w',
    analysis_review self name w = (Ok r, w')
    /\ store w' = <[key := {| Redis.value := text;
                              Redis.ttl := review_analysis_cache_expire_time self |}]>
                    (store w)
    /\ calls w' = calls w ++ pipeline_calls self name.
Proof.
  intros Hkey Hmiss Hp Hdl Htext Hr Hm.
  destruct (set_to_cache_stores key r (review_analysis_cache_expire_time self)
              (after_calls w (pipeline_calls self name)) text) as (w' & E & Hs & Hc).
  - exact Hr.
  - exact Hm.
  - unfold redis_value_of. rewrite Hdl, Htext. reflexivity.
  - exists w'. rewrite analysis_review_spec, Hkey, Hmiss. cbv zeta. rewrite Hp, E.
    split; [reflexivity|]. split; [exact Hs | exact Hc].
Qed.

Lemma miss_computes_and_stores_witness :
  let self := Sample.plain_service in
  exists w',
    analysis_review self Sample.acme Sample.empty_mapping_cache
    = (Ok (PDict Sample.scores), w')
    /\ store w'
       = <[Sample.key_of Sample.acme :=
             {| Redis.value :=
                  match Json.dumps (PDict Sample.scores) false with
                  | Ok text => text
                  | Raise _ => []
                  end;
                Redis.ttl := review_analysis_cache_expire_time self |}]>
           (store Sample.empty_mapping_cache)
    /\ calls w' = calls Sample.empty_mapping_cache ++ pipeline_calls self Sample.acme.
Proof.
  intros self.
  apply (miss_computes_and_stores self Sample.acme (Sample.key_of Sample.acme)
           _ Sample.empty_mapping_cache (PDict Sample.scores));
    vm_compute; reflexivity.
Defined.

(** ** Reading *)

(** X4.  [_get_from_cache] never raises and never changes the world,
    whatever the backend does; it returns [None] when the key is not in
    the cache and when the backend fails or raises. *)
Theorem get_from_cache_is_a_safe_read (key : pystr) (w : world) :
  exists v,
    _get_from_cache key w = (Ok v, w)
    /\ (store w !! key = None -> v = PNone)
    /\ (backend_mode w Redis.Get <> Redis.Healthy -> v = PNone).
Proof.
  exists (cached key w). split; [apply get_from_cache_cached|].
  rewrite cached_store. destruct (redis_ready w); [|auto].
  destruct (backend_mode w Redis.Get); split; try reflexivity; try contradiction.
  intros ->. reflexivity.
Qed.

(** ** The pipeline *)

(** X5.  [_perform_analysis] catches nothing and stops at the first
    failure: if the fetch raises, the exception comes out and no stage is
    handed to the executor; if the preprocessing raises, the exception
    comes out and the analysis is not run; otherwise the outcome is the
    outcome of the analysis.  The cache client is not touched. *)
Theorem perform_analysis_stops_at_first_failure (self : collaborators) (name : pystr)
    (w : world) :
  (forall e, get_reviews_by_company self name = Raise e ->
     _perform_analysis self name w
     = (Raise e, after_calls w [Called (GetReviewsByCompany name) (Raise e)]))
  /\ (forall reviews e,
        get_reviews_by_company self name = Ok reviews ->
        preprocess_reviews self reviews = Raise e ->
        _perform_analysis self name w
        = (Raise e,
           after_calls w [Called (GetReviewsByCompany name) (Ok reviews);
                          Called (RunInExecutor PreprocessReviews reviews) (Raise e)]))
  /\ (forall reviews df,
        get_reviews_by_company self name = Ok reviews ->
        preprocess_reviews self reviews = Ok df ->
        _perform_analysis self name w
        = (analyze_reviews_with_keywords self df,
           after_calls w [Called (GetReviewsByCompany name) (Ok reviews);
                          Called (RunInExecutor PreprocessReviews reviews) (Ok df);
                          Called (RunInExecutor AnalyzeReviewsWithKeywords df)
                            (analyze_reviews_with_keywords self df)]))
  /\ redis_client (_perform_analysis self name w).2 = redis_client w.
Proof.
  rewrite perform_analysis_spec. unfold pipeline, pipeline_calls.
  split; [|split; [|split]].
  - intros e E. rewrite E. reflexivity.
  - intros reviews e E1 E2. rewrite E1. cbn [rbind]. rewrite E2. reflexivity.
  - intros reviews df E1 E2. rewrite E1. cbn [rbind]. rewrite E2. reflexivity.
  - reflexivity.
Qed.

(** ** Invalidation and what follows it *)

(** A miss runs the pipeline and answers with its result or the default. *)
Lemma miss_runs_pipeline (self : collaborators) (name key : pystr) (w : world) :
  _get_cache_key name = Ok key ->
  truthy (cached key w) = false ->
  exists w',
    analysis_review self name w = (Ok (pipeline_or_default self name), w')
    /\ calls w' = calls w ++ pipeline_calls self name.
Proof.
  intros Hkey Hmiss. rewrite analysis_review_spec, Hkey, Hmiss. cbv zeta.
  unfold pipeline_or_default. destruct (pipeline self name) as [r|]; [|eauto].
  destruct (set_to_cache_total key r (review_analysis_cache_expire_time self)
              (after_calls w (pipeline_calls self name))) as (b & w' & E & Hc).
  exists w'. rewrite E. split; [reflexivity | exact Hc].
Qed.

(** A key that is not in the store reads as [None]. *)
Lemma cached_absent (key : pystr) (w : world) :
  store w !! key = None -> cached key w = PNone.
Proof.
  intros H. rewrite cached_store, H.
  destruct (redis_ready w); [|reflexivity].
  destruct (backend_mode w Redis.Get); reflexivity.
Qed.

(** Every derived key lies in the namespace that the clear-all pattern
    covers. *)
Lemma cache_key_in_namespace (name key : pystr) :
  _get_cache_key name = Ok key -> in_namespace key = true.
Proof.
  unfold _get_cache_key. destruct (Utf8.encode name) as [encoded|]; [|discriminate].
  intros [= <-]. apply starts_with_spec. eauto.
Qed.

(** When no key of the namespace is cached, clearing everything returns 0
    and changes nothing, whatever the backend does. *)
Lemma clear_all_nothing_to_do (w : world) :
  namespace_keys w = [] -> clear_analysis_cache None w = (Ok 0%Z, w).
Proof.
  intros Hnil. unfold clear_analysis_cache, try_except.
  destruct (redis_ready w) eqn:Hr; [|reflexivity].
  unfold bind.
  destruct (keys_read_only (lit "review_analysis:*") w) as (r & -> & Hok & Hbad).
  destruct (Redis.mode_eq_dec (backend_mode w Redis.Keys) Redis.Healthy) as [Hk|Hk].
  - rewrite (Hok Hr Hk), matching_namespace, Hnil. reflexivity.
  - destruct Hbad as [->|[e ->]]; [auto | reflexivity | reflexivity].
Qed.

(** X6.  After [clear_analysis_cache] for a non-empty identifier on a
    ready client with healthy deletes, the identifier's key reads as
    [None], and the next [analysis_review] for it runs the pipeline
    again. *)
Theorem clear_then_review_recomputes (self : collaborators) (name key : pystr)
    (w : world) :
  truthy (PStr name) = true ->
  _get_cache_key name = Ok key ->
  redis_ready w = true ->
  backend_mode w Redis.Delete = Redis.Healthy ->
  let w1 := (clear_analysis_cache (Some name) w).2 in
  _get_from_cache key w1 = (Ok PNone, w1)
  /\ exists w2,
       analysis_review self name w1 = (Ok (pipeline_or_default self name), w2)
       /\ calls w2 = calls w1 ++ pipeline_calls self name.
Proof.
  intros Ht Hkey Hr Hd w1.
  destruct (clear_one name w Ht) as (n & w' & E & _ & _ & _ & Hgone & _).
  assert (Hw1 : w1 = w') by (subst w1; rewrite E; reflexivity).
  destruct (Hgone key Hkey Hr Hd) as [Hnone _]. rewrite <- Hw1 in Hnone.
  pose proof (cached_absent key w1 Hnone) as Hc.
  split.
  - rewrite get_from_cache_cached, Hc. reflexivity.
  - apply (miss_runs_pipeline self name key w1 Hkey). rewrite Hc. reflexivity.
Qed.

Lemma clear_then_review_recomputes_witness :
  let self := Sample.plain_service in
  let w1 := (clear_analysis_cache (Some Sample.acme) Sample.two_entries).2 in
  _get_from_cache (Sample.key_of Sample.acme) w1 = (Ok PNone, w1)
  /\ exists w2,
       analysis_review self Sample.acme w1
       = (Ok (pipeline_or_default self Sample.acme), w2)
       /\ calls w2 = calls w1 ++ pipeline_calls self Sample.acme.
Proof.
  intros self.
  apply (clear_then_review_recomputes self Sample.acme (Sample.key_of Sample.acme)
           Sample.two_entries); vm_compute; reflexivity.
Defined.

(** X7.  After [clear_analysis_cache] without identifier (or with the
    empty string) on a ready client with healthy [keys] and [delete], the
    key of every identifier reads as [None]: the pattern of the clear
    covers every key [_get_cache_key] can produce. *)
Theorem clear_all_covers_every_identifier (company_name : option pystr) (w : world) :
  company_name = None \/ company_name = Some [] ->
  redis_ready w = true ->
  backend_mode w Redis.Keys = Redis.Healthy ->
  backend_mode w Redis.Delete = Redis.Healthy ->
  forall name key,
    _get_cache_key name = Ok key ->
    _get_from_cache key (clear_analysis_cache company_name w).2
    = (Ok PNone, (clear_analysis_cache company_name w).2).
Proof.
  intros Hcn Hr Hk Hd name key Hkey.
  destruct (clear_all company_name w Hcn) as (n & w' & E & _ & Hok & _).
  rewrite E. cbn [snd].
  destruct (Hok Hr Hk Hd) as [_ Hs].
  rewrite get_from_cache_cached, cached_absent; [reflexivity|].
  rewrite Hs, (cache_key_in_namespace name key Hkey). reflexivity.
Qed.

Lemma clear_all_covers_every_identifier_witness :
  _get_from_cache (Sample.key_of Sample.samsung)
    (clear_analysis_cache None Sample.two_entries).2
  = (Ok PNone, (clear_analysis_cache None Sample.two_entries).2).
Proof.
  apply (clear_all_covers_every_identifier None Sample.two_entries
           (or_introl eq_refl) eq_refl eq_refl eq_refl Sample.samsung).
  vm_compute. reflexivity.
Defined.

(** X8.  Clearing everything twice: after a clear-all on a ready client
    with healthy [keys] and [delete], a second clear-all returns 0 and
    changes nothing. *)
Theorem clear_all_twice (w : world) :
  redis_ready w = true ->
  backend_mode w Redis.Keys = Redis.Healthy ->
  backend_mode w Redis.Delete = Redis.Healthy ->
  clear_analysis_cache None (clear_analysis_cache None w).2
  = (Ok 0%Z, (clear_analysis_cache None w).2).
Proof.
  intros Hr Hk Hd.
  destruct (clear_all None w (or_introl eq_refl)) as (n & w' & E & _ & Hok & _).
  rewrite E. cbn [snd]. destruct (Hok Hr Hk Hd) as [_ Hs].
  apply clear_all_nothing_to_do.
  destruct (namespace_keys_spec w') as [_ Hmem].
  destruct (namespace_keys w') as [|k ks]; [reflexivity|]. exfalso.
  destruct (Hmem k) as [H _].
  destruct H as [[en Hen] Hns]; [left|].
  rewrite Hs, Hns in Hen. discriminate.
Qed.

Lemma clear_all_twice_witness :
  clear_analysis_cache None (clear_analysis_cache None Sample.two_entries).2
  = (Ok 0%Z, (clear_analysis_cache None Sample.two_entries).2).
Proof. apply (clear_all_twice Sample.two_entries); reflexivity. Defined.

(** ** Identifiers without a cache key *)

Lemma encode_raises_unicode (s : pystr) (e : exn) :
  Utf8.encode s = Raise e -> e = UnicodeEncodeError.
Proof.
  induction s as [|c s IH]; simpl; [discriminate|].
  destruct (Utf8.encode_char c); [|intros [= <-]; reflexivity].
  destruct (Utf8.encode s) as [rest|e']; simpl; [discriminate|].
  intros [= <-]. apply IH. reflexivity.
Qed.

(** X9.  For an identifier that UTF-8 cannot encode (it holds a lone
    surrogate) [analysis_review] raises [UnicodeEncodeError] before it
    reads the cache or calls the pipeline, since the key is derived
    outside its [try]; [clear_analysis_cache] derives the key inside its
    [try] and returns 0.  Neither changes the world. *)
Theorem identifier_without_key (self : collaborators) (name : pystr) (w : world) :
  forallb is_scalar name = false ->
  analysis_review self name w = (Raise UnicodeEncodeError, w)
  /\ clear_analysis_cache (Some name) w = (Ok 0%Z, w).
Proof.
  intros Hns.
  assert (Hkey : _get_cache_key name = Raise UnicodeEncodeError).
  { unfold _get_cache_key. destruct (Utf8.encode name) as [encoded|e] eqn:E.
    - apply encode_ok_scalars in E. congruence.
    - rewrite (encode_raises_unicode _ _ E). reflexivity. }
  split.
  - rewrite analysis_review_spec, Hkey. reflexivity.
  - destruct name as [|c name]; [discriminate|].
    unfold clear_analysis_cache, try_except, bind, lift.
    cbn [truthy]. rewrite Hkey. reflexivity.
Qed.

Lemma identifier_without_key_witness :
  analysis_review Sample.plain_service [0xD800] Sample.two_entries
  = (Raise UnicodeEncodeError, Sample.two_entries)
  /\ clear_analysis_cache (Some [0xD800]) Sample.two_entries
     = (Ok 0%Z, Sample.two_entries).
Proof.
  apply (identifier_without_key Sample.plain_service [0xD800] Sample.two_entries).
  reflexivity.
Defined.

(** ** Empty results *)

Lemma analysis_review_keeps_backend (self : collaborators) (name : pystr) (w : world) :
  redis_ready (analysis_review self name w).2 = redis_ready w
  /\ forall o, backend_mode (analysis_review self name w).2 o = backend_mode w o.
Proof.
  rewrite analysis_review_spec.
  destruct (_get_cache_key name) as [key|]; [|auto].
  destruct (truthy (cached key w)); [auto|]. cbv zeta.
  destruct (pipeline self name) as [r|]; [|auto].
  destruct (set_to_cache_effect key r (review_analysis_cache_expire_time self)
              (after_calls w (pipeline_calls self name)))
    as (b & w' & E & _ & Hr & Hm & _).
  rewrite E. cbn [snd]. auto.
Qed.

(** After a miss whose result is an empty dict or list the key still
    reads as a falsy value: as absence if nothing was written, as the
    empty value itself if it was. *)
Lemma empty_result_stays_falsy (self : collaborators) (name key : pystr) (w : world)
    (r : pyval) :
  r = PDict [] \/ r = PList [] ->
  _get_cache_key name = Ok key ->
  pipeline self name = Ok r ->
  truthy (cached key w) = false ->
  analysis_review self name w = (Ok r, (analysis_review self name w).2)
  /\ calls (analysis_review self name w).2 = calls w ++ pipeline_calls self name
  /\ truthy (cached key (analysis_review self name w).2) = false
  /\ (redis_ready w = true -> backend_mode w Redis.Setex = Redis.Healthy ->
      is_Some (store (analysis_review self name w).2 !! key)).
Proof.
  intros Hr Hkey Hp Hmiss. rewrite analysis_review_spec, Hkey, Hmiss. cbv zeta.
  rewrite Hp.
  destruct (set_to_cache_effect key r (review_analysis_cache_expire_time self)
              (after_calls w (pipeline_calls self name)))
    as (b & w' & E & Hc & Hrd & Hm & _ & Heff).
  rewrite E. cbn [fst snd]. split; [reflexivity|]. split; [exact Hc|].
  destruct b.
  - destruct Heff as (rv & text & Hrv & Ht & _ & _ & Hs). split.
    + rewrite cached_store, Hs, lookup_insert_eq. cbn [Redis.value].
      destruct (redis_ready w'); [|reflexivity].
      destruct (backend_mode w' Redis.Get); try reflexivity.
      destruct Hr as [-> | ->]; injection Hrv as <-;
        rewrite (stored_as_scalar _ _ _ _ Ht eq_refl); reflexivity.
    + intros _ _. rewrite Hs, lookup_insert_eq. eauto.
  - subst w'. split.
    + rewrite (cached_same_client key _ w); [exact Hmiss | reflexivity].
    + intros Hready Hhealthy. exfalso.
      destruct (set_to_cache_stores key r (review_analysis_cache_expire_time self)
                  (after_calls w (pipeline_calls self name))
                  (match r with PDict _ => jlit "{}" | _ => jlit "[]" end))
        as (w2 & E2 & _); [exact Hready | exact Hhealthy | |congruence].
      destruct Hr as [-> | ->]; reflexivity.
Qed.

(** X10.  An empty dict or list as pipeline result is written to the
    cache but never served from it: the cached empty value is falsy, so
    every later call for the identifier runs the pipeline again and
    returns the empty result again, although from the first call on (on
    a ready client with healthy writes) the key has an entry. *)
Theorem empty_result_is_never_served (self : collaborators) (name key : pystr)
    (w : world) (r : pyval) :
  r = PDict [] \/ r = PList [] ->
  _get_cache_key name = Ok key ->
  pipeline self name = Ok r ->
  truthy (cached key w) = false ->
  forall n,
    let wn := after_reviews self name n w in
    (analysis_review self name wn).1 = Ok r
    /\ calls (analysis_review self name wn).2
       = calls w ++ concat (replicate (S n) (pipeline_calls self name))
    /\ (redis_ready w = true -> backend_mode w Redis.Setex = Redis.Healthy ->
        is_Some (store (analysis_review self name wn).2 !! key)).
Proof.
  intros Hr Hkey Hp Hmiss n. revert w Hmiss.
  induction n as [|n IH]; intros w Hmiss; cbn [after_reviews].
  - destruct (empty_result_stays_falsy self name key w r Hr Hkey Hp Hmiss)
      as (E & Hc & _ & Hs).
    rewrite E at 1. cbn [fst]. split; [reflexivity|]. split; [|exact Hs].
    rewrite Hc. cbn [replicate concat]. rewrite app_nil_r. reflexivity.
  - destruct (empty_result_stays_falsy self name key w r Hr Hkey Hp Hmiss)
      as (_ & Hc & Hfalsy & _).
    destruct (analysis_review_keeps_backend self name w) as [Hrd Hm].
    destruct (IH (analysis_review self name w).2 Hfalsy) as (E' & Hc' & Hs').
    split; [exact E'|]. split.
    + rewrite Hc', Hc. cbn [replicate concat]. rewrite <- app_assoc. reflexivity.
    + intros Hready Hhealthy. apply Hs'; [rewrite Hrd | rewrite Hm]; assumption.
Qed.

Lemma empty_result_is_never_served_witness :
  let self := Sample.empty_service in
  let wn := after_reviews self Sample.acme 2 Sample.empty_cache in
  (analysis_review self Sample.acme wn).1 = Ok (PDict [])
  /\ calls (analysis_review self Sample.acme wn).2
     = calls Sample.empty_cache
       ++ concat (replicate 3 (pipeline_calls self Sample.acme))
  /\ (redis_ready Sample.empty_cache = true ->
      backend_mode Sample.empty_cache Redis.Setex = Redis.Healthy ->
      is_Some (store (analysis_review self Sample.acme wn).2
                 !! Sample.key_of Sample.acme)).
Proof.
  intros self.
  apply (empty_result_is_never_served self Sample.acme (Sample.key_of Sample.acme)
           Sample.empty_cache (PDict []) (or_introl eq_refl) eq_refl eq_refl eq_refl 2).
Defined.

(** ** What [json.loads] makes of what [json.dumps] wrote *)

Lemma pyval_induction (P : pyval -> Prop) :
  P PNone ->
  (forall b, P (PBool b)) ->
  (forall z, P (PInt z)) ->
  (forall f, P (PFloat f)) ->
  (forall s, P (PStr s)) ->
  (forall l, Forall P l -> P (PList l)) ->
  (forall l, Forall P l -> P (PTuple l)) ->
  (forall d, Forall (fun kv => P kv.2) d -> P (PDict d)) ->
  (forall cls attrs, Forall (fun kv => P kv.2) attrs -> P (PObject cls attrs)) ->
  forall v, P v.
Proof.
  intros HN HB HI HF HS HL HT HD HO.
  fix IH 1. intros [ | b | z | f | s | l | l | d | cls attrs ].
  - exact HN.
  - apply HB.
  - apply HI.
  - apply HF.
  - apply HS.
  - apply HL. induction l as [|x l IHl]; constructor; [apply IH | exact IHl].
  - apply HT. induction l as [|x l IHl]; constructor; [apply IH | exact IHl].
  - apply HD. induction d as [|[k x] d IHd]; constructor; [apply IH | exact IHd].
  - apply HO. induction attrs as [|[k x] d IHd]; constructor; [apply IH | exact IHd].
Qed.

Lemma encode_list_join (ea : bool) (isep ksep : pystr) (l : list pyval) :
  Json.encode ea isep ksep (PList l)
  = rbind (join_items (Json.encode ea isep ksep) isep true l)
      (fun body => Ok ([91] ++ body ++ [93])).
Proof.
  cbn [Json.encode]. f_equal. generalize true as first.
  induction l as [|x l IH]; intros first; [reflexivity|].
  cbn [join_items]. rewrite <- IH. reflexivity.
Qed.

Lemma encode_tuple_join (ea : bool) (isep ksep : pystr) (l : list pyval) :
  Json.encode ea isep ksep (PTuple l) = Json.encode ea isep ksep (PList l).
Proof. reflexivity. Qed.

Lemma encode_dict_join (isep ksep : pystr) (d : list (pystr * pyval)) :
  Json.encode false isep ksep (PDict d)
  = rbind (join_members (Json.encode false isep ksep) isep ksep true d)
      (fun body => Ok ([123] ++ body ++ [125])).
Proof.
  cbn [Json.encode]. f_equal. generalize true as first.
  induction d as [|[k x] d IH]; intros first; [reflexivity|].
  cbn [join_members]. rewrite <- IH. reflexivity.
Qed.

(** *** Decimal numerals *)

Lemma to_N_snoc (ds : pystr) (c : N) :
  Decimal.to_N (ds ++ [c]) = 10 * Decimal.to_N ds + (c - 48).
Proof. unfold Decimal.to_N. rewrite fold_left_app. reflexivity. Qed.

Lemma is_digit_digit (n : N) : n < 10 -> Decimal.is_digit (Decimal.digit n) = true.
Proof.
  intros H. unfold Decimal.is_digit, Decimal.digit.
  apply andb_true_iff. split; apply N.leb_le; lia.
Qed.

Lemma digits_fuel_step (f : nat) (n : N) (acc : pystr) :
  Decimal.digits_fuel (S f) n acc
  = if n <? 10 then Decimal.digit n :: acc
    else Decimal.digits_fuel f (n / 10) (Decimal.digit (n mod 10) :: acc).
Proof. reflexivity. Qed.

(** The digits of [n]: all digits, no leading zero unless [n] is zero,
    and their value is [n]. *)
Lemma digits_fuel_spec (f : nat) :
  forall n acc,
    n < 2 ^ N.of_nat f ->
    exists d ds,
      Decimal.digits_fuel (S f) n acc = d :: ds ++ acc
      /\ forallb Decimal.is_digit (d :: ds) = true
      /\ (n = 0 -> d :: ds = [48])
      /\ (n <> 0 -> d <> 48)
      /\ Decimal.to_N (d :: ds) = n.
Proof.
  induction f as [|f IH]; intros n acc Hn.
  - assert (n = 0) by (simpl in Hn; lia). subst n.
    exists 48, []. repeat split; try reflexivity. intros H; contradiction.
  - rewrite digits_fuel_step. destruct (N.ltb_spec n 10) as [Hlt|Hge].
    + exists (Decimal.digit n), []. split; [reflexivity|]. split.
      { cbn [forallb]. rewrite is_digit_digit by exact Hlt. reflexivity. }
      split; [intros ->; reflexivity|]. split.
      { unfold Decimal.digit. lia. }
      unfold Decimal.to_N, Decimal.digit. simpl. lia.
    + assert (Hdiv : n / 10 < 2 ^ N.of_nat f).
      { apply N.Div0.div_lt_upper_bound.
        rewrite Nat2N.inj_succ, N.pow_succ_r' in Hn. lia. }
      destruct (IH (n / 10) (Decimal.digit (n mod 10) :: acc) Hdiv)
        as (d & ds & E & Hdig & _ & Hnz & Hval).
      exists d, (ds ++ [Decimal.digit (n mod 10)]).
      split; [rewrite E, <- app_assoc; reflexivity|].
      assert (Hmod : n mod 10 < 10) by (apply N.mod_lt; discriminate).
      split.
      { change (d :: ds ++ [Decimal.digit (n mod 10)])
          with ((d :: ds) ++ [Decimal.digit (n mod 10)]).
        rewrite forallb_app, Hdig. cbn [forallb].
        rewrite is_digit_digit by exact Hmod. reflexivity. }
      split; [intros ->; simpl in Hge; lia|].
      split.
      { intros _. apply Hnz. intros Hz.
        pose proof (N.Div0.div_mod n 10) as Hdm. rewrite Hz in Hdm. lia. }
      change (d :: ds ++ [Decimal.digit (n mod 10)])
        with ((d :: ds) ++ [Decimal.digit (n mod 10)]).
      rewrite to_N_snoc, Hval. unfold Decimal.digit.
      rewrite (N.add_comm 48), N.add_sub.
      symmetry. apply N.Div0.div_mod.
Qed.

Lemma of_N_spec (n : N) :
  exists d ds,
    Decimal.of_N n = d :: ds
    /\ forallb Decimal.is_digit (d :: ds) = true
    /\ (n = 0 -> d :: ds = [48])
    /\ (n <> 0 -> d <> 48)
    /\ Decimal.to_N (d :: ds) = n.
Proof.
  unfold Decimal.of_N.
  destruct (digits_fuel_spec (N.to_nat (N.size n)) n []) as (d & ds & E & H).
  - rewrite N2Nat.id. apply N.size_gt.
  - exists d, ds. rewrite E, app_nil_r. auto.
Qed.

(** *** Scanning past a token *)

Lemma span_digits_boundary (rest : pystr) :
  at_boundary rest = true -> Json.span_digits rest = ([], rest).
Proof.
  destruct rest as [|c rest]; [reflexivity|]. cbn [at_boundary Json.span_digits].
  intros H. unfold Decimal.is_digit.
  destruct (N.eqb_spec c 44) as [->|]; [reflexivity|].
  destruct (N.eqb_spec c 93) as [->|]; [reflexivity|].
  destruct (N.eqb_spec c 125) as [->|]; [reflexivity | discriminate].
Qed.

Lemma span_digits_app (ds rest : pystr) :
  forallb Decimal.is_digit ds = true -> at_boundary rest = true ->
  Json.span_digits (ds ++ rest) = (ds, rest).
Proof.
  intros Hds Hb. induction ds as [|d ds IH]; [apply span_digits_boundary, Hb|].
  cbn [forallb] in Hds. apply andb_true_iff in Hds as [Hd Hds].
  cbn [app Json.span_digits]. rewrite Hd, (IH Hds). reflexivity.
Qed.

Lemma scan_frac_boundary (rest : pystr) :
  at_boundary rest = true -> Json.scan_frac rest = None.
Proof.
  destruct rest as [|c rest]; [reflexivity|]. cbn [at_boundary Json.scan_frac].
  destruct (N.eqb_spec c 44) as [->|]; [reflexivity|].
  destruct (N.eqb_spec c 93) as [->|]; [reflexivity|].
  destruct (N.eqb_spec c 125) as [->|]; [reflexivity | discriminate].
Qed.

Lemma scan_exp_boundary (rest : pystr) :
  at_boundary rest = true -> Json.scan_exp rest = None.
Proof.
  destruct rest as [|c rest]; [reflexivity|]. cbn [at_boundary Json.scan_exp].
  destruct (N.eqb_spec c 44) as [->|]; [reflexivity|].
  destruct (N.eqb_spec c 93) as [->|]; [reflexivity|].
  destruct (N.eqb_spec c 125) as [->|]; [reflexivity | discriminate].
Qed.

Lemma scan_unsigned_of_N (neg : bool) (n : N) (rest : pystr) :
  at_boundary rest = true ->
  Json.scan_unsigned neg (Decimal.of_N n ++ rest)
  = Some (PInt (if neg then (- Z.of_N n)%Z else Z.of_N n), rest).
Proof.
  intros Hb. destruct (of_N_spec n) as (d & ds & -> & Hdig & Hz & Hnz & Hval).
  unfold Json.scan_unsigned.
  assert (Hint : Json.scan_int ((d :: ds) ++ rest) = Some (d :: ds, rest)).
  { cbn [forallb] in Hdig. apply andb_true_iff in Hdig as [Hd Hds].
    cbn [app Json.scan_int]. destruct (N.eqb_spec d 48) as [->|Hne].
    - destruct (N.eq_dec n 0) as [Hn|Hn]; [|exfalso; apply (Hnz Hn); reflexivity].
      injection (Hz Hn) as ->. reflexivity.
    - rewrite Hd, (span_digits_app ds rest Hds Hb). reflexivity. }
  rewrite Hint, (scan_frac_boundary rest Hb), (scan_exp_boundary rest Hb), Hval.
  reflexivity.
Qed.

Lemma of_N_head (n : N) :
  exists d ds, Decimal.of_N n = d :: ds /\ Decimal.is_digit d = true.
Proof.
  destruct (of_N_spec n) as (d & ds & E & Hdig & _).
  cbn [forallb] in Hdig. apply andb_true_iff in Hdig as [Hd _]. eauto.
Qed.

Lemma scan_number_of_Z (z : Z) (rest : pystr) :
  at_boundary rest = true ->
  Json.scan_number (Decimal.of_Z z ++ rest) = Some (PInt z, rest).
Proof.
  intros Hb. unfold Decimal.of_Z.
  assert (Hpos : forall n, Json.scan_number (Decimal.of_N n ++ rest)
                           = Some (PInt (Z.of_N n), rest)).
  { intros n. pose proof (scan_unsigned_of_N false n rest Hb) as H.
    destruct (of_N_head n) as (d & ds & E & Hd). rewrite E in *.
    cbn [app Json.scan_number]. unfold Decimal.is_digit in Hd.
    destruct (N.eqb_spec d 45) as [->|]; [discriminate | exact H]. }
  destruct z as [|p|p].
  - apply (Hpos 0).
  - rewrite Hpos. reflexivity.
  - cbn [app Json.scan_number]. change (45 =? 45) with true. cbv iota.
    rewrite (scan_unsigned_of_N true (Npos p) rest Hb). reflexivity.
Qed.

(** *** String literals *)

Lemma decode_hex4_control (c : N) (more : pystr) :
  c < 32 -> Json.decode_hex4 (Json.hex4 c ++ more) = Some (c, more).
Proof.
  intros H.
  destruct c as [|p]; [reflexivity|].
  do 5 (destruct p as [p|p|]; try reflexivity; try (exfalso; lia)).
Qed.

Lemma scanstring_step (f : nat) (acc : pystr) (c : N) (r : pystr) :
  Json.scanstring (S f) acc (c :: r)
  = if c =? 34 then Json.Parsed (rev acc) r
    else if c =? 92 then
      match r with
      | [] => Json.Invalid
      | esc :: r1 =>
          if esc =? 117 then
            match Json.decode_hex4 r1 with
            | None => Json.Invalid
            | Some (uni, r2) =>
                if (0xD800 <=? uni) && (uni <=? 0xDBFF) then
                  match Json.strip_prefix [92; 117] r2 with
                  | None => Json.scanstring f (uni :: acc) r2
                  | Some r3 =>
                      match Json.decode_hex4 r3 with
                      | None => Json.Invalid
                      | Some (uni2, r4) =>
                          if (0xDC00 <=? uni2) && (uni2 <=? 0xDFFF) then
                            Json.scanstring f
                              (0x10000 + N.lor (N.shiftl (uni - 0xD800) 10) (uni2 - 0xDC00)
                                 :: acc) r4
                          else Json.scanstring f (uni :: acc) r2
                      end
                  end
                else Json.scanstring f (uni :: acc) r2
            end
          else
            match Json.unescape esc with
            | Some ch => Json.scanstring f (ch :: acc) r1
            | None => Json.Invalid
            end
      end
    else if c <? 32 then Json.Invalid
    else Json.scanstring f (c :: acc) r.
Proof. reflexivity. Qed.

(** One escaped character is read back as the character. *)
Lemma scanstring_escape_char (f : nat) (acc : pystr) (c : N) (more : pystr) :
  Json.scanstring (S f) acc (Json.escape_char false c ++ more)
  = Json.scanstring f (c :: acc) more.
Proof.
  unfold Json.escape_char.
  assert (Hesc : forall e, Json.unescape e = Some c -> (e =? 117) = false ->
            Json.scanstring (S f) acc ([92; e] ++ more)
            = Json.scanstring f (c :: acc) more).
  { intros e He Hu. cbn [app]. rewrite scanstring_step. change (92 =? 34) with false.
    change (92 =? 92) with true. cbv iota. rewrite Hu, He. reflexivity. }
  destruct (N.eqb_spec c 34) as [Hc|H34]; [apply Hesc; try rewrite Hc; reflexivity|].
  destruct (N.eqb_spec c 92) as [Hc|H92]; [apply Hesc; try rewrite Hc; reflexivity|].
  destruct (N.eqb_spec c 10) as [Hc|H10]; [apply Hesc; try rewrite Hc; reflexivity|].
  destruct (N.eqb_spec c 13) as [Hc|H13]; [apply Hesc; try rewrite Hc; reflexivity|].
  destruct (N.eqb_spec c 9) as [Hc|H9]; [apply Hesc; try rewrite Hc; reflexivity|].
  destruct (N.eqb_spec c 8) as [Hc|H8]; [apply Hesc; try rewrite Hc; reflexivity|].
  destruct (N.eqb_spec c 12) as [Hc|H12]; [apply Hesc; try rewrite Hc; reflexivity|].
  destruct (N.ltb_spec c 32) as [Hlt|Hge].
  - unfold Json.u_escape. rewrite <- !app_assoc. cbn [app].
    rewrite scanstring_step. change (92 =? 34) with false.
    change (92 =? 92) with true. cbv iota. change (117 =? 117) with true. cbv iota.
    rewrite (decode_hex4_control c more Hlt).
    replace ((55296 <=? c) && (c <=? 56319)) with false; [reflexivity|].
    symmetry. apply andb_false_iff. left. apply N.leb_gt. lia.
  - cbn [andb app]. rewrite scanstring_step.
    apply N.eqb_neq in H34, H92. rewrite H34, H92.
    replace (c <? 32) with false by (symmetry; apply N.ltb_ge; exact Hge).
    reflexivity.
Qed.

(** A string literal is read back as the string. *)
Lemma scanstring_encode (s : pystr) :
  forall acc fuel more,
    (length s < fuel)%nat ->
    Json.scanstring fuel acc
      (concat (List.map (Json.escape_char false) s) ++ 34 :: more)
    = Json.Parsed (rev acc ++ s) more.
Proof.
  induction s as [|c s IH]; intros acc fuel more Hf.
  - destruct fuel as [|f]; [simpl in Hf; lia|].
    cbn [List.map concat app]. rewrite scanstring_step. change (34 =? 34) with true.
    cbv iota. rewrite app_nil_r. reflexivity.
  - destruct fuel as [|f]; [simpl in Hf; lia|].
    cbn [List.map concat]. rewrite <- app_assoc, scanstring_escape_char.
    rewrite IH by (simpl in Hf; lia). cbn [rev]. rewrite <- app_assoc. reflexivity.
Qed.

Lemma escaped_length (s : pystr) :
  (length s <= length (concat (List.map (Json.escape_char false) s)))%nat.
Proof.
  induction s as [|c s IH]; [reflexivity|].
  cbn [List.map concat]. rewrite length_app. simpl.
  assert (H : (1 <= length (Json.escape_char false c))%nat); [|lia].
  unfold Json.escape_char, Json.u_escape.
  repeat match goal with
         | |- context [if ?b then _ else _] => destruct b
         end; simpl; lia.
Qed.

(** *** Values *)

Lemma of_Z_head (z : Z) :
  exists c t, Decimal.of_Z z = c :: t /\ (c = 45 \/ Decimal.is_digit c = true).
Proof.
  destruct z as [|p|p].
  - exists 48, []. split; [reflexivity | right; reflexivity].
  - destruct (of_N_head (Npos p)) as (d & ds & E & Hd).
    exists d, ds. split; [exact E | right; exact Hd].
  - exists 45, (Decimal.of_N (Npos p)). split; [reflexivity | left; reflexivity].
Qed.

Lemma digit_or_minus_head (c : N) :
  c = 45 \/ Decimal.is_digit c = true ->
  head_ok c = true
  /\ (c =? 34) = false /\ (c =? 123) = false /\ (c =? 91) = false
  /\ (c =? 110) = false /\ (c =? 116) = false /\ (c =? 102) = false.
Proof.
  intros [->|H]; [repeat split; reflexivity|].
  unfold Decimal.is_digit in H. apply andb_true_iff in H as [H1 H2].
  apply N.leb_le in H1, H2.
  unfold head_ok, Json.is_ws.
  repeat match goal with
         | |- context [?a =? ?b] => destruct (N.eqb_spec a b); [exfalso; lia|]
         end.
  replace (c <? 128) with true by (symmetry; apply N.ltb_lt; lia).
  repeat split; reflexivity.
Qed.

Lemma encode_head (v : pyval) (text : pystr) :
  is_plain v = true ->
  Json.dumps v false = Ok text ->
  exists c t, text = c :: t /\ head_ok c = true.
Proof.
  unfold Json.dumps. intros Hp.
  destruct v as [ | [|] | z | [neg|[|]| |] | s | l | l | d | cls attrs ];
    try discriminate Hp;
    try (intros [= <-]; eexists _, _; split; reflexivity).
  - intros [= <-]. destruct (of_Z_head z) as (c & t & -> & Hc).
    exists c, t. split; [reflexivity|]. apply digit_or_minus_head, Hc.
  - intros [= <-]. destruct neg; eexists _, _; split; reflexivity.
  - rewrite encode_list_join.
    destruct (join_items _ _ _ _); [|discriminate].
    intros [= <-]. eexists _, _. split; reflexivity.
  - rewrite encode_tuple_join, encode_list_join.
    destruct (join_items _ _ _ _); [|discriminate].
    intros [= <-]. eexists _, _. split; reflexivity.
  - rewrite encode_dict_join.
    destruct (join_members _ _ _ _ _); [|discriminate].
    intros [= <-]. eexists _, _. split; reflexivity.
Qed.

Lemma skip_ws_keep (c : N) (s : pystr) :
  Json.is_ws c = false -> Json.skip_ws (c :: s) = c :: s.
Proof. intros H. cbn [Json.skip_ws]. rewrite H. reflexivity. Qed.

Lemma skip_ws_drop (c : N) (s : pystr) :
  Json.is_ws c = true -> Json.skip_ws (c :: s) = Json.skip_ws s.
Proof. intros H. cbn [Json.skip_ws]. rewrite H. reflexivity. Qed.

Lemma skip_ws_head (c : N) (s : pystr) :
  head_ok c = true -> Json.skip_ws (c :: s) = c :: s.
Proof.
  unfold head_ok. intros H. cbn [Json.skip_ws].
  destruct (Json.is_ws c); [discriminate | reflexivity].
Qed.

Lemma scan_once_step (f : nat) (c : N) (rest : pystr) :
  Json.scan_once (S f) (c :: rest)
  = if c =? 34 then
      match Json.scanstring (S (length rest)) [] rest with
      | Json.Parsed str r => Json.Parsed (PStr str) r
      | Json.Invalid => Json.Invalid
      | Json.OutOfFuel => Json.OutOfFuel
      end
    else if c =? 123 then
      match Json.skip_ws rest with
      | [] => Json.Invalid
      | c1 :: s1 =>
          if c1 =? 125 then Json.Parsed (PDict []) s1
          else if c1 =? 34 then
            Json.scan_object (Json.scan_once f) (S (length s1)) [] s1
          else Json.Invalid
      end
    else if c =? 91 then
      match Json.skip_ws rest with
      | [] => Json.Invalid
      | c1 :: s1 =>
          if c1 =? 93 then Json.Parsed (PList []) s1
          else Json.scan_array (Json.scan_once f) (S (length s1)) [] (c1 :: s1)
      end
    else Json.scan_constant (c :: rest).
Proof. reflexivity. Qed.

Lemma scan_once_number (f : nat) (c : N) (t : pystr) (v : pyval) (r : pystr) :
  c = 45 \/ Decimal.is_digit c = true ->
  Json.scan_number (c :: t) = Some (v, r) ->
  Json.scan_once (S f) (c :: t) = Json.Parsed v r.
Proof.
  intros Hc Hn.
  destruct (digit_or_minus_head c Hc) as (_ & H34 & H123 & H91 & H110 & H116 & H102).
  rewrite scan_once_step, H34, H123, H91. unfold Json.scan_constant.
  cbn [lit list_ascii_of_string List.map Json.strip_prefix].
  change (N_of_ascii "n") with 110. change (N_of_ascii "t") with 116.
  change (N_of_ascii "f") with 102.
  rewrite (N.eqb_sym 110), (N.eqb_sym 116), (N.eqb_sym 102), H110, H116, H102, Hn.
  reflexivity.
Qed.

Lemma scan_number_zero (neg : bool) (rest : pystr) :
  at_boundary rest = true ->
  Json.scan_number ((if neg then [45] else []) ++ lit "0.0" ++ rest)
  = Some (PFloat (PyFloat.Zero neg), rest).
Proof.
  intros Hb.
  assert (H : forall n, Json.scan_unsigned n (48 :: 46 :: 48 :: rest)
                        = Some (PFloat (PyFloat.Zero n), rest)).
  { intros n. unfold Json.scan_unsigned. cbn [Json.scan_int]. change (48 =? 48) with true.
    cbv iota. cbn [Json.scan_frac]. change (46 =? 46) with true. cbv iota.
    cbn [Json.span_digits]. change (Decimal.is_digit 48) with true. cbv iota.
    rewrite (span_digits_boundary rest Hb), (scan_exp_boundary rest Hb). reflexivity. }
  destruct neg; [|exact (H false)].
  change ([45] ++ lit "0.0" ++ rest) with (45 :: 48 :: 46 :: 48 :: rest).
  cbn [Json.scan_number]. change (45 =? 45) with true. cbv iota. apply H.
Qed.

Lemma join_items_first (enc : pyval -> result pystr) (sep : pystr) (l : list pyval)
    (tb : pystr) :
  l <> [] ->
  join_items enc sep false l = Ok tb ->
  exists body, join_items enc sep true l = Ok body /\ tb = sep ++ body.
Proof.
  destruct l as [|x l]; [contradiction|]. intros _. cbn [join_items].
  destruct (enc x) as [sx|]; [|discriminate]. cbn [rbind].
  destruct (join_items enc sep false l) as [rest|]; [|discriminate]. cbn [rbind].
  intros [= <-]. eauto.
Qed.

Lemma join_members_first (enc : pyval -> result pystr) (sep ksep : pystr)
    (d : list (pystr * pyval)) (tb : pystr) :
  d <> [] ->
  join_members enc sep ksep false d = Ok tb ->
  exists body, join_members enc sep ksep true d = Ok body /\ tb = sep ++ body.
Proof.
  destruct d as [|[k x] d]; [contradiction|]. intros _. cbn [join_members].
  destruct (enc x) as [sx|]; [|discriminate]. cbn [rbind].
  destruct (join_members enc sep ksep false d) as [rest|]; [|discriminate].
  cbn [rbind]. intros [= <-]. eauto.
Qed.

Lemma scan_array_step (sv : pystr -> Json.parsed pyval) (n : nat) (acc : list pyval)
    (s : pystr) :
  Json.scan_array sv (S n) acc s
  = match sv s with
    | Json.Invalid => Json.Invalid
    | Json.OutOfFuel => Json.OutOfFuel
    | Json.Parsed v s2 =>
        match Json.skip_ws s2 with
        | [] => Json.Invalid
        | c3 :: s3 =>
            if c3 =? 93 then Json.Parsed (PList (rev (v :: acc))) s3
            else if c3 =? 44 then Json.scan_array sv n (v :: acc) (Json.skip_ws s3)
            else Json.Invalid
        end
    end.
Proof. reflexivity. Qed.

Lemma scan_object_step (sv : pystr -> Json.parsed pyval) (n : nat)
    (acc : list (pystr * pyval)) (s : pystr) :
  Json.scan_object sv (S n) acc s
  = match Json.scanstring (S (length s)) [] s with
    | Json.Invalid => Json.Invalid
    | Json.OutOfFuel => Json.OutOfFuel
    | Json.Parsed key s2 =>
        match Json.skip_ws s2 with
        | [] => Json.Invalid
        | c3 :: s3 =>
            if c3 =? 58 then
              match sv (Json.skip_ws s3) with
              | Json.Invalid => Json.Invalid
              | Json.OutOfFuel => Json.OutOfFuel
              | Json.Parsed v s4 =>
                  match Json.skip_ws s4 with
                  | [] => Json.Invalid
                  | c5 :: s5 =>
                      if c5 =? 125 then
                        Json.Parsed (PDict (dict_of_pairs (rev ((key, v) :: acc)))) s5
                      else if c5 =? 44 then
                        match Json.skip_ws s5 with
                        | [] => Json.Invalid
                        | c6 :: s6 =>
                            if c6 =? 34 then Json.scan_object sv n ((key, v) :: acc) s6
                            else Json.Invalid
                        end
                      else Json.Invalid
                  end
              end
            else Json.Invalid
        end
    end.
Proof. reflexivity. Qed.

Lemma scan_array_join (f : nat) (l : list pyval) :
  Forall reads_back l ->
  forallb is_plain l = true ->
  l <> [] ->
  forall body n acc rest,
    join_items (fun x => Json.dumps x false) (lit ", ") true l = Ok body ->
    (length l <= n)%nat ->
    (length body + S (length rest) < f)%nat ->
    Json.scan_array (Json.scan_once f) n acc (body ++ 93 :: rest)
    = Json.Parsed (PList (rev acc ++ List.map json_image l)) rest.
Proof.
  induction 1 as [|x l Hx Hl IH]; intros Hp Hne body n acc rest Hj Hn Hf;
    [contradiction|].
  cbn [forallb] in Hp. apply andb_true_iff in Hp as [Hpx Hpl].
  cbn [join_items] in Hj.
  destruct (Json.dumps x false) as [tx|] eqn:Ex; [|discriminate]. cbn [rbind] in Hj.
  destruct (join_items _ _ false l) as [tb|] eqn:Eb; [|discriminate].
  cbn [rbind] in Hj. injection Hj as <-. cbn [app] in *.
  rewrite length_app in Hf.
  destruct n as [|n]; [simpl in Hn; lia|].
  rewrite scan_array_step, <- app_assoc.
  destruct l as [|y l].
  - cbn [join_items] in Eb. injection Eb as <-. cbn [app].
    rewrite (Hx Hpx tx f (93 :: rest) Ex); [|simpl in *; lia | reflexivity].
    rewrite skip_ws_keep by reflexivity.
    change (93 =? 93) with true. cbv iota. reflexivity.
  - destruct (join_items_first (fun x => Json.dumps x false) (lit ", ") (y :: l) tb)
      as (body' & Eb' & ->); [discriminate | exact Eb |].
    rewrite length_app in Hf.
    change (lit ", ") with [44; 32] in *. cbn [app length] in *.
    rewrite (Hx Hpx tx f (44 :: 32 :: body' ++ 93 :: rest) Ex);
      [|simpl; rewrite length_app; simpl; lia | reflexivity].
    rewrite skip_ws_keep by reflexivity.
    change (44 =? 93) with false. change (44 =? 44) with true. cbv iota.
    rewrite skip_ws_drop by reflexivity.
    assert (Hhead : exists c t, body' = c :: t /\ head_ok c = true).
    { cbn [join_items] in Eb'. cbn [forallb] in Hpl.
      apply andb_true_iff in Hpl as [Hpy _].
      destruct (Json.dumps y false) as [ty|] eqn:Ey; [|discriminate].
      cbn [rbind] in Eb'.
      destruct (join_items _ _ false l) as [tb'|]; [|discriminate].
      cbn [rbind] in Eb'. injection Eb' as <-.
      destruct (encode_head y ty Hpy Ey) as (c & t & -> & Hc). cbn [app]. eauto. }
    destruct Hhead as (c & t & Ebody & Hc).
    assert (Hskip : Json.skip_ws (body' ++ 93 :: rest) = body' ++ 93 :: rest).
    { rewrite Ebody. cbn [app]. apply skip_ws_head, Hc. }
    rewrite Hskip.
    rewrite (IH Hpl ltac:(discriminate) body' n (json_image x :: acc) rest Eb');
      [|simpl in Hn; lia | lia].
    cbn [rev]. rewrite <- app_assoc. reflexivity.
Qed.

Lemma scan_object_join (f : nat) (d : list (pystr * pyval)) :
  Forall (fun kv => reads_back kv.2) d ->
  forallb (fun kv => is_plain kv.2) d = true ->
  d <> [] ->
  forall body n acc rest,
    join_members (fun x => Json.dumps x false) (lit ", ") (lit ": ") true d
      = Ok (34 :: body) ->
    (length d <= n)%nat ->
    (length body + S (length rest) < f)%nat ->
    Json.scan_object (Json.scan_once f) n acc (body ++ 125 :: rest)
    = Json.Parsed
        (PDict (dict_of_pairs
                  (rev acc ++ List.map (fun kv => (kv.1, json_image kv.2)) d))) rest.
Proof.
  induction 1 as [|[k x] d Hx Hd IH]; intros Hp Hne body n acc rest Hj Hn Hf;
    [contradiction|].
  cbn [forallb snd] in Hp. apply andb_true_iff in Hp as [Hpx Hpd].
  cbn [join_members snd] in Hj, Hx.
  destruct (Json.dumps x false) as [tx|] eqn:Ex; [|discriminate]. cbn [rbind] in Hj.
  destruct (join_members _ _ _ false d) as [tb|] eqn:Eb; [|discriminate].
  cbn [rbind] in Hj. unfold Json.encode_string in Hj.
  change (lit ": ") with [58; 32] in *. change (lit ", ") with [44; 32] in *.
  cbn [app] in Hj. injection Hj as <-.
  destruct n as [|n]; [simpl in Hn; lia|].
  pose proof (escaped_length k) as Hk.
  set (kb := concat (List.map (Json.escape_char false) k)) in *.
  repeat rewrite length_app in Hf. cbn [length app] in Hf.
  repeat rewrite length_app in Hf. cbn [length app] in Hf.
  destruct (encode_head x tx Hpx Ex) as (c & t & Etx & Hc).
  rewrite scan_object_step.
  repeat rewrite <- app_assoc. cbn [app].
  rewrite (scanstring_encode k [] _ _);
    [|rewrite length_app; simpl; lia].
  cbn [rev app].
  rewrite skip_ws_keep by reflexivity. change (58 =? 58) with true. cbv iota.
  rewrite skip_ws_drop by reflexivity.
  repeat rewrite <- app_assoc.
  assert (Hskip : forall more, Json.skip_ws (tx ++ more) = tx ++ more).
  { intros more. rewrite Etx. cbn [app]. apply skip_ws_head, Hc. }
  rewrite Hskip.
  destruct d as [|[k' y] d].
  - cbn [join_members] in Eb. injection Eb as <-. cbn [app].
    rewrite (Hx Hpx tx f (125 :: rest) Ex); [|simpl in *; lia | reflexivity].
    rewrite skip_ws_keep by reflexivity.
    change (125 =? 125) with true. cbv iota.
    cbn [rev]. reflexivity.
  - destruct (join_members_first (fun x => Json.dumps x false) [44; 32] [58; 32]
                ((k', y) :: d) tb) as (body' & Eb' & ->); [discriminate | exact Eb |].
    assert (Hq : exists body2, body' = 34 :: body2).
    { cbn [join_members] in Eb'.
      destruct (Json.dumps y false); [|discriminate]. cbn [rbind] in Eb'.
      destruct (join_members _ _ _ false d); [|discriminate]. cbn [rbind] in Eb'.
      injection Eb' as <-. unfold Json.encode_string. cbn [app]. eauto. }
    destruct Hq as (body2 & ->).
    cbn [app length] in *.
    rewrite (Hx Hpx tx f (44 :: 32 :: 34 :: body2 ++ 125 :: rest) Ex);
      [|simpl; rewrite length_app; simpl; lia | reflexivity].
    rewrite skip_ws_keep by reflexivity.
    change (44 =? 125) with false. change (44 =? 44) with true. cbv iota.
    rewrite skip_ws_drop by reflexivity. rewrite skip_ws_keep by reflexivity.
    change (34 =? 34) with true. cbv iota.
    rewrite (IH Hpd ltac:(discriminate) body2 n ((k, json_image x) :: acc) rest Eb');
      [|simpl in Hn; lia | lia].
    cbn [rev]. rewrite <- app_assoc. reflexivity.
Qed.

Lemma dict_set_fresh (k : pystr) (v : pyval) (d : list (pystr * pyval)) :
  k ∉ d.*1 -> dict_set k v d = d ++ [(k, v)].
Proof.
  induction d as [|[k' w] d IH]; intros Hk; [reflexivity|].
  cbn [dict_set app]. cbn [fmap list_fmap fst] in Hk.
  apply not_elem_of_cons in Hk as [Hne Hk].
  rewrite bool_decide_eq_false_2 by congruence. rewrite IH by exact Hk. reflexivity.
Qed.

Lemma dict_of_pairs_from (d acc : list (pystr * pyval)) :
  NoDup (acc ++ d).*1 ->
  fold_left (fun d kv => dict_set kv.1 kv.2 d) d acc = acc ++ d.
Proof.
  revert acc. induction d as [|[k v] d IH]; intros acc Hnd.
  - cbn [fold_left]. rewrite app_nil_r. reflexivity.
  - cbn [fold_left fst snd]. rewrite dict_set_fresh.
    + rewrite IH; rewrite <- app_assoc; [reflexivity | exact Hnd].
    + rewrite fmap_app in Hnd. apply NoDup_app in Hnd as (_ & Hdis & _).
      intros Hin. apply (Hdis k Hin). cbn [fmap list_fmap fst]. apply elem_of_cons. left.
      reflexivity.
Qed.

(** A dict display with distinct keys builds the dict of its pairs. *)
Lemma dict_of_pairs_nodup (d : list (pystr * pyval)) :
  NoDup d.*1 -> dict_of_pairs d = d.
Proof. intros H. unfold dict_of_pairs. rewrite dict_of_pairs_from; [reflexivity | exact H]. Qed.

(** Every item and every member takes at least one character. *)
Lemma join_items_length (first : bool) (l : list pyval) (body : pystr) :
  forallb is_plain l = true ->
  join_items (fun x => Json.dumps x false) (lit ", ") first l = Ok body ->
  (length l <= length body)%nat.
Proof.
  revert first body. induction l as [|y l IH]; intros first body Hp Ej; [simpl; lia|].
  cbn [join_items] in Ej. cbn [forallb] in Hp. apply andb_true_iff in Hp as [Hpy Hpl].
  destruct (Json.dumps y false) as [ty|] eqn:Ey; [|discriminate].
  cbn [rbind] in Ej.
  destruct (join_items _ _ false l) as [tb|] eqn:Eb; [|discriminate].
  cbn [rbind] in Ej. injection Ej as <-.
  destruct (encode_head y ty Hpy Ey) as (c & t & -> & _).
  specialize (IH false tb Hpl Eb).
  rewrite !length_app. simpl. lia.
Qed.

Lemma join_members_length (first : bool) (d : list (pystr * pyval)) (body : pystr) :
  forallb (fun kv => is_plain kv.2) d = true ->
  join_members (fun x => Json.dumps x false) (lit ", ") (lit ": ") first d = Ok body ->
  (length d <= length body)%nat.
Proof.
  revert first body. induction d as [|[k y] d IH]; intros first body Hp Ej; [simpl; lia|].
  cbn [join_members] in Ej. cbn [forallb snd] in Hp.
  apply andb_true_iff in Hp as [Hpy Hpl].
  destruct (Json.dumps y false) as [ty|] eqn:Ey; [|discriminate].
  cbn [rbind] in Ej.
  destruct (join_members _ _ _ false d) as [tb|] eqn:Eb; [|discriminate].
  cbn [rbind] in Ej. injection Ej as <-.
  specialize (IH false tb Hpl Eb).
  unfold Json.encode_string. change (lit ": ") with [58; 32]. cbn [app length].
  repeat (rewrite length_app || rewrite length_cons). lia.
Qed.

(** What [json.dumps] writes for a plain value, [scan_once] reads back as
    that value, whatever follows it. *)
Ltac list_length :=
  repeat (rewrite length_app in * || rewrite length_cons in * ); cbn [length] in *; lia.

Lemma reads_back_list (l : list pyval) : Forall reads_back l -> reads_back (PList l).
Proof.
  intros IHl Hp text fuel rest Hd Hf Hb. unfold Json.dumps in Hd.
  rewrite encode_list_join in Hd.
  destruct (join_items _ _ true l) as [body|] eqn:Ej; [|discriminate].
  cbn [rbind] in Hd. injection Hd as <-.
  destruct fuel as [|fuel]; [simpl in Hf; lia|].
  cbn [is_plain] in Hp. cbn [app json_image]. rewrite <- app_assoc. cbn [app].
  rewrite scan_once_step. change (91 =? 34) with false. change (91 =? 123) with false.
  change (91 =? 91) with true. cbv iota.
  destruct l as [|x l].
  - cbn [join_items] in Ej. injection Ej as <-. cbn [app].
    rewrite skip_ws_keep by reflexivity. reflexivity.
  - assert (Hhead : exists c t, body = c :: t /\ head_ok c = true).
    { cbn [join_items] in Ej. cbn [forallb] in Hp.
      apply andb_true_iff in Hp as [Hpx _].
      destruct (Json.encode false (lit ", ") (lit ": ") x) as [tx|] eqn:Ex; [|discriminate].
      cbn [rbind] in Ej.
      destruct (join_items _ _ false l); [|discriminate].
      cbn [rbind] in Ej. injection Ej as <-.
      destruct (encode_head x tx Hpx Ex) as (c & t & -> & Hc). cbn [app]. eauto. }
    destruct Hhead as (c & t & Ebody & Hc).
    pose proof (join_items_length true (x :: l) body Hp Ej) as Hlen.
    pose proof (scan_array_join fuel (x :: l) IHl Hp ltac:(discriminate) body
                  (S (length (t ++ 93 :: rest))) [] rest Ej) as Hs.
    rewrite Ebody in *. cbn [app] in *.
    rewrite (skip_ws_head c _ Hc).
    assert (Hc93 : (c =? 93) = false).
    { unfold head_ok in Hc. destruct (c =? 93); [|reflexivity].
      rewrite andb_false_r in Hc. discriminate. }
    rewrite Hc93. rewrite Hs; [reflexivity | |].
    + list_length.
    + list_length.
Qed.

Lemma reads_back_dict (d : list (pystr * pyval)) :
  Forall (fun kv => reads_back kv.2) d -> reads_back (PDict d).
Proof.
  intros IHd Hp text fuel rest Hd Hf Hb. unfold Json.dumps in Hd.
  rewrite encode_dict_join in Hd.
  destruct (join_members _ _ _ true d) as [body|] eqn:Ej; [|discriminate].
  cbn [rbind] in Hd. injection Hd as <-.
  destruct fuel as [|fuel]; [simpl in Hf; lia|].
  cbn [is_plain] in Hp. apply andb_true_iff in Hp as [Hnd Hp].
  apply bool_decide_eq_true in Hnd.
  cbn [app json_image]. rewrite <- app_assoc. cbn [app].
  rewrite scan_once_step. change (123 =? 34) with false. change (123 =? 123) with true.
  cbv iota.
  destruct d as [|[k x] d].
  - cbn [join_members] in Ej. injection Ej as <-. cbn [app].
    rewrite skip_ws_keep by reflexivity. reflexivity.
  - assert (Hq : exists body2, body = 34 :: body2).
    { cbn [join_members] in Ej.
      destruct (Json.encode false (lit ", ") (lit ": ") x); [|discriminate].
      cbn [rbind] in Ej.
      destruct (join_members _ _ _ false d); [|discriminate]. cbn [rbind] in Ej.
      injection Ej as <-. unfold Json.encode_string. cbn [app]. eauto. }
    destruct Hq as (body2 & ->).
    pose proof (join_members_length true ((k, x) :: d) _ Hp Ej) as Hlen.
    cbn [app]. rewrite skip_ws_keep by reflexivity.
    change (34 =? 125) with false. change (34 =? 34) with true. cbv iota.
    rewrite (scan_object_join fuel ((k, x) :: d) IHd Hp ltac:(discriminate) body2
               (S (length (body2 ++ 125 :: rest))) [] rest Ej).
    + cbn [rev app]. rewrite dict_of_pairs_nodup; [reflexivity|].
      rewrite <- list_fmap_compose.
      erewrite list_fmap_ext; [exact Hnd|]. intros i [k' y] _. reflexivity.
    + list_length.
    + list_length.
Qed.

(** What [json.dumps] writes for a plain value, [scan_once] reads back as
    the value's image, whatever follows it. *)
Lemma scan_once_dumps (v : pyval) : reads_back v.
Proof.
  induction v as [ | b | z | fl | s | l IHl | l IHl | d IHd | cls attrs IHa ]
    using pyval_induction.
  - intros Hp text fuel rest Hd Hf Hb. injection Hd as <-.
    destruct fuel as [|fuel]; [simpl in Hf; lia|]. reflexivity.
  - intros Hp text fuel rest Hd Hf Hb.
    destruct fuel as [|fuel]; [simpl in Hf; lia|].
    destruct b; injection Hd as <-; reflexivity.
  - intros Hp text fuel rest Hd Hf Hb. injection Hd as <-.
    destruct fuel as [|fuel]; [simpl in Hf; lia|].
    destruct (of_Z_head z) as (c & t & E & Hc).
    pose proof (scan_number_of_Z z rest Hb) as Hn. rewrite E in *. cbn [app] in *.
    apply scan_once_number; assumption.
  - intros Hp text fuel rest Hd Hf Hb.
    destruct fuel as [|fuel]; [simpl in Hf; lia|].
    destruct fl as [neg | [|] | | ]; try discriminate Hp; injection Hd as <-.
    + pose proof (scan_number_zero neg rest Hb) as Hn.
      destruct neg; cbn [app] in *;
        (apply scan_once_number; [first [left; reflexivity | right; reflexivity] | exact Hn]).
    + reflexivity.
    + reflexivity.
    + reflexivity.
  - intros Hp text fuel rest Hd Hf Hb. injection Hd as <-.
    destruct fuel as [|fuel]; [simpl in Hf; lia|].
    unfold Json.encode_string. rewrite <- !app_assoc. cbn [app json_image].
    rewrite scan_once_step. change (34 =? 34) with true. cbv iota.
    pose proof (escaped_length s) as Hs.
    rewrite scanstring_encode; [reflexivity | rewrite length_app; simpl; lia].
  - apply reads_back_list, IHl.
  - exact (reads_back_list l IHl).
  - apply reads_back_dict, IHd.
  - intros Hp. discriminate Hp.
Qed.

(** The decoder reads the text the encoder wrote for a plain [v] as [v]
    with its tuples turned into lists. *)
Lemma loads_dumps (v : pyval) (text : pystr) :
  is_plain v = true ->
  Json.dumps v false = Ok text ->
  Json.loads text = Ok (json_image v).
Proof.
  intros Hp Hd. destruct (encode_head v text Hp Hd) as (c & t & E & Hc).
  pose proof (scan_once_dumps v Hp text (S (length text)) [] Hd) as Hs.
  rewrite app_nil_r in Hs. unfold Json.loads.
  assert (Hbom : Json.strip_prefix [0xFEFF] text = None).
  { rewrite E. cbn [Json.strip_prefix]. unfold head_ok in Hc.
    apply andb_true_iff in Hc as [_ Hc]. apply N.ltb_lt in Hc.
    replace (0xFEFF =? c) with false; [reflexivity|].
    symmetry. apply N.eqb_neq. lia. }
  rewrite Hbom.
  replace (Json.skip_ws text) with text
    by (rewrite E; symmetry; apply skip_ws_head, Hc).
  rewrite Hs; [reflexivity | simpl; lia | reflexivity].
Qed.

Lemma map_fixed {A} (f : A -> A) (l : list A) :
  List.map f l = l <-> Forall (fun x => f x = x) l.
Proof.
  induction l as [|x l IH]; [split; [constructor | reflexivity]|].
  cbn [List.map]. split.
  - intros [= Hx Hl]. constructor; [exact Hx | apply IH, Hl].
  - intros H. apply Forall_cons in H as [Hx Hl]. rewrite Hx. f_equal. apply IH, Hl.
Qed.

(** The image is the value itself exactly when the value has no tuple. *)
Lemma json_image_fixed (v : pyval) : json_image v = v <-> tuple_free v = true.
Proof.
  induction v as [ | b | z | fl | s | l IHl | l IHl | d IHd | cls attrs IHa ]
    using pyval_induction; try (split; reflexivity).
  - cbn [json_image tuple_free]. rewrite forallb_forall, <- List.Forall_forall.
    split.
    + intros [= H]. apply map_fixed in H.
      rewrite Forall_forall in *. intros x Hx. apply (IHl x Hx), (H x Hx).
    + intros H. f_equal. apply map_fixed.
      rewrite Forall_forall in *. intros x Hx. apply (IHl x Hx), (H x Hx).
  - split; discriminate.
  - cbn [json_image tuple_free]. rewrite forallb_forall, <- List.Forall_forall.
    split.
    + intros [= H]. apply map_fixed in H.
      rewrite Forall_forall in *. intros [k x] Hx. cbn [snd].
      apply (IHd _ Hx). specialize (H _ Hx). cbn [fst snd] in *. congruence.
    + intros H. f_equal. apply map_fixed.
      rewrite Forall_forall in *. intros [k x] Hx. cbn [fst snd]. f_equal.
      apply (IHd _ Hx), (H _ Hx).
Qed.

Lemma truthy_json_image (v : pyval) : truthy (json_image v) = truthy v.
Proof. destruct v as [ | | | | | [|] | [|] | [|] | ]; reflexivity. Qed.

(** The text of a plain value is never the value: a string gains its
    quotes. *)
Lemma json_image_not_text (v : pyval) (text : pystr) :
  Json.dumps v false = Ok text -> json_image v <> PStr text.
Proof.
  destruct v; try discriminate.
  cbn [json_image]. unfold Json.dumps. cbn [Json.encode]. intros [= <-] [= H].
  pose proof (escaped_length s) as Hl.
  apply (f_equal length) in H. unfold Json.encode_string in H.
  rewrite !length_app in H. cbn [length] in H. lia.
Qed.

(** A healthy write followed by reads. *)
Lemma write_then_read (key text : pystr) (v : pyval) (seconds : Z) (w : world) :
  redis_ready w = true ->
  backend_mode w Redis.Setex = Redis.Healthy ->
  backend_mode w Redis.Get = Redis.Healthy ->
  redis_value_of v = Ok (PStr text) ->
  exists w',
    _set_to_cache key v seconds w = (Ok true, w')
    /\ calls w' = calls w
    /\ cached key w' = match Json.loads text with
                       | Ok x => x
                       | Raise JSONDecodeError => PStr text
                       | Raise _ => PNone
                       end
    /\ forall k, k <> key -> cached k w' = cached k w.
Proof.
  intros Hr Hs Hg Hv.
  destruct (set_to_cache_effect key v seconds w)
    as (b & w' & E & Hc & Hr' & Hm & _ & H).
  destruct (set_to_cache_stores key v seconds w text Hr Hs Hv) as (w2 & E2 & _).
  rewrite E in E2. injection E2 as -> ->.
  destruct H as (rv & text' & Hv' & Ht & _ & _ & Hst).
  rewrite Hv in Hv'. injection Hv' as <-.
  rewrite (stored_as_scalar _ _ _ _ Ht eq_refl) in Hst.
  exists w2. split; [exact E|]. split; [exact Hc|].
  rewrite Hr in Hr'. split.
  - rewrite cached_store, Hr', Hm, Hg, Hst, lookup_insert_eq. reflexivity.
  - intros k Hk. rewrite !cached_store, Hr', Hr, Hm, Hst.
    rewrite lookup_insert_ne by congruence. reflexivity.
Qed.

(** ** Writing and reading back *)

(** X11.  On a ready client with healthy writes and reads, when
    [json.dumps] returns a text for a plain dict or list and [json.loads]
    returns a value for that text: [_set_to_cache] stores the text and
    returns [True], and [_get_from_cache] then returns for the key the
    value that was written with the tuples inside it turned into lists,
    which is the value itself exactly when it has no tuple.  Reads of
    every other key answer as before the write. *)
Theorem cache_round_trip (key text : pystr) (v v' : pyval) (seconds : Z) (w : world) :
  redis_ready w = true ->
  backend_mode w Redis.Setex = Redis.Healthy ->
  backend_mode w Redis.Get = Redis.Healthy ->
  is_dict_or_list v = true ->
  is_plain v = true ->
  Json.dumps v false = Ok text ->
  Json.loads text = Ok v' ->
  exists w',
    _set_to_cache key v seconds w = (Ok true, w')
    /\ _get_from_cache key w' = (Ok v', w')
    /\ v' = json_image v
    /\ (v' = v <-> tuple_free v = true)
    /\ forall k, k <> key -> (_get_from_cache k w').1 = (_get_from_cache k w).1.
Proof.
  intros Hr Hs Hg Hdl Hp Hd Hl.
  destruct (write_then_read key text v seconds w Hr Hs Hg) as (w' & E & _ & Hc & Hk).
  { unfold redis_value_of. rewrite Hdl, Hd. reflexivity. }
  assert (Hv : v' = json_image v).
  { rewrite (loads_dumps v text Hp Hd) in Hl. congruence. }
  exists w'. split; [exact E|]. rewrite Hl in Hc.
  split; [rewrite get_from_cache_cached, Hc; reflexivity|].
  split; [exact Hv|].
  split; [rewrite Hv; apply json_image_fixed|].
  intros k Hne. rewrite !get_from_cache_cached. cbn [fst]. rewrite (Hk k Hne).
  reflexivity.
Qed.

Lemma cache_round_trip_witness :
  exists w',
    _set_to_cache (Sample.key_of Sample.acme) (PDict Sample.ranked) 60 Sample.empty_cache
    = (Ok true, w')
    /\ _get_from_cache (Sample.key_of Sample.acme) w'
       = (Ok (PDict Sample.ranked_as_lists), w')
    /\ PDict Sample.ranked_as_lists = json_image (PDict Sample.ranked)
    /\ (PDict Sample.ranked_as_lists = PDict Sample.ranked
        <-> tuple_free (PDict Sample.ranked) = true)
    /\ forall k, k <> Sample.key_of Sample.acme ->
                 (_get_from_cache k w').1 = (_get_from_cache k Sample.empty_cache).1.
Proof.
  apply (cache_round_trip (Sample.key_of Sample.acme)
           (match Json.dumps (PDict Sample.ranked) false with
            | Ok text => text
            | Raise _ => []
            end)
           (PDict Sample.ranked) (PDict Sample.ranked_as_lists) 60
           Sample.empty_cache); vm_compute; reflexivity.
Defined.

(** X14.  A [str] goes to the store as it is and is read back through
    [json.loads]: when the string is the JSON text of a plain value and
    [json.loads] returns a value for it, [_get_from_cache] returns that
    value, the plain value with its tuples turned into lists, and not
    the string that was written. *)
Theorem json_text_comes_back_decoded (key text : pystr) (v v' : pyval) (seconds : Z)
    (w : world) :
  redis_ready w = true ->
  backend_mode w Redis.Setex = Redis.Healthy ->
  backend_mode w Redis.Get = Redis.Healthy ->
  is_plain v = true ->
  Json.dumps v false = Ok text ->
  Json.loads text = Ok v' ->
  exists w',
    _set_to_cache key (PStr text) seconds w = (Ok true, w')
    /\ _get_from_cache key w' = (Ok v', w')
    /\ v' = json_image v
    /\ v' <> PStr text.
Proof.
  intros Hr Hs Hg Hp Hd Hl.
  destruct (write_then_read key text (PStr text) seconds w Hr Hs Hg eq_refl)
    as (w' & E & _ & Hc & _).
  assert (Hv : v' = json_image v).
  { rewrite (loads_dumps v text Hp Hd) in Hl. congruence. }
  exists w'. split; [exact E|]. rewrite Hl in Hc.
  split; [rewrite get_from_cache_cached, Hc; reflexivity|].
  split; [exact Hv|].
  rewrite Hv. apply json_image_not_text, Hd.
Qed.

Lemma json_text_comes_back_decoded_witness :
  exists w',
    _set_to_cache (Sample.key_of Sample.acme) (PStr (lit "2024")) 60 Sample.empty_cache
    = (Ok true, w')
    /\ _get_from_cache (Sample.key_of Sample.acme) w' = (Ok (PInt 2024), w')
    /\ PInt 2024 = json_image (PInt 2024)
    /\ PInt 2024 <> PStr (lit "2024").
Proof.
  apply (json_text_comes_back_decoded (Sample.key_of Sample.acme) (lit "2024")
           (PInt 2024) (PInt 2024) 60 Sample.empty_cache); vm_compute; reflexivity.
Defined.

(** ** The call after a miss *)

(** X12.  After a miss that computed and stored a dict or list [r], the
    next call for the same identifier answers from the cache: it returns
    what [json.loads] makes of the stored text, when that is truthy, and
    neither runs the pipeline again nor changes the world.  The pipeline's
    calls were made once, by the first call. *)
Theorem second_call_is_served_from_cache (self : collaborators) (name key text : pystr)
    (r r' : pyval) (w : world) :
  _get_cache_key name = Ok key ->
  truthy (cached key w) = false ->
  pipeline self name = Ok r ->
  is_dict_or_list r = true ->
  Json.dumps r false = Ok text ->
  Json.loads text = Ok r' ->
  truthy r' = true ->
  redis_ready w = true ->
  backend_mode w Redis.Setex = Redis.Healthy ->
  backend_mode w Redis.Get = Redis.Healthy ->
  exists w1,
    analysis_review self name w = (Ok r, w1)
    /\ calls w1 = calls w ++ pipeline_calls self name
    /\ analysis_review self name w1 = (Ok r', w1).
Proof.
  intros Hkey Hmiss Hpipe Hdl Hd Hl Ht Hr Hs Hg.
  destruct (write_then_read key text r (review_analysis_cache_expire_time self)
              (after_calls w (pipeline_calls self name)) Hr Hs Hg)
    as (w1 & E & Hc & Hread & _).
  { unfold redis_value_of. rewrite Hdl, Hd. reflexivity. }
  exists w1. rewrite Hl in Hread.
  rewrite !analysis_review_spec, Hkey, Hmiss, Hread, Ht. cbv zeta.
  rewrite Hpipe, E. cbn [snd]. repeat split. exact Hc.
Qed.

Lemma second_call_is_served_from_cache_witness :
  exists w1,
    analysis_review Sample.plain_service Sample.acme Sample.empty_cache
    = (Ok (PDict Sample.scores), w1)
    /\ calls w1
       = calls Sample.empty_cache ++ pipeline_calls Sample.plain_service Sample.acme
    /\ analysis_review Sample.plain_service Sample.acme w1
       = (Ok (PDict Sample.scores), w1).
Proof.
  apply (second_call_is_served_from_cache Sample.plain_service Sample.acme
           (Sample.key_of Sample.acme)
           (match Json.dumps (PDict Sample.scores) false with
            | Ok text => text
            | Raise _ => []
            end)
           (PDict Sample.scores) (PDict Sample.scores) Sample.empty_cache);
    vm_compute; reflexivity.
Defined.

(** X13.  When the pipeline's result is a plain, non-empty dict or list
    for which [json.dumps] returns a text and [json.loads] returns a
    value for that text (ready client, healthy writes and reads, a miss):
    the first call returns the result as computed, the second returns it
    with its tuples turned into lists.  The two answers are the same
    exactly when the result has no tuple; with a tuple, the caller gets a
    list in its place from the second call on. *)
Theorem plain_result_repeats (self : collaborators) (name key text : pystr)
    (r r' : pyval) (w : world) :
  _get_cache_key name = Ok key ->
  truthy (cached key w) = false ->
  pipeline self name = Ok r ->
  is_dict_or_list r = true ->
  is_plain r = true ->
  truthy r = true ->
  Json.dumps r false = Ok text ->
  Json.loads text = Ok r' ->
  redis_ready w = true ->
  backend_mode w Redis.Setex = Redis.Healthy ->
  backend_mode w Redis.Get = Redis.Healthy ->
  exists w1,
    analysis_review self name w = (Ok r, w1)
    /\ analysis_review self name w1 = (Ok r', w1)
    /\ r' = json_image r
    /\ (r' = r <-> tuple_free r = true).
Proof.
  intros Hkey Hmiss Hpipe Hdl Hp Ht Hd Hl Hr Hs Hg.
  destruct (write_then_read key text r (review_analysis_cache_expire_time self)
              (after_calls w (pipeline_calls self name)) Hr Hs Hg)
    as (w1 & E & _ & Hread & _).
  { unfold redis_value_of. rewrite Hdl, Hd. reflexivity. }
  assert (Hv : r' = json_image r).
  { rewrite (loads_dumps r text Hp Hd) in Hl. congruence. }
  exists w1. rewrite Hl in Hread.
  rewrite !analysis_review_spec, Hkey, Hmiss, Hread. cbv zeta.
  rewrite Hpipe, E. cbn [snd].
  replace (truthy r') with true by (rewrite Hv, truthy_json_image, Ht; reflexivity).
  split; [reflexivity|]. split; [reflexivity|]. split; [exact Hv|].
  rewrite Hv. apply json_image_fixed.
Qed.

Lemma plain_result_repeats_witness :
  exists w1,
    analysis_review Sample.ranked_service Sample.acme Sample.empty_cache
    = (Ok (PDict Sample.ranked), w1)
    /\ analysis_review Sample.ranked_service Sample.acme w1
       = (Ok (PDict Sample.ranked_as_lists), w1)
    /\ PDict Sample.ranked_as_lists = json_image (PDict Sample.ranked)
    /\ (PDict Sample.ranked_as_lists = PDict Sample.ranked
        <-> tuple_free (PDict Sample.ranked) = true).
Proof.
  apply (plain_result_repeats Sample.ranked_service Sample.acme
           (Sample.key_of Sample.acme)
           (match Json.dumps (PDict Sample.ranked) false with
            | Ok text => text
            | Raise _ => []
            end)
           (PDict Sample.ranked) (PDict Sample.ranked_as_lists)
           Sample.empty_cache);
    vm_compute; reflexivity.
Defined.

(** ** Failures are not remembered *)

Lemma failing_review (self : collaborators) (name key : pystr) (e : exn) (w : world) :
  _get_cache_key name = Ok key ->
  pipeline self name = Raise e ->
  truthy (cached key w) = false ->
  analysis_review self name w
  = (Ok _get_default_response, after_calls w (pipeline_calls self name)).
Proof.
  intros Hkey Hp Hmiss. rewrite analysis_review_spec, Hkey, Hmiss. cbv zeta.
  rewrite Hp. reflexivity.
Qed.

(** X15.  A failing pipeline leaves nothing behind in the cache: the
    default response is returned but never stored, so every later call
    for the identifier runs the pipeline again, up to its failing call,
    and the cache client stays as it was. *)
Theorem failure_is_never_cached (self : collaborators) (name key : pystr) (e : exn)
    (w : world) :
  _get_cache_key name = Ok key ->
  pipeline self name = Raise e ->
  truthy (cached key w) = false ->
  forall n,
    let wn := after_reviews self name n w in
    analysis_review self name wn
    = (Ok _get_default_response, after_calls wn (pipeline_calls self name))
    /\ redis_client wn = redis_client w
    /\ calls wn = calls w ++ concat (replicate n (pipeline_calls self name)).
Proof.
  intros Hkey Hp Hmiss n. revert w Hmiss.
  induction n as [|n IH]; intros w Hmiss; cbn [after_reviews].
  - split; [apply (failing_review self name key e); assumption|].
    split; [reflexivity|]. cbn [replicate concat]. rewrite app_nil_r. reflexivity.
  - rewrite (failing_review self name key e w Hkey Hp Hmiss). cbn [snd].
    destruct (IH (after_calls w (pipeline_calls self name))) as (E & Hc & Hcalls).
    { rewrite (cached_same_client key _ w); [exact Hmiss | reflexivity]. }
    split; [exact E|]. split; [exact Hc|].
    rewrite Hcalls. cbn [after_calls calls replicate concat].
    rewrite <- app_assoc. reflexivity.
Qed.

Lemma failure_is_never_cached_witness :
  let wn := after_reviews Sample.plain_service Sample.globex 2 Sample.empty_cache in
  analysis_review Sample.plain_service Sample.globex wn
  = (Ok _get_default_response,
     after_calls wn (pipeline_calls Sample.plain_service Sample.globex))
  /\ redis_client wn = redis_client Sample.empty_cache
  /\ calls wn
     = calls Sample.empty_cache
       ++ concat (replicate 2 (pipeline_calls Sample.plain_service Sample.globex)).
Proof.
  apply (failure_is_never_cached Sample.plain_service Sample.globex
           (Sample.key_of Sample.globex) (ProcessingError "store unreachable")
           Sample.empty_cache eq_refl eq_refl eq_refl 2).
Defined.
